(** * AI Study Assistant: allocation scheduler, task entry and focus timer

    A shallow embedding of [ai_study_app.py] (classes [Task] and
    [AiStudyApp]) together with the properties its specification states
    about it.

    Python values are represented as follows.
    - [float] is IEEE-754 binary64, through the axiom-free reference
      implementation [SpecFloat] of the standard library at [prec = 53],
      [emax = 1024].
    - [int] is [Z].
    - [datetime.date] is its proleptic Gregorian ordinal ([date.toordinal()]),
      in the range [1 .. 3652059]; adding a [timedelta] beyond that range
      raises [OverflowError], as in CPython.
    - [str] is [string]; the text of a widget is the string it shows. *)

From Stdlib Require Import ZArith List String Ascii Bool Lia.
From Stdlib Require Import Floats.SpecFloat.
From Stdlib Require Import Sorting.Sorted Sorting.Permutation.
Import ListNotations.
Local Open Scope string_scope.
Local Open Scope Z_scope.

(* ================================================================== *)
(** ** Python floats                                                    *)
(* ================================================================== *)

Module Float64.

Definition prec : Z := 53.
Definition emax : Z := 1024.

Definition float64 : Type := spec_float.

(** Every Python float is a well-formed binary64 datum. *)
Definition valid (x : float64) : bool := valid_binary prec emax x.

Definition is_nan (x : float64) : bool :=
  match x with S754_nan => true | _ => false end.

Definition is_finite (x : float64) : bool :=
  match x with S754_zero _ | S754_finite _ _ _ => true | _ => false end.

Definition add : float64 -> float64 -> float64 := SFadd prec emax.
Definition sub : float64 -> float64 -> float64 := SFsub prec emax.
Definition div : float64 -> float64 -> float64 := SFdiv prec emax.
Definition ltb : float64 -> float64 -> bool := SFltb.
Definition leb : float64 -> float64 -> bool := SFleb.

(** [m * 2^e], correctly rounded; used to write literals. *)
Definition lit (m e : Z) : float64 := binary_normalize prec emax m e false.

(** The literal [0.0]. *)
Definition zero : float64 := S754_zero false.

(** Conversion of a Python [int] operand in mixed arithmetic
    ([PyLong_AsDouble]): round to nearest even, [OverflowError] ([None])
    when the integer is too large for a double. *)
Definition of_int (z : Z) : option float64 :=
  let f := lit z 0 in
  if is_finite f then Some f else None.

(** The builtin [min(a, b)]: the first argument unless [b < a]. *)
Definition py_min (a b : float64) : float64 := if ltb b a then b else a.

(** The builtin [max(a, b)]: the first argument unless [b > a]. *)
Definition py_max (a b : float64) : float64 := if ltb a b then b else a.

(** [int(x)]: truncation toward zero; [None] for NaN ([ValueError]) and
    the infinities ([OverflowError]). *)
Definition to_int (x : float64) : option Z :=
  match x with
  | S754_zero _ => Some 0
  | S754_finite s m e =>
      let a := match e with
               | Zneg p => Z.shiftr (Zpos m) (Zpos p)
               | _ => Z.shiftl (Zpos m) e
               end in
      Some (if s then - a else a)
  | _ => None
  end.

(** The exact value of a finite float scaled by [2^k], for [k] large
    enough to make it an integer: [scaled k x = x * 2^k]. *)
Definition scaled (k : Z) (x : float64) : Z :=
  match x with
  | S754_finite s m e => (if s then -1 else 1) * Zpos m * 2 ^ (e + k)
  | _ => 0
  end.

End Float64.

Import Float64.

(* ================================================================== *)
(** ** Dates ([datetime.date], [datetime.datetime])                     *)
(* ================================================================== *)

Module Date.

(** A date is its proleptic Gregorian ordinal: 0001-01-01 is day 1. *)
Definition date : Type := Z.

Definition MINORDINAL : Z := 1.
Definition MAXORDINAL : Z := 3652059.   (* date(9999, 12, 31).toordinal() *)

Definition valid (d : date) : bool := (1 <=? d) && (d <=? MAXORDINAL).

(** [d + timedelta(days=n)]; [None] is [OverflowError]. *)
Definition add_days (d : date) (n : Z) : option date :=
  let o := d + n in
  if (0 <? o) && (o <=? MAXORDINAL) then Some o else None.

(** [(d1 - d2).days]. *)
Definition days_between (d1 d2 : date) : Z := d1 - d2.

(** *** The civil calendar, after CPython's [_pydatetime] *)

Definition is_leap (y : Z) : bool :=
  (y mod 4 =? 0) && (negb (y mod 100 =? 0) || (y mod 400 =? 0)).

Definition days_before_year (y : Z) : Z :=
  let y1 := y - 1 in y1 * 365 + y1 / 4 - y1 / 100 + y1 / 400.

(** [_DAYS_IN_MONTH] with the leap day of February. *)
Definition days_in_month_l (leap : bool) (m : Z) : Z :=
  match m with
  | 1 => 31 | 2 => if leap then 29 else 28 | 3 => 31 | 4 => 30
  | 5 => 31 | 6 => 30 | 7 => 31 | 8 => 31 | 9 => 30 | 10 => 31
  | 11 => 30 | 12 => 31 | _ => 0
  end.

(** [_DAYS_BEFORE_MONTH] with the leap day added after February. *)
Definition days_before_month_l (leap : bool) (m : Z) : Z :=
  match m with
  | 1 => 0 | 2 => 31 | 3 => 59 | 4 => 90 | 5 => 120 | 6 => 151
  | 7 => 181 | 8 => 212 | 9 => 243 | 10 => 273 | 11 => 304 | 12 => 334
  | _ => 0
  end + (if (2 <? m) && leap then 1 else 0).

Definition days_in_month (y m : Z) : Z := days_in_month_l (is_leap y) m.
Definition days_before_month (y m : Z) : Z := days_before_month_l (is_leap y) m.

(** [_ymd2ord]. *)
Definition ymd2ord (y m d : Z) : Z :=
  days_before_year y + days_before_month y m + d.

(** The fields a [date] constructor accepts. *)
Definition valid_ymd (y m d : Z) : bool :=
  (1 <=? y) && (y <=? 9999) && (1 <=? m) && (m <=? 12)
  && (1 <=? d) && (d <=? days_in_month y m).

(** [date(y, m, d)]; [None] is [ValueError]. *)
Definition of_ymd (y m d : Z) : option date :=
  if valid_ymd y m d then Some (ymd2ord y m d) else None.

(** Month and day of the [n]-th day (from 0) of a year. *)
Definition month_day_of_yday (leap : bool) (n : Z) : Z * Z :=
  let month := Z.shiftr (n + 50) 5 in
  let preceding := days_before_month_l leap month in
  if n <? preceding then
    let month' := month - 1 in
    let preceding' := preceding - days_in_month_l leap month' in
    (month', n - preceding' + 1)
  else (month, n - preceding + 1).

Definition DI400Y : Z := 146097.
Definition DI100Y : Z := 36524.
Definition DI4Y : Z := 1461.

(** [_ord2ymd]. *)
Definition ord2ymd (n : Z) : Z * Z * Z :=
  let n := n - 1 in
  let n400 := n / DI400Y in
  let n := n mod DI400Y in
  let year := n400 * 400 + 1 in
  let n100 := n / DI100Y in
  let n := n mod DI100Y in
  let n4 := n / DI4Y in
  let n := n mod DI4Y in
  let n1 := n / 365 in
  let n := n mod 365 in
  let year := year + n100 * 100 + n4 * 4 + n1 in
  if (n1 =? 4) || (n100 =? 4) then (year - 1, 12, 31)
  else
    let leapyear := (n1 =? 3) && (negb (n4 =? 24) || (n100 =? 3)) in
    let '(month, day) := month_day_of_yday leapyear n in
    (year, month, day).

Definition year (d : date) : Z := fst (fst (ord2ymd d)).
Definition month (d : date) : Z := snd (fst (ord2ymd d)).
Definition day (d : date) : Z := snd (ord2ymd d).

(** *** Formatting *)

Definition digit (n : Z) : ascii := ascii_of_N (48 + Z.to_N n).

(** [%02d] of a number in [0 .. 99]. *)
Definition pad2 (n : Z) : string :=
  String (digit (n / 10)) (String (digit (n mod 10)) EmptyString).

(** [%04d] of a number in [0 .. 9999]. *)
Definition pad4 (n : Z) : string :=
  String (digit (n / 1000)) (String (digit (n / 100 mod 10))
    (String (digit (n / 10 mod 10)) (String (digit (n mod 10)) EmptyString))).

(** [d.strftime("%Y-%m-%d")], the year zero-padded to four digits as
    the library documents [%Y] (0001, ..., 9999).  A CPython that
    leaves [%Y] to glibc prints a year below 1000 without padding; the
    two agree on every date from year 1000 on, and so on every date
    [datetime.today()] gives. *)
Definition strftime (d : date) : string :=
  let '(y, m, dd) := ord2ymd d in
  pad4 y ++ "-" ++ pad2 m ++ "-" ++ pad2 dd.

(** A [datetime]: a date and the time of day in microseconds. *)
Record datetime : Type := mkDatetime { dt_date : date; dt_micros : Z }.

(** [dt1 < dt2]. *)
Definition dt_ltb (a b : datetime) : bool :=
  (dt_date a <? dt_date b)
  || ((dt_date a =? dt_date b) && (dt_micros a <? dt_micros b)).

(** [dt1 == dt2]. *)
Definition dt_eqb (a b : datetime) : bool :=
  (dt_date a =? dt_date b) && (dt_micros a =? dt_micros b).

(** [datetime(y, m, d)], at midnight. *)
Definition midnight (d : date) : datetime := mkDatetime d 0.

End Date.

Import Date.

(* ================================================================== *)
(** ** Formatting of numbers                                            *)
(* ================================================================== *)

From Stdlib Require Import DecimalString.

Module Fmt.

(** [str(n)] / [f"{n}"] / [f"{n:d}"] of an [int]. *)
Definition format_d (n : Z) : string := NilZero.string_of_int (Z.to_int n).

(** [f"{n:02d}"]: zero-padded to a width of two, sign included. *)
Definition format_02d (n : Z) : string :=
  if (0 <=? n) && (n <? 10) then "0" ++ format_d n else format_d n.

(** [f"{x:.2f}"]: the decimal with two fractional digits nearest to the
    exact value of [x], ties to even. *)
Definition format_2f (x : float64) : string :=
  match x with
  | S754_nan => "nan"
  | S754_infinity s => if s then "-inf" else "inf"
  | S754_zero s => if s then "-0.00" else "0.00"
  | S754_finite s m e =>
      let n :=
        match e with
        | Zneg p =>
            let d := 2 ^ Zpos p in
            let q := (Zpos m * 100) / d in
            let r := (Zpos m * 100) mod d in
            match 2 * r ?= d with
            | Lt => q
            | Gt => q + 1
            | Eq => if Z.even q then q else q + 1
            end
        | _ => Zpos m * 100 * 2 ^ e
        end in
      (if s then "-" else "") ++ format_d (n / 100) ++ "." ++ pad2 (n mod 100)
  end.

End Fmt.

Import Fmt.

(* ================================================================== *)
(** ** Library functions the application calls                          *)
(* ================================================================== *)

(** Python exceptions that can escape the modelled code. *)
Inductive exn : Type :=
| ValueError
| OverflowError.

(** The parsers and printers of the Python library that the application
    applies to user-supplied text.  [None] is [ValueError]. *)
Class Builtins : Type := {
  str_strip : string -> string;                  (* [s.strip()] *)
  float_of_str : string -> option float64;       (* [float(s)] *)
  int_of_str : string -> option Z;               (* [int(s)] *)
  strptime_ymd : string -> option datetime;      (* [datetime.strptime(s, "%Y-%m-%d")] *)
  float_str : float64 -> string                  (* [str(x)], as in [f"{x}"] *)
}.

(** What the user sees or answers: [tkinter.messagebox] calls. *)
Inductive dialog : Type :=
| showwarning (title message : string)
| showinfo (title message : string)
| showerror (title message : string).

(** How a call of a method ends: the dialogs it showed, and the exception
    that escaped it, if any. *)
Record outcome : Type := mkOutcome {
  shown : list dialog;
  raised : option exn
}.

Definition returned (ds : list dialog) : outcome := mkOutcome ds None.

(* ================================================================== *)
(** ** class Task                                                       *)
(* ================================================================== *)

Record Task : Type := mkTask {
  name : string;
  hours : float64;
  due_date : datetime;
  completed_hours : float64
}.

(** [Task.__init__]. *)
Definition Task_init (name : string) (hours : float64) (due_date : datetime) : Task :=
  mkTask name hours due_date zero.

(** [Task.remaining_hours]. *)
Definition remaining_hours (t : Task) : float64 :=
  py_max (sub (hours t) (completed_hours t)) zero.

(* ================================================================== *)
(** ** The allocation scheduler                                         *)
(* ================================================================== *)

(** One allocation: the values from which a line of [self.schedule] is
    formatted. *)
Record ScheduleEntry : Type := mkEntry {
  entry_date : date;
  task_name : string;
  allocated_hours : float64
}.

(** The pair appended to [self.schedule]. *)
Definition schedule_line (e : ScheduleEntry) : string * string :=
  (strftime (entry_date e),
   task_name e ++ ": " ++ format_2f (allocated_hours e) ++ "h").

(** How a loop ends. *)
Inductive loop_end : Type :=
| Finished
| Raised (e : exn)
| OutOfFuel.

(** [total_days] of a task, lines 191-193. *)
Definition total_days (today : date) (task : Task) : Z :=
  let total_days := days_between (dt_date (due_date task)) today + 1 in
  if total_days <=? 0 then 1 else total_days.

(** [daily_allocation], line 194.  [total_days] is an [int] of at most 22
    bits, so its conversion to [float] is exact. *)
Definition daily_allocation (today : date) (task : Task) : float64 :=
  div (remaining_hours task) (lit (total_days today task) 0).

(** The [while] loop of lines 197-200, run for at most [fuel] tests of
    its condition. *)
Fixpoint while_current_date (fuel : nat) (task : Task)
    (daily_allocation daily_hours : float64)
    (current_date : date) (schedule : list ScheduleEntry)
    : list ScheduleEntry * loop_end :=
  match fuel with
  | O => (schedule, OutOfFuel)
  | S fuel' =>
      if current_date <=? dt_date (due_date task) then
        let hours_today := py_min daily_allocation daily_hours in
        let schedule :=
          (schedule ++ [mkEntry current_date (name task) hours_today])%list in
        match add_days current_date 1 with
        | Some current_date' =>
            while_current_date fuel' task daily_allocation daily_hours
              current_date' schedule
        | None => (schedule, Raised OverflowError)
        end
      else (schedule, Finished)
  end.

(** Enough fuel for the loop of a task: one test per day of its window
    and the final one. *)
Definition window_fuel (today : date) (task : Task) : nat :=
  S (Z.to_nat (dt_date (due_date task) - today + 1)).

(** The body of the [for] loop, lines 191-200, for one task. *)
Definition schedule_task (today : date) (daily_hours : float64) (task : Task)
    (schedule : list ScheduleEntry) : list ScheduleEntry * loop_end :=
  while_current_date (window_fuel today task) task
    (daily_allocation today task) daily_hours today schedule.

(** The [for] loop of lines 190-200 over the sorted tasks. *)
Fixpoint for_tasks (today : date) (daily_hours : float64) (tasks_sorted : list Task)
    (schedule : list ScheduleEntry) : list ScheduleEntry * loop_end :=
  match tasks_sorted with
  | [] => (schedule, Finished)
  | task :: rest =>
      match schedule_task today daily_hours task schedule with
      | (schedule, Finished) => for_tasks today daily_hours rest schedule
      | stopped => stopped
      end
  end.

(** *** [sorted(xs, key=...)]

    The builtin is a stable sort that compares keys with [<] only; the
    stable sorted arrangement of a list is unique, so insertion from the
    right computes the same list as CPython's merge sort. *)
Section Sorted.
Context {A K : Type}.
Variable key : A -> K.
Variable lt : K -> K -> bool.

Fixpoint insert_sorted (x : A) (l : list A) : list A :=
  match l with
  | [] => [x]
  | y :: l' =>
      if lt (key y) (key x) then y :: insert_sorted x l' else x :: y :: l'
  end.

Definition sorted (l : list A) : list A := fold_right insert_sorted [] l.
End Sorted.

(** Line 187. *)
Definition tasks_sorted (tasks : list Task) : list Task :=
  sorted due_date dt_ltb tasks.

(** The scheduler of lines 184-200: the entries of a fresh schedule. *)
Definition generate (tasks : list Task) (daily_hours : float64) (today : date)
    : list ScheduleEntry * loop_end :=
  for_tasks today daily_hours (tasks_sorted tasks) [].

(** *** Display, lines 203-215 *)

(** [grouped.setdefault(date_str, []).append(desc)] on a [dict], kept in
    insertion order. *)
Fixpoint setdefault_append (grouped : list (string * list string))
    (date_str desc : string) : list (string * list string) :=
  match grouped with
  | [] => [(date_str, [desc])]
  | (k, v) :: rest =>
      if String.eqb k date_str then (k, (v ++ [desc])%list) :: rest
      else (k, v) :: setdefault_append rest date_str desc
  end.

(** Lines 208-210. *)
Definition group_by_date (schedule : list (string * string))
    : list (string * list string) :=
  fold_left (fun grouped e => setdefault_append grouped (fst e) (snd e))
    schedule [].

(** [grouped[date_str]]. *)
Fixpoint lookup (grouped : list (string * list string)) (date_str : string)
    : list string :=
  match grouped with
  | [] => []
  | (k, v) :: rest => if String.eqb k date_str then v else lookup rest date_str
  end.

(** [sorted(grouped.keys())]: strings compare by code point. *)
Definition sorted_keys (grouped : list (string * list string)) : list string :=
  sorted (fun k => k) String.ltb (map fst grouped).

(** The date groups in display order, lines 211-214. *)
Definition display_groups (schedule : list (string * string))
    : list (string * list string) :=
  let grouped := group_by_date schedule in
  map (fun date_str => (date_str, lookup grouped date_str)) (sorted_keys grouped).

Definition newline : string := String (ascii_of_N 10) EmptyString.

(** The text inserted for one group, lines 212-215. *)
Definition group_text (g : string * list string) : string :=
  fst g ++ ":" ++ newline
  ++ String.concat "" (map (fun d => "  - " ++ d ++ newline) (snd g))
  ++ newline.

(** The content of [schedule_text] after lines 203-215. *)
Definition schedule_display (schedule : list (string * string)) : string :=
  match schedule with
  | [] => "没有安排。"
  | _ => String.concat "" (map group_text (display_groups schedule))
  end.


(* ================================================================== *)
(** ** class AiStudyApp: state                                          *)
(* ================================================================== *)

(** The attributes of the application object, lines 75-80, and the
    content of the widgets it writes. *)
Record App : Type := mkApp {
  tasks : list Task;
  daily_hours : option float64;
  schedule : list (string * string);
  focus_thread : option nat;          (* index of the thread object *)
  timer_running : bool;
  points : Z;
  task_name_var : string;
  task_hours_var : string;
  task_due_var : string;
  task_listbox : list string;
  schedule_text : string;
  points_label : string;
  timer_label : string
}.

(** [AiStudyApp.__init__]. *)
Definition App_init : App :=
  {| tasks := []; daily_hours := None; schedule := []; focus_thread := None;
     timer_running := false; points := 0;
     task_name_var := ""; task_hours_var := ""; task_due_var := "";
     task_listbox := []; schedule_text := "";
     points_label := "积分: 0"; timer_label := "" |}.

Definition set_daily_hours (v : option float64) (a : App) : App :=
  mkApp (tasks a) v (schedule a) (focus_thread a) (timer_running a) (points a)
    (task_name_var a) (task_hours_var a) (task_due_var a) (task_listbox a)
    (schedule_text a) (points_label a) (timer_label a).

Definition set_schedule (v : list (string * string)) (a : App) : App :=
  mkApp (tasks a) (daily_hours a) v (focus_thread a) (timer_running a) (points a)
    (task_name_var a) (task_hours_var a) (task_due_var a) (task_listbox a)
    (schedule_text a) (points_label a) (timer_label a).

Definition set_focus_thread (v : option nat) (a : App) : App :=
  mkApp (tasks a) (daily_hours a) (schedule a) v (timer_running a) (points a)
    (task_name_var a) (task_hours_var a) (task_due_var a) (task_listbox a)
    (schedule_text a) (points_label a) (timer_label a).

Definition set_timer_running (v : bool) (a : App) : App :=
  mkApp (tasks a) (daily_hours a) (schedule a) (focus_thread a) v (points a)
    (task_name_var a) (task_hours_var a) (task_due_var a) (task_listbox a)
    (schedule_text a) (points_label a) (timer_label a).

Definition set_points (v : Z) (a : App) : App :=
  mkApp (tasks a) (daily_hours a) (schedule a) (focus_thread a) (timer_running a) v
    (task_name_var a) (task_hours_var a) (task_due_var a) (task_listbox a)
    (schedule_text a) (points_label a) (timer_label a).

Definition set_entry_vars (n h d : string) (a : App) : App :=
  mkApp (tasks a) (daily_hours a) (schedule a) (focus_thread a) (timer_running a)
    (points a) n h d (task_listbox a)
    (schedule_text a) (points_label a) (timer_label a).

Definition set_schedule_text (v : string) (a : App) : App :=
  mkApp (tasks a) (daily_hours a) (schedule a) (focus_thread a) (timer_running a)
    (points a) (task_name_var a) (task_hours_var a) (task_due_var a)
    (task_listbox a) v (points_label a) (timer_label a).

Definition set_points_label (v : string) (a : App) : App :=
  mkApp (tasks a) (daily_hours a) (schedule a) (focus_thread a) (timer_running a)
    (points a) (task_name_var a) (task_hours_var a) (task_due_var a)
    (task_listbox a) (schedule_text a) v (timer_label a).

Definition set_timer_label (v : string) (a : App) : App :=
  mkApp (tasks a) (daily_hours a) (schedule a) (focus_thread a) (timer_running a)
    (points a) (task_name_var a) (task_hours_var a) (task_due_var a)
    (task_listbox a) (schedule_text a) (points_label a) v.

(** [self.tasks.append(task)] followed by [self.task_listbox.insert(tk.END, line)]. *)
Definition append_task (t : Task) (line : string) (a : App) : App :=
  mkApp (tasks a ++ [t])%list (daily_hours a) (schedule a) (focus_thread a)
    (timer_running a) (points a)
    (task_name_var a) (task_hours_var a) (task_due_var a)
    (task_listbox a ++ [line])%list
    (schedule_text a) (points_label a) (timer_label a).

(* ================================================================== *)
(** ** AiStudyApp.add_task and AiStudyApp.generate_schedule             *)
(* ================================================================== *)

Section Methods.
Context {B : Builtins}.

(** The line shown in the task list, line 157. *)
Definition listbox_line (task : Task) : string :=
  name task ++ " - " ++ float_str (hours task) ++ "小时 - 截止: "
  ++ strftime (dt_date (due_date task)).

(** [add_task], lines 135-161. *)
Definition add_task (app : App) : App * outcome :=
  let name := str_strip (task_name_var app) in
  let hours_str := str_strip (task_hours_var app) in
  let due_str := str_strip (task_due_var app) in
  if String.eqb name "" || String.eqb hours_str "" || String.eqb due_str "" then
    (app, returned [showwarning "输入不完整" "请填写所有字段。"])
  else
    match float_of_str hours_str with
    | None => (app, returned [showwarning "格式错误" "预估小时数必须为数字。"])
    | Some hours =>
        match strptime_ymd due_str with
        | None =>
            (app, returned [showwarning "日期错误" "截止日期格式应为 YYYY-MM-DD。"])
        | Some due_date =>
            let task := Task_init name hours due_date in
            (set_entry_vars "" "" "" (append_task task (listbox_line task) app),
             returned [])
        end
    end.

(** [generate_schedule], lines 163-215.  [today] is the value of
    [datetime.today().date()] and [answer] what [simpledialog.askstring]
    returns should the method open it. *)
Definition generate_schedule (today : date) (answer : option string)
    (app : App) : App * outcome :=
  match tasks app with
  | [] => (app, returned [showinfo "提示" "请先添加任务。"])
  | _ =>
      let asked :=
        match daily_hours app with
        | Some h => inl h
        | None =>
            match answer with
            | None => inr (app, returned [])
            | Some answer =>
                match float_of_str answer with
                | Some h =>
                    if leb h zero then
                      inr (set_daily_hours None app,
                           returned [showerror "输入错误" "请输入有效的小时数。"])
                    else inl h
                | None =>
                    inr (set_daily_hours None app,
                         returned [showerror "输入错误" "请输入有效的小时数。"])
                end
            end
        end in
      match asked with
      | inr stop => stop
      | inl h =>
          let app := set_daily_hours (Some h) app in
          let '(entries, ended) := generate (tasks app) h today in
          let app := set_schedule (map schedule_line entries) app in
          match ended with
          | Finished =>
              (set_schedule_text (schedule_display (schedule app)) app,
               returned [])
          | Raised e => (app, mkOutcome [] (Some e))
          | OutOfFuel => (app, returned [])
          end
      end
  end.

End Methods.

(* ================================================================== *)
(** ** The focus timer                                                  *)
(* ================================================================== *)

(** Where a thread running [_countdown] stands, with its local variables.
    Each constructor is one step of the method: a step reads the clock at
    most once and touches the application object at one program point. *)
Inductive pc : Type :=
| AtStart (seconds : Z)          (* lines 219-220 *)
| AtLoopTest (end_time : float64)    (* line 221 *)
| AtBody (end_time : float64)        (* lines 222-226 *)
| AtFinalTest                        (* line 227 *)
| AtComplete                         (* line 229 *)
| AtAwardLoad                        (* line 230, reading [self.points] *)
| AtAwardStore (loaded : Z)          (* line 230, writing [self.points] *)
| AtPointsLabel                      (* line 231 *)
| AtReset                            (* line 233 *)
| Done                               (* returned *)
| Crashed (e : exn).                 (* ended by an exception *)

(** The countdown text of lines 222-224. *)
Definition time_str (remaining : Z) : string :=
  let mins := remaining / 60 in
  let secs := remaining mod 60 in
  "剩余: " ++ format_02d mins ++ ":" ++ format_02d secs.

(** One step of [_countdown], lines 217-233; [now] is what [time.time()]
    returns if the step calls it. *)
Definition countdown_step (now : float64) (app : App) (at_pc : pc) : App * pc :=
  match at_pc with
  | AtStart seconds =>
      match of_int seconds with
      | Some s => (app, AtLoopTest (add now s))
      | None => (app, Crashed OverflowError)
      end
  | AtLoopTest end_time =>
      if timer_running app && ltb now end_time
      then (app, AtBody end_time)
      else (app, AtFinalTest)
  | AtBody end_time =>
      match to_int (sub end_time now) with
      | Some remaining =>
          (set_timer_label (time_str remaining) app, AtLoopTest end_time)
      | None =>
          (app, Crashed (if is_nan (sub end_time now) then ValueError
                         else OverflowError))
      end
  | AtFinalTest =>
      if timer_running app then (app, AtComplete) else (app, AtReset)
  | AtComplete => (set_timer_label "专注完成！" app, AtAwardLoad)
  | AtAwardLoad => (app, AtAwardStore (points app))
  | AtAwardStore loaded => (set_points (loaded + 10) app, AtPointsLabel)
  | AtPointsLabel =>
      (set_points_label ("积分: " ++ format_d (points app)) app, AtReset)
  | AtReset => (set_timer_running false app, Done)
  | Done => (app, Done)
  | Crashed e => (app, Crashed e)
  end.

(** A thread running alone: one step per clock reading. *)
Fixpoint countdown_run (nows : list float64) (app : App) (at_pc : pc) : App * pc :=
  match nows with
  | [] => (app, at_pc)
  | now :: nows' =>
      let '(app', pc') := countdown_step now app at_pc in
      countdown_run nows' app' pc'
  end.

(** The process: the application object and the threads created so far. *)
Record World : Type := mkWorld {
  app : App;
  threads : list pc
}.

Definition World_init : World := mkWorld App_init [].

Section Focus.
Context {B : Builtins}.

(** [start_focus_session], lines 235-256; [answer] is what
    [simpledialog.askstring] returns should the method open it. *)
Definition start_focus_session (answer : option string) (w : World)
    : World * outcome :=
  if timer_running (app w) then
    (w, returned [showinfo "提示" "已经在专注学习中。"])
  else
    match answer with
    | None => (w, returned [])
    | Some answer =>
        match int_of_str answer with
        | Some minutes =>
            if minutes <=? 0 then
              (w, returned [showerror "输入错误" "请输入有效的分钟数。"])
            else
              let seconds := minutes * 60 in
              let app := set_timer_running true (app w) in
              let app := set_focus_thread (Some (List.length (threads w))) app in
              (mkWorld app (threads w ++ [AtStart seconds])%list, returned [])
        | None =>
            (w, returned [showerror "输入错误" "请输入有效的分钟数。"])
        end
    end.

(** What can happen next in the process: the user edits the entry
    fields or presses a button, or a countdown thread takes a step. *)
Inductive event : Type :=
| UserTypes (name hours due : string)
| ClickAdd
| ClickGenerate (today : date) (answer : option string)
| ClickFocus (answer : option string)
| ThreadStep (i : nat) (now : float64).

(** Replacing the [i]-th thread. *)
Fixpoint set_nth (i : nat) (p : pc) (l : list pc) : list pc :=
  match l, i with
  | [], _ => []
  | _ :: l', O => p :: l'
  | q :: l', S i' => q :: set_nth i' p l'
  end.

Definition step (w : World) (e : event) : World :=
  match e with
  | UserTypes n h d => mkWorld (set_entry_vars n h d (app w)) (threads w)
  | ClickAdd => mkWorld (fst (add_task (app w))) (threads w)
  | ClickGenerate today answer =>
      mkWorld (fst (generate_schedule today answer (app w))) (threads w)
  | ClickFocus answer => fst (start_focus_session answer w)
  | ThreadStep i now =>
      match nth_error (threads w) i with
      | Some p =>
          let '(app', p') := countdown_step now (app w) p in
          mkWorld app' (set_nth i p' (threads w))
      | None => w
      end
  end.

Definition run (w : World) (es : list event) : World := fold_left step es w.

(** The states the process can be in. *)
Inductive reachable : World -> Prop :=
| reachable_init : reachable World_init
| reachable_step w e : reachable w -> reachable (step w e).

(** The points the [i]-th thread has added to [self.points] along a run. *)
Fixpoint points_added_by (i : nat) (w : World) (es : list event) : Z :=
  match es with
  | [] => 0
  | e :: es' =>
      (match e with
       | ThreadStep j _ =>
           if Nat.eqb i j then points (app (step w e)) - points (app w) else 0
       | _ => 0
       end) + points_added_by i (step w e) es'
  end.

End Focus.

(* ================================================================== *)
(** ** An executable instance of the library functions                  *)
(* ================================================================== *)

(** The library functions on ASCII text, to run the model on concrete
    inputs. *)
Module Reference.

Definition is_space (c : ascii) : bool :=
  let n := N_of_ascii c in
  (((9 <=? n) && (n <=? 13)) || ((28 <=? n) && (n <=? 32)))%N.

Fixpoint lstrip (s : string) : string :=
  match s with
  | String c s' => if is_space c then lstrip s' else s
  | EmptyString => s
  end.

Fixpoint rev_onto (s acc : string) : string :=
  match s with
  | String c s' => rev_onto s' (String c acc)
  | EmptyString => acc
  end.

Definition strip (s : string) : string :=
  rev_onto (lstrip (rev_onto (lstrip s) "")) "".

Definition digit_val (c : ascii) : option Z :=
  let n := N_of_ascii c in
  if ((48 <=? n) && (n <=? 57))%N then Some (Z.of_N n - 48) else None.

(** The longest prefix of digits: its value on top of [acc], its
    length on top of [count], and the rest of the text. *)
Fixpoint take_digits (s : string) (acc count : Z) : Z * Z * string :=
  match s with
  | String c s' =>
      match digit_val c with
      | Some d => take_digits s' (acc * 10 + d) (count + 1)
      | None => (acc, count, s)
      end
  | EmptyString => (acc, count, s)
  end.

Definition is_digit (c : ascii) : bool :=
  match digit_val c with Some _ => true | None => false end.

(** Underscores in numeric literals (PEP 515): each stands between two
    digits.  The text without them; [None] when one is misplaced. *)
Fixpoint drop_underscores (after_digit : bool) (s : string) : option string :=
  match s with
  | EmptyString => Some EmptyString
  | String c s' =>
      if Ascii.eqb c "_" then
        if after_digit
           && match s' with String c' _ => is_digit c' | EmptyString => false end
        then drop_underscores false s'
        else None
      else option_map (String c) (drop_underscores (is_digit c) s')
  end.

(** An optional sign: [true] for [-]. *)
Definition take_sign (s : string) : bool * string :=
  match s with
  | String "-" s' => (true, s')
  | String "+" s' => (false, s')
  | _ => (false, s)
  end.

(** [int(s)] for a decimal literal; more than 4300 digits are refused
    (the default of [sys.set_int_max_str_digits]). *)
Definition parse_int (s : string) : option Z :=
  match drop_underscores false (strip s) with
  | None => None
  | Some s0 =>
      let '(neg, s1) := take_sign s0 in
      let '(v, count, rest) := take_digits s1 0 0 in
      if (0 <? count) && (count <=? 4300) && String.eqb rest ""
      then Some (if neg then - v else v)
      else None
  end.

Definition lower (c : ascii) : ascii :=
  let n := N_of_ascii c in
  if ((65 <=? n) && (n <=? 90))%N then ascii_of_N (n + 32) else c.

Fixpoint lowercase (s : string) : string :=
  match s with
  | String c s' => String (lower c) (lowercase s')
  | EmptyString => s
  end.

(** [n * 10^e10], correctly rounded to binary64. *)
Definition decimal_to_float (neg : bool) (n e10 : Z) : float64 :=
  match n with
  | Zpos p =>
      match e10 with
      | Zneg k =>
          let '(q, e, l) := SFdiv_core_binary prec emax (Zpos p) 0 (10 ^ Zpos k) 0 in
          binary_round_aux prec emax neg q e l
      | _ => binary_normalize prec emax (if neg then - (n * 10 ^ e10) else n * 10 ^ e10) 0 neg
      end
  | _ => S754_zero neg
  end.

(** [float(s)] for a decimal literal with optional fraction and
    exponent, [inf], [infinity] and [nan]. *)
Definition parse_float (s : string) : option float64 :=
  match drop_underscores false (strip s) with
  | None => None
  | Some s0 =>
  let '(neg, s1) := take_sign s0 in
  let word := lowercase s1 in
  if String.eqb word "inf" || String.eqb word "infinity" then Some (S754_infinity neg)
  else if String.eqb word "nan" then Some S754_nan
  else
    let '(i, ni, s2) := take_digits s1 0 0 in
    let '(n, nf, s3) :=
      match s2 with
      | String "." s2' => take_digits s2' i 0
      | _ => (i, 0, s2)
      end in
    if ni + nf =? 0 then None
    else
      match s3 with
      | EmptyString => Some (decimal_to_float neg n (- nf))
      | String c s4 =>
          if Ascii.eqb (lower c) "e" then
            let '(eneg, s5) := take_sign s4 in
            let '(ex, ne, rest) := take_digits s5 0 0 in
            if (0 <? ne) && String.eqb rest "" then
              Some (decimal_to_float neg n ((if eneg then - ex else ex) - nf))
            else None
          else None
      end
  end.

(** One or two digits forming a number of [%m] or [%d]: no [0], [00]. *)
Definition take_field (allow_space : bool) (s : string) : option (Z * string) :=
  let s :=
    match s with
    | String " " (String c s') =>
        if allow_space
           && match digit_val c with Some d => 1 <=? d | None => false end
           && match s' with
              | String c' _ => match digit_val c' with Some _ => false | None => true end
              | EmptyString => true
              end
        then String c s' else s
    | _ => s
    end in
  let '(v, count, rest) := take_digits s 0 0 in
  if (1 <=? count) && (count <=? 2) && (1 <=? v) then Some (v, rest) else None.

(** [datetime.strptime(s, "%Y-%m-%d")]. *)
Definition parse_date (s : string) : option datetime :=
  match s with
  | String y1 (String y2 (String y3 (String y4 (String "-" s1)))) =>
      match digit_val y1, digit_val y2, digit_val y3, digit_val y4 with
      | Some a, Some b, Some c, Some d =>
          let y := a * 1000 + b * 100 + c * 10 + d in
          match take_field false s1 with
          | Some (m, String "-" s2) =>
              match take_field true s2 with
              | Some (dd, EmptyString) =>
                  match of_ymd y m dd with
                  | Some date => Some (midnight date)
                  | None => None
                  end
              | _ => None
              end
          | _ => None
          end
      | _, _, _, _ => None
      end
  | _ => None
  end.

(** *** [repr] of a float: the shortest decimal that reads back as it *)

Definition float_eqb (x y : float64) : bool :=
  match x, y with
  | S754_zero a, S754_zero b => Bool.eqb a b
  | S754_infinity a, S754_infinity b => Bool.eqb a b
  | S754_nan, S754_nan => true
  | S754_finite a m e, S754_finite b m' e' =>
      Bool.eqb a b && Pos.eqb m m' && (e =? e')
  | _, _ => false
  end.

(** [num / den < 10^p]. *)
Definition below_pow10 (num den p : Z) : bool :=
  if 0 <=? p then num <? 10 ^ p * den else num * 10 ^ (- p) <? den.

(** The least [p] from [p0] on with [num / den < 10^p]. *)
Fixpoint find_decpt (fuel : nat) (num den p0 : Z) : Z :=
  match fuel with
  | O => p0
  | S fuel' =>
      if below_pow10 num den p0 then p0 else find_decpt fuel' num den (p0 + 1)
  end.

(** The nearest decimal of [k] digits that reads back as [x], if any:
    its digits as a number and the power of ten they are scaled by. *)
Definition digits_at (x : float64) (num den p k : Z) : option (Z * Z) :=
  let e10 := p - k in
  let a := if 0 <=? e10 then num else num * 10 ^ (- e10) in
  let b := if 0 <=? e10 then den * 10 ^ e10 else den in
  let lo := a / b in
  let r := a mod b in
  let ok n := float_eqb (decimal_to_float false n e10) x in
  if r =? 0 then (if ok lo then Some (lo, e10) else None)
  else
    match ok lo, ok (lo + 1) with
    | true, true =>
        match 2 * r ?= b with
        | Lt => Some (lo, e10)
        | Gt => Some (lo + 1, e10)
        | Eq => Some (if Z.even lo then lo else lo + 1, e10)
        end
    | true, false => Some (lo, e10)
    | false, true => Some (lo + 1, e10)
    | false, false => None
    end.

Fixpoint shortest_from (fuel : nat) (x : float64) (num den p k : Z) : Z * Z :=
  match fuel with
  | O => (0, 0)
  | S fuel' =>
      match digits_at x num den p k with
      | Some r => r
      | None => shortest_from fuel' x num den p (k + 1)
      end
  end.

Fixpoint drop_zeros (fuel : nat) (n e10 : Z) : Z * Z :=
  match fuel with
  | O => (n, e10)
  | S fuel' =>
      if (n mod 10 =? 0) && negb (n =? 0) then drop_zeros fuel' (n / 10) (e10 + 1)
      else (n, e10)
  end.

Fixpoint zeros (n : nat) : string :=
  match n with O => "" | S n' => "0" ++ zeros n' end.

(** The text of [digits * 10^e10] in the layout of [repr]. *)
Definition layout (digits : string) (e10 : Z) : string :=
  let nd := Z.of_nat (String.length digits) in
  let decpt := nd + e10 in
  if (decpt <=? -4) || (16 <? decpt) then
    let ex := decpt - 1 in
    let mant :=
      match digits with
      | String c EmptyString => digits
      | String c rest => String c ("." ++ rest)
      | EmptyString => digits
      end in
    mant ++ "e" ++ (if ex <? 0 then "-" else "+") ++ format_02d (Z.abs ex)
  else if decpt <=? 0 then "0." ++ zeros (Z.to_nat (- decpt)) ++ digits
  else if nd <=? decpt then digits ++ zeros (Z.to_nat (decpt - nd)) ++ ".0"
  else
    substring 0 (Z.to_nat decpt) digits ++ "."
    ++ substring (Z.to_nat decpt) (Z.to_nat (nd - decpt)) digits.

(** [repr(x)], which [str(x)] and [f"{x}"] return. *)
Definition float_repr (x : float64) : string :=
  match x with
  | S754_nan => "nan"
  | S754_infinity s => if s then "-inf" else "inf"
  | S754_zero s => if s then "-0.0" else "0.0"
  | S754_finite s m e =>
      let num := match e with Zneg _ => Zpos m | _ => Zpos m * 2 ^ e end in
      let den := match e with Zneg p => 2 ^ Zpos p | _ => 1 end in
      let p := find_decpt 700 num den (-330) in
      let '(n, e10) := shortest_from 17 (S754_finite false m e) num den p 1 in
      let '(n, e10) := drop_zeros 17 n e10 in
      (if s then "-" else "") ++ layout (format_d n) e10
  end.

Definition builtins : Builtins := {|
  str_strip := strip;
  float_of_str := parse_float;
  int_of_str := parse_int;
  strptime_ymd := parse_date;
  float_str := float_repr
|}.

End Reference.


(* ================================================================== *)
(** ** Vocabulary of the specification                                  *)
(* ================================================================== *)

(** The dates [first], [first + 1], ..., [last]. *)
Definition date_range (first last : date) : list date :=
  map (fun i => first + Z.of_nat i) (seq 0 (Z.to_nat (last - first + 1))).

(** The scheduling window of a task: every date from [today] to its due
    date. *)
Definition window (today : date) (task : Task) : list date :=
  date_range today (dt_date (due_date task)).

(** One entry per day of the window, each of [hours]. *)
Definition even_block (today : date) (task : Task) (hours : float64)
    : list ScheduleEntry :=
  map (fun d => mkEntry d (name task) hours) (window today task).

(** The entries the scheduler allocates to one task. *)
Definition task_block (today : date) (daily_hours : float64) (task : Task)
    : list ScheduleEntry :=
  even_block today task (py_min (daily_allocation today task) daily_hours).

(** The hours of some entries, added up as floats from left to right. *)
Definition total_hours (entries : list ScheduleEntry) : float64 :=
  fold_left add (map allocated_hours entries) zero.

(** The entries of a date. *)
Definition entries_on (d : date) (entries : list ScheduleEntry)
    : list ScheduleEntry :=
  filter (fun e => entry_date e =? d) entries.

(** The kinds of report of the specification's error taxonomy. *)
Inductive report : Type :=
| InvalidInput
| InvalidState
| Notice.

(** A warning or an error box reports invalid input; the information box
    of [start_focus_session] reports an invalid state. *)
Definition classify (d : dialog) : report :=
  match d with
  | showwarning _ _ => InvalidInput
  | showerror _ _ => InvalidInput
  | showinfo _ message =>
      if String.eqb message "已经在专注学习中。" then InvalidState else Notice
  end.

(** A call that ends by reporting [r] and nothing else. *)
Definition fails_with (r : report) (o : outcome) : Prop :=
  raised o = None /\ exists d, shown o = [d] /\ classify d = r.

(** The loop of a task ends in [OverflowError] when the task is due on
    the last representable date: stepping past it is out of range. *)
Definition overflows (today : date) (task : Task) : bool :=
  (today <=? dt_date (due_date task)) && (dt_date (due_date task) =? MAXORDINAL).

(** The tasks whose loop is entered: all of them, up to the first that
    overflows. *)
Fixpoint processed (today : date) (tasks_sorted : list Task) : list Task :=
  match tasks_sorted with
  | [] => []
  | t :: rest => if overflows today t then [t] else t :: processed today rest
  end.

(** [a] may stand before [b] in a list sorted by [key]: the key of [b] is
    not below that of [a]. *)
Definition in_order {A K : Type} (key : A -> K) (lt : K -> K -> bool)
    (a b : A) : Prop :=
  lt (key b) (key a) = false.

(** Calendar order of year, month and day. *)
Definition ymd_lt (a b : Z * Z * Z) : Prop :=
  let '(y1, m1, d1) := a in
  let '(y2, m2, d2) := b in
  y1 < y2 \/ (y1 = y2 /\ (m1 < m2 \/ (m1 = m2 /\ d1 < d2))).

(** The distinct dates of some entries, in ascending order. *)
Definition dates_of (entries : list ScheduleEntry) : list date :=
  sorted (fun d => d) Z.ltb (nodup Z.eq_dec (map entry_date entries)).

(** The text of an entry within its date group. *)
Definition entry_desc (e : ScheduleEntry) : string := snd (schedule_line e).

(** The lines of [self.schedule] under the date text [k]. *)
Definition lines_of (k : string) (schedule : list (string * string)) : list string :=
  map snd (filter (fun e => String.eqb (fst e) k) schedule).

(** *** The scenarios of the specification *)

Definition jan (day : Z) : date := ymd2ord 2024 1 day.

(** The task [("Essay", 6.0, 2024-01-04)]. *)
Definition essay : Task := Task_init "Essay" (lit 6 0) (midnight (jan 4)).

(** A second task, due on 2024-01-02. *)
Definition math : Task := Task_init "Math" (lit 3 0) (midnight (jan 2)).

(** The same hours on each of the four days from 2024-01-01. *)
Definition four_days (task_name : string) (hours : float64) : list ScheduleEntry :=
  [mkEntry (jan 1) task_name hours; mkEntry (jan 2) task_name hours;
   mkEntry (jan 3) task_name hours; mkEntry (jan 4) task_name hours].

(** *** Focus sessions *)

(** The application object after a countdown that ran to its end:
    the completion message, ten more points, the label of the points,
    and the flag reset. *)
Definition completed (a : App) : App :=
  set_timer_running false
    (set_points_label ("积分: " ++ format_d (points a + 10))
       (set_points (points a + 10)
          (set_timer_label "专注完成！" a))).

(** The clock readings of a countdown that ticks once per pair: the
    reading of the loop test, then that of the loop body. *)
Definition tick_readings (ticks : list (float64 * float64)) : list float64 :=
  flat_map (fun t => [fst t; snd t]) ticks.

(** A tick at which the loop goes on: the test reads a time before
    [end_time] and the remaining time converts to an [int]. *)
Definition ticks_on (end_time : float64) (t : float64 * float64) : Prop :=
  ltb (fst t) end_time = true /\ exists r, to_int (sub end_time (snd t)) = Some r.

(** Threads that have added their ten points. *)
Definition paid (p : pc) : bool :=
  match p with
  | AtPointsLabel | AtReset | Done => true
  | _ => false
  end.

Definition all_done (l : list pc) : Prop := Forall (fun p => p = Done) l.

(** The states of the process as the application's own code shapes
    them: the flag is set exactly while one thread, the latest, has not
    returned, and every thread past line 230 has added its ten points. *)
Inductive consistent : World -> Prop :=
| consistent_idle a dones :
    all_done dones ->
    timer_running a = false ->
    points a = 10 * Z.of_nat (List.length dones) ->
    consistent (mkWorld a dones)
| consistent_busy a dones p :
    all_done dones ->
    timer_running a = true ->
    p <> Done ->
    points a = 10 * Z.of_nat (List.length dones) + (if paid p then 10 else 0) ->
    (forall loaded, p = AtAwardStore loaded -> loaded = points a) ->
    consistent (mkWorld a (dones ++ [p])%list).

(** A process whose last thread died by an exception with the flag set. *)
Definition stuck (w : World) : Prop :=
  exists dones e,
    threads w = (dones ++ [Crashed e])%list
    /\ all_done dones
    /\ timer_running (app w) = true.

(** Ten for a thread that has added its points, zero otherwise. *)
Definition paid_points (threads : list pc) (i : nat) : Z :=
  match nth_error threads i with
  | Some p => if paid p then 10 else 0
  | None => 0
  end.

(** What an event adds to the points on behalf of the [i]-th thread. *)
Definition points_added_at {B : Builtins} (i : nat) (w : World) (e : event) : Z :=
  match e with
  | ThreadStep j _ =>
      if Nat.eqb i j then points (app (step w e)) - points (app w) else 0
  | _ => 0
  end.

(** *** Exact values of floats *)

(** The sum of the hours of some entries as a number, not rounded, in
    units of [2^-1074], the least positive float: every finite float is
    a whole number of them. *)
Definition exact_total (entries : list ScheduleEntry) : Z :=
  fold_right Z.add 0 (map (fun e => scaled 1074 (allocated_hours e)) entries).

(** [m] and the location [l] describe the quotient [A / D]: [m] is its
    integer part, and [l] places the rest at, below, on or above a
    half. *)
Definition located (A D m : Z) (l : location) : Prop :=
  m * D <= A < (m + 1) * D
  /\ match l with
     | loc_Exact => A = m * D
     | loc_Inexact Lt => m * D < A /\ 2 * (A - m * D) < D
     | loc_Inexact Eq => 2 * (A - m * D) = D
     | loc_Inexact Gt => D < 2 * (A - m * D)
     end.

(* ================================================================== *)
(** ** Further vocabulary                                               *)
(* ================================================================== *)

(** Floats whose sign bit is clear, NaN included. *)
Definition sign_clear (x : float64) : bool :=
  match x with
  | S754_zero s | S754_infinity s | S754_finite s _ _ => negb s
  | S754_nan => true
  end.

(** A task is overdue when its due date is before [today]. *)
Definition overdue (today : date) (task : Task) : Prop :=
  dt_date (due_date task) < today.

(** The window of a task contains the date [d]. *)
Definition covers (today d : date) (task : Task) : bool :=
  (today <=? d) && (d <=? dt_date (due_date task)).

(** The lines of the display, each paired with the date it stands
    under. *)
Definition ungroup (groups : list (string * list string)) : list (string * string) :=
  flat_map (fun g => map (pair (fst g)) (snd g)) groups.

(** The capacity that the dialog of lines 171-181 accepts, if any. *)
Definition accepted_capacity {B : Builtins} (answer : option string)
    : option float64 :=
  match answer with
  | Some s =>
      match float_of_str s with
      | Some h => if leb h zero then None else Some h
      | None => None
      end
  | None => None
  end.

(** The minutes that the dialog of lines 241-250 accepts, if any. *)
Definition accepted_minutes {B : Builtins} (answer : option string) : option Z :=
  match answer with
  | Some s =>
      match int_of_str s with
      | Some minutes => if minutes <=? 0 then None else Some minutes
      | None => None
      end
  | None => None
  end.

(** What the planning side of the application holds, and what its
    timer side holds. *)
Definition plan (a : App) :=
  (tasks a, task_listbox a, daily_hours a, schedule a, schedule_text a,
   (task_name_var a, task_hours_var a, task_due_var a)).

Definition timer_face (a : App) :=
  (timer_running a, points a, points_label a, timer_label a).

Definition is_thread_step (e : event) : bool :=
  match e with ThreadStep _ _ => true | _ => false end.

Definition is_planning (e : event) : bool :=
  match e with
  | UserTypes _ _ _ | ClickAdd | ClickGenerate _ _ => true
  | _ => false
  end.

(** The label of the points shows the points held. *)
Definition score_shown (a : App) : Prop :=
  points_label a = "积分: " ++ format_d (points a).

(** The thread started last, if any. *)
Definition latest (ths : list pc) : option pc := last (map Some ths) None.

(** What the two labels of the timer show, given where the latest
    thread stands. *)
Definition labels_agree (w : World) : Prop :=
  match latest (threads w) with
  | None => score_shown (app w) /\ timer_label (app w) = ""
  | Some p =>
      (p <> AtPointsLabel -> score_shown (app w))
      /\ match p with
         | AtAwardLoad | AtAwardStore _ | AtPointsLabel | AtReset | Done =>
             timer_label (app w) = "专注完成！"
         | _ => True
         end
  end.

(** A countdown thread that has not reached the end of its loop. *)
Definition in_loop (end_time : float64) (p : pc) : Prop :=
  p = AtLoopTest end_time \/ p = AtBody end_time \/ exists e, p = Crashed e.

(** Lines 184-215 of [generate_schedule]: what it does once it has the
    capacity [h]. *)
Definition generate_with (h : float64) (today : date) (a : App) : App * outcome :=
  let a := set_daily_hours (Some h) a in
  let '(entries, ended) := generate (tasks a) h today in
  let a := set_schedule (map schedule_line entries) a in
  match ended with
  | Finished => (set_schedule_text (schedule_display (schedule a)) a, returned [])
  | Raised e => (a, mkOutcome [] (Some e))
  | OutOfFuel => (a, returned [])
  end.
(* ================================================================== *)
(** * Properties                                                        *)
(* ================================================================== *)

(** ** Comparison of floats *)

Lemma SFcompare_swap (x y : float64) :
  SFcompare y x = option_map CompOpp (SFcompare x y).
Proof.
  destruct x as [sx|sx| |sx mx ex], y as [sy|sy| |sy my ey]; simpl;
    try reflexivity;
    try (destruct sx; reflexivity); try (destruct sy; reflexivity);
    try (destruct sx, sy; reflexivity).
  destruct sx, sy; try reflexivity; f_equal;
    rewrite (Z.compare_antisym ex ey);
    destruct (ex ?= ey) eqn:E; simpl; try reflexivity;
    change (Pos.compare_cont Eq my mx) with (Pos.compare_cont (CompOpp Eq) my mx);
    rewrite <- (Pos.compare_cont_antisym mx my Eq);
    destruct (Pos.compare_cont Eq mx my); reflexivity.
Qed.

Lemma ltb_irrefl (x : float64) : ltb x x = false.
Proof.
  unfold ltb, SFltb. pose proof (SFcompare_swap x x) as H.
  destruct (SFcompare x x) as [[]|]; simpl in H; congruence.
Qed.

Lemma leb_not_gt (x y : float64) : leb x y = true -> ltb y x = false.
Proof.
  unfold leb, ltb, SFleb, SFltb. rewrite (SFcompare_swap x y).
  destruct (SFcompare x y) as [[]|]; simpl; congruence.
Qed.

Lemma ltb_asym (x y : float64) : ltb x y = true -> ltb y x = false.
Proof.
  unfold ltb, SFltb. rewrite (SFcompare_swap x y).
  destruct (SFcompare x y) as [[]|]; simpl; congruence.
Qed.

(** [min(a, c)] is never above [c]. *)
Lemma py_min_not_above (a c : float64) : ltb c (py_min a c) = false.
Proof.
  unfold py_min. destruct (ltb c a) eqn:E; [apply ltb_irrefl | exact E].
Qed.

Lemma py_min_left (a c : float64) : leb a c = true -> py_min a c = a.
Proof. intros H. unfold py_min. now rewrite (leb_not_gt _ _ H). Qed.

Lemma py_min_right (a c : float64) : ltb c a = true -> py_min a c = c.
Proof. intros H. unfold py_min. now rewrite H. Qed.

(** [min(a, c)] is never above [a]. *)
Lemma py_min_not_above_left (a c : float64) : ltb a (py_min a c) = false.
Proof.
  unfold py_min. destruct (ltb c a) eqn:E; [now apply ltb_asym | apply ltb_irrefl].
Qed.
(** ** Rounding of a quotient *)

Lemma fexp_eq (e : Z) : fexp prec emax e = Z.max (e - 53) (-1074).
Proof. reflexivity. Qed.

Lemma digits2_pos_bounds (p : positive) :
  2 ^ (Zpos (digits2_pos p) - 1) <= Zpos p < 2 ^ Zpos (digits2_pos p).
Proof.
  induction p as [p IH | p IH |]; cbn [digits2_pos].
  - rewrite Pos2Z.inj_succ.
    replace (Z.succ (Zpos (digits2_pos p)) - 1) with (Z.succ (Zpos (digits2_pos p) - 1)) by lia.
    rewrite !Z.pow_succ_r by lia. lia.
  - rewrite Pos2Z.inj_succ.
    replace (Z.succ (Zpos (digits2_pos p)) - 1) with (Z.succ (Zpos (digits2_pos p) - 1)) by lia.
    rewrite !Z.pow_succ_r by lia. lia.
  - simpl. lia.
Qed.

Lemma Zdigits2_bounds (m : Z) :
  0 < m -> 2 ^ (Zdigits2 m - 1) <= m < 2 ^ Zdigits2 m /\ 0 < Zdigits2 m.
Proof.
  destruct m as [|p|p]; try lia. intros _. cbn [Zdigits2].
  split; [apply digits2_pos_bounds | lia].
Qed.

(** A number below [2^d] has at most [d] digits. *)
Lemma Zdigits2_le (m d : Z) : 0 <= m -> 0 <= d -> m < 2 ^ d -> Zdigits2 m <= d.
Proof.
  intros Hm Hd Hlt. destruct (Z.eq_dec m 0) as [->|Hne]; [simpl; lia|].
  destruct (Zdigits2_bounds m) as [[Hlo _] Hpos]; [lia|].
  destruct (Z.le_gt_cases (Zdigits2 m) d) as [|Hgt]; [assumption|].
  assert (2 ^ d <= 2 ^ (Zdigits2 m - 1)) by (apply Z.pow_le_mono_r; lia). lia.
Qed.

(** A number from [2^(d-1)] on has at least [d] digits. *)
Lemma Zdigits2_ge (m d : Z) : 2 ^ (d - 1) <= m -> 0 < d -> d <= Zdigits2 m.
Proof.
  intros Hlo Hd.
  assert (0 < m) by (pose proof (Z.pow_pos_nonneg 2 (d - 1)); lia).
  destruct (Zdigits2_bounds m) as [[_ Hhi] Hpos]; [lia|].
  destruct (Z.le_gt_cases d (Zdigits2 m)) as [|Hgt]; [assumption|].
  assert (2 ^ Zdigits2 m <= 2 ^ (d - 1)) by (apply Z.pow_le_mono_r; lia). lia.
Qed.

Lemma iter_pos_nat {A : Type} (f : A -> A) (p : positive) : forall x,
  iter_pos f p x = Nat.iter (Pos.to_nat p) f x.
Proof.
  induction p as [p IH | p IH |]; intros x; cbn [iter_pos].
  - rewrite !IH, Pos2Nat.inj_xI. cbn [Nat.iter].
    rewrite <- Nat.iter_succ_r. cbn [Nat.iter]. rewrite <- Nat.iter_add.
    f_equal. f_equal. lia.
  - rewrite !IH, Pos2Nat.inj_xO. rewrite <- Nat.iter_add. f_equal. lia.
  - reflexivity.
Qed.

Lemma loc_of_shr_record_of_loc (m : Z) (l : location) :
  loc_of_shr_record (shr_record_of_loc m l) = l
  /\ shr_m (shr_record_of_loc m l) = m.
Proof. destruct l as [|[]]; split; reflexivity. Qed.

(** One shift to the right halves the mantissa and keeps the location
    of the quotient, now over twice the divisor. *)
Lemma shr_1_located (A D : Z) (mrs : shr_record) :
  0 < D -> 0 <= shr_m mrs ->
  located A D (shr_m mrs) (loc_of_shr_record mrs) ->
  located A (2 * D) (shr_m (shr_1 mrs)) (loc_of_shr_record (shr_1 mrs))
  /\ shr_m (shr_1 mrs) = shr_m mrs / 2.
Proof.
  intros HD Hm. destruct mrs as [m r s]. cbn [shr_m] in *.
  unfold located.
  destruct m as [|[p|p|]|p]; try lia; cbn [shr_1 shr_m loc_of_shr_record];
    destruct r, s; cbn [orb loc_of_shr_record]; intros [Hb Hl];
    (split; [lia|]).
  all: try reflexivity.
  all: try (apply (Z.div_unique (Zpos p~1) 2 (Zpos p) 1); lia).
  all: try (apply (Z.div_unique (Zpos p~0) 2 (Zpos p) 0); lia).
Qed.

Lemma iter_shr_1_located (A D : Z) (mrs : shr_record) (n : nat) :
  0 < D -> 0 <= shr_m mrs ->
  located A D (shr_m mrs) (loc_of_shr_record mrs) ->
  located A (2 ^ Z.of_nat n * D) (shr_m (Nat.iter n shr_1 mrs))
          (loc_of_shr_record (Nat.iter n shr_1 mrs))
  /\ shr_m (Nat.iter n shr_1 mrs) = shr_m mrs / 2 ^ Z.of_nat n.
Proof.
  intros HD Hm Hl. induction n as [|n [IHl IHm]].
  - change (Nat.iter 0 shr_1 mrs) with mrs. change (2 ^ Z.of_nat 0) with 1.
    rewrite Z.mul_1_l, Z.div_1_r. auto.
  - rewrite Nat.iter_succ, Nat2Z.inj_succ, Z.pow_succ_r by lia.
    assert (Hp : 0 < 2 ^ Z.of_nat n) by (apply Z.pow_pos_nonneg; lia).
    destruct (shr_1_located A (2 ^ Z.of_nat n * D) (Nat.iter n shr_1 mrs))
      as [Hl' Hm']; [nia | | exact IHl |].
    + rewrite IHm. apply Z.div_pos; lia.
    + split.
      * now rewrite <- Z.mul_assoc.
      * rewrite Hm', IHm, Z.div_div by lia. f_equal. lia.
Qed.

(** [shr]: the mantissa shifted by [k] places when [k] is positive. *)
Lemma shr_located (A D m e k : Z) (l : location) (mrs : shr_record) (e' : Z) :
  0 < D -> 0 <= m -> located A D m l ->
  shr (shr_record_of_loc m l) e k = (mrs, e') ->
  e' = e + Z.max k 0
  /\ located A (2 ^ Z.max k 0 * D) (shr_m mrs) (loc_of_shr_record mrs)
  /\ shr_m mrs = m / 2 ^ Z.max k 0.
Proof.
  intros HD Hm Hl.
  destruct (loc_of_shr_record_of_loc m l) as [El Em].
  destruct k as [|p|p]; cbn [shr]; intros [= <- <-].
  - rewrite El, Em. cbn [Z.max Z.pow]. rewrite Z.mul_1_l, Z.div_1_r, Z.add_0_r. auto.
  - rewrite iter_pos_nat.
    destruct (iter_shr_1_located A D (shr_record_of_loc m l) (Pos.to_nat p))
      as [Hl' Hm']; rewrite ?El, ?Em; auto.
    rewrite positive_nat_Z in *. rewrite Em in Hm'.
    replace (Z.max (Z.pos p) 0) with (Z.pos p) by lia. auto.
  - rewrite El, Em. replace (Z.max (Z.neg p) 0) with 0 by lia.
    cbn [Z.pow]. rewrite Z.mul_1_l, Z.div_1_r, Z.add_0_r. auto.
Qed.

(** The location that the division computes for a remainder. *)
Lemma new_location_located (D q r : Z) :
  0 < D -> 0 <= r < D -> located (q * D + r) D q (new_location D r).
Proof.
  intros HD Hr. unfold located. split; [lia|].
  unfold new_location, new_location_even, new_location_odd.
  destruct (Z.even D) eqn:Ev.
  - destruct (Z.eqb_spec r 0); [lia|].
    destruct (Z.compare_spec (2 * r) D); lia.
  - destruct (Z.eqb_spec r 0); [lia|].
    assert (Hodd : Z.odd D = true) by (rewrite <- Z.negb_even, Ev; reflexivity).
    apply Z.odd_spec in Hodd as [t Ht].
    destruct (Z.compare_spec (2 * r + 1) D); lia.
Qed.

(** The core of the division: the quotient of the mantissas, shifted to
    have digits enough, with the place of its remainder. *)
Lemma SFdiv_core_binary_located (mx my : positive) (ex ey : Z) :
  let e' := Z.min (fexp prec emax (Zpos (digits2_pos mx) + ex
                                   - (Zpos (digits2_pos my) + ey)))
                  (ex - ey) in
  exists q l,
    SFdiv_core_binary prec emax (Zpos mx) ex (Zpos my) ey = (q, e', l)
    /\ 0 <= q
    /\ located (Zpos mx * 2 ^ (ex - ey - e')) (Zpos my) q l.
Proof.
  intros e'. unfold SFdiv_core_binary. cbn [Zdigits2]. fold e'.
  set (s := ex - ey - e').
  assert (Hs : 0 <= s) by (unfold s, e'; lia).
  set (m' := match s with Z.pos _ => Z.shiftl (Zpos mx) s | 0 => Zpos mx | Z.neg _ => 0 end).
  assert (Hm' : m' = Zpos mx * 2 ^ s).
  { unfold m'. destruct s; [simpl; lia | now rewrite Z.shiftl_mul_pow2 by lia | lia]. }
  pose proof (Z.div_eucl_eq m' (Zpos my)) as Hdiv.
  pose proof (Z.mod_pos_bound m' (Zpos my)) as Hmod.
  unfold Z.modulo in Hmod.
  destruct (Z.div_eucl m' (Zpos my)) as [q r].
  specialize (Hdiv ltac:(lia)). specialize (Hmod ltac:(lia)).
  exists q, (new_location (Zpos my) r).
  split; [reflexivity|].
  assert (Hq : 0 <= q).
  { assert (0 <= m') by (rewrite Hm'; pose proof (Z.pow_pos_nonneg 2 s); nia). nia. }
  split; [exact Hq|].
  rewrite <- Hm', Hdiv. rewrite (Z.mul_comm (Zpos my) q).
  apply new_location_located; lia.
Qed.

(** Rounding to nearest, ties to even: at most half a unit away, and
    not above any integer the quotient is not above. *)
Lemma round_nearest_even_located (A D m : Z) (l : location) :
  0 < D -> located A D m l ->
  2 * Z.abs (round_nearest_even m l * D - A) <= D
  /\ m <= round_nearest_even m l <= m + 1
  /\ (forall M, A <= M * D -> round_nearest_even m l <= M).
Proof.
  intros HD [Hb Hl].
  assert (Hm : forall M, A <= M * D -> m <= M) by (intros M HM; nia).
  assert (Hm1 : m * D < A -> forall M, A <= M * D -> m + 1 <= M)
    by (intros Hlt M HM; nia).
  unfold round_nearest_even. destruct l as [|[]].
  - subst A. split; [|split]; [lia | lia | exact Hm].
  - destruct (Z.even m); (split; [|split]); try lia; try exact Hm.
    apply Hm1. lia.
  - split; [|split]; [lia | lia | exact Hm].
  - split; [|split]; [lia | lia | apply Hm1; lia].
Qed.

Lemma fexp_ge_emin (e : Z) : -1074 <= fexp prec emax e.
Proof. rewrite fexp_eq. lia. Qed.

(** [binary_round_aux]: the quotient [A / D * 2^e], of integer part [q],
    rounded to the nearest float, ties to even.  The mantissa [m1] is
    the nearest integer to the quotient in units of [2^e1]. *)
Lemma binary_round_aux_located (sx : bool) (A D q e : Z) (l : location) :
  0 < D -> 0 <= q -> located A D q l ->
  let e1 := Z.max e (fexp prec emax (Zdigits2 q + e)) in
  let D1 := 2 ^ (e1 - e) * D in
  exists m1,
    0 <= m1 <= 2 ^ 53
    /\ 2 * Z.abs (m1 * D1 - A) <= D1
    /\ (forall M, A <= M * D1 -> m1 <= M)
    /\ q / 2 ^ (e1 - e) <= m1
    /\ binary_round_aux prec emax sx q e l =
         if m1 =? 0 then S754_zero sx
         else if m1 =? 2 ^ 53 then
           (if e1 + 1 <=? 971 then S754_finite sx (2 ^ 52) (e1 + 1)
            else S754_infinity sx)
         else
           (if e1 <=? 971 then S754_finite sx (Z.to_pos m1) e1
            else S754_infinity sx).
Proof.
  intros HD Hq Hl e1 D1.
  pose proof (fexp_ge_emin (Zdigits2 q + e)) as Hemin.
  assert (He1 : e1 - e = Z.max (fexp prec emax (Zdigits2 q + e) - e) 0)
    by (unfold e1; lia).
  unfold binary_round_aux, shr_fexp.
  destruct (shr (shr_record_of_loc q l) e (fexp prec emax (Zdigits2 q + e) - e))
    as [mrs' e'] eqn:E1.
  destruct (shr_located A D q e _ l mrs' e' HD Hq Hl E1) as (Ee' & Hl' & Hm').
  rewrite <- He1 in Hl', Hm'. fold D1 in Hl'.
  assert (Ee1 : e' = e1) by lia. clear Ee'. subst e'. clear E1.
  assert (Hp : 0 < 2 ^ (e1 - e)) by (apply Z.pow_pos_nonneg; lia).
  assert (HD1 : 0 < D1) by (unfold D1; nia).
  set (m' := shr_m mrs') in *.
  assert (Hm0 : 0 <= m') by (rewrite Hm'; apply Z.div_pos; lia).
  assert (Hm53 : m' < 2 ^ 53).
  { rewrite Hm'. apply Z.div_lt_upper_bound; [exact Hp|].
    destruct (Z.eq_dec q 0) as [->|Hne]; [lia|].
    destruct (Zdigits2_bounds q) as [[_ Hhi] Hdpos]; [lia|].
    rewrite <- Z.pow_add_r by lia.
    eapply Z.lt_le_trans; [exact Hhi|].
    apply Z.pow_le_mono_r; [lia|]. rewrite fexp_eq in He1. lia. }
  destruct (round_nearest_even_located A D1 m' (loc_of_shr_record mrs') HD1 Hl')
    as (Herr & Hm1 & Hmono).
  set (m1 := round_nearest_even m' (loc_of_shr_record mrs')) in *.
  exists m1.
  split; [lia|]. split; [exact Herr|]. split; [exact Hmono|].
  split; [rewrite <- Hm'; lia|].
  assert (Hem : -1074 <= e1) by (unfold e1; lia).
  destruct (Z.eqb_spec m1 0) as [E0|N0].
  { rewrite E0. cbn [Zdigits2 Z.add].
    assert (Hk : fexp prec emax e1 - e1 <= 0) by (rewrite fexp_eq; lia).
    destruct (fexp prec emax e1 - e1) as [|p|p] eqn:Ek; try lia; reflexivity. }
  destruct (Z.eqb_spec m1 (2 ^ 53)) as [E53|N53].
  { rewrite E53.
    replace (fexp prec emax (Zdigits2 (2 ^ 53) + e1) - e1) with 1
      by (rewrite fexp_eq; change (Zdigits2 (2 ^ 53)) with 54; lia).
    cbn [shr shr_record_of_loc iter_pos]. reflexivity. }
  assert (Hd : Zdigits2 m1 <= 53) by (apply Zdigits2_le; lia).
  assert (Hk : fexp prec emax (Zdigits2 m1 + e1) - e1 <= 0)
    by (rewrite fexp_eq; lia).
  destruct m1 as [|p|p] eqn:Em1; try lia.
  destruct (fexp prec emax (Zdigits2 (Z.pos p) + e1) - e1) as [|k|k] eqn:Ek; try lia;
    cbn [shr shr_record_of_loc shr_m]; reflexivity.
Qed.

Lemma pos_iter_xO (p d : positive) :
  Zpos (Pos.iter xO p d) = Zpos p * 2 ^ Zpos d.
Proof.
  induction d as [|d IH] using Pos.peano_ind.
  - cbn [Pos.iter]. lia.
  - rewrite Pos.iter_succ, Pos2Z.inj_xO, IH, Pos2Z.inj_succ, Z.pow_succ_r by lia. lia.
Qed.

Lemma shl_align_spec (p : positive) (e e' : Z) :
  snd (shl_align p e e') = Z.min e e'
  /\ Zpos (fst (shl_align p e e')) = Zpos p * 2 ^ (e - Z.min e e').
Proof.
  unfold shl_align. destruct (e' - e) as [|d|d] eqn:Ed; cbn [fst snd].
  - replace (e - Z.min e e') with 0 by lia. lia.
  - replace (e - Z.min e e') with 0 by lia. lia.
  - rewrite pos_iter_xO. replace (e - Z.min e e') with (Zpos d) by lia. lia.
Qed.

(** The float of a count: exact, with a full mantissa. *)
Lemma lit_count (n : Z) :
  1 <= n < 2 ^ 53 ->
  exists my ey,
    lit n 0 = S754_finite false my ey
    /\ -52 <= ey <= 0
    /\ Zpos my = n * 2 ^ (- ey)
    /\ 2 ^ 52 <= Zpos my < 2 ^ 53.
Proof.
  intros Hn. destruct n as [|p|p]; try lia.
  unfold lit, binary_normalize, binary_round.
  destruct (Zdigits2_bounds (Zpos p)) as [[Hlo Hhi] Hdpos]; [lia|].
  cbn [Zdigits2] in Hlo, Hhi, Hdpos.
  set (d := Zpos (digits2_pos p)) in *.
  assert (Hd : d <= 53).
  { change d with (Zdigits2 (Zpos p)). apply Zdigits2_le; lia. }
  rewrite Z.add_0_r.
  assert (Ef : fexp prec emax d = d - 53) by (rewrite fexp_eq; lia).
  rewrite Ef.
  destruct (shl_align_spec p 0 (d - 53)) as [Ee Em].
  destruct (shl_align p 0 (d - 53)) as [mz ez]. cbn [fst snd] in Ee, Em.
  replace (Z.min 0 (d - 53)) with (d - 53) in * by lia. subst ez.
  replace (0 - (d - 53)) with (53 - d) in Em by lia.
  assert (Hmz : 2 ^ 52 <= Zpos mz < 2 ^ 53).
  { assert (E52 : 2 ^ 52 = 2 ^ (d - 1) * 2 ^ (53 - d))
      by (rewrite <- Z.pow_add_r by lia; f_equal; lia).
    assert (E53 : 2 ^ 53 = 2 ^ d * 2 ^ (53 - d))
      by (rewrite <- Z.pow_add_r by lia; f_equal; lia).
    assert (0 < 2 ^ (53 - d)) by (apply Z.pow_pos_nonneg; lia).
    rewrite Em, E52, E53.
    split; [apply Z.mul_le_mono_nonneg_r | apply Z.mul_lt_mono_pos_r]; lia. }
  assert (Hdz : Zdigits2 (Zpos mz) = 53).
  { apply Z.le_antisymm; [apply Zdigits2_le | apply Zdigits2_ge]; lia. }
  destruct (binary_round_aux_located false (Zpos mz) 1 (Zpos mz) (d - 53) loc_Exact)
    as (m1 & Hm1 & Herr & _ & _ & ->); [lia | lia | unfold located; lia |].
  rewrite Hdz in Herr |- *.
  replace (Z.max (d - 53) (fexp prec emax (53 + (d - 53)))) with (d - 53) in *
    by (rewrite fexp_eq; lia).
  rewrite Z.sub_diag in Herr. change (2 ^ 0 * 1) with 1 in Herr.
  assert (m1 = Zpos mz) by lia. subst m1.
  destruct (Z.eqb_spec (Zpos mz) 0); [lia|].
  destruct (Z.eqb_spec (Zpos mz) (2 ^ 53)); [lia|].
  destruct (Z.leb_spec (d - 53) 971); [|lia].
  exists mz, (d - 53). cbn [Z.to_pos].
  split; [reflexivity|]. split; [lia|]. split; [|exact Hmz].
  rewrite Em. f_equal. f_equal. lia.
Qed.

Lemma pow2_pos (e : Z) : 0 <= e -> 0 < 2 ^ e.
Proof. intros H. apply Z.pow_pos_nonneg; lia. Qed.

Lemma pow2_split (a b : Z) : 0 <= a -> 0 <= b -> 2 ^ (a + b) = 2 ^ a * 2 ^ b.
Proof. intros. apply Z.pow_add_r; assumption. Qed.

Lemma abs_signed (sx : bool) (n a b : Z) :
  Z.abs (n * ((if sx then -1 else 1) * a) - (if sx then -1 else 1) * b)
  = Z.abs (n * a - b).
Proof. destruct sx; lia. Qed.

Lemma abs_sign_nonneg (sx : bool) (a : Z) :
  0 <= a -> Z.abs ((if sx then -1 else 1) * a) = a.
Proof. destruct sx; lia. Qed.

Lemma half_unit_bound (n X Zz P : Z) :
  1 <= n ->
  2 * Z.abs (n * Zz - X) <= n * P ->
  P = 1 \/ n * P * 2 ^ 52 <= X ->
  2 ^ 53 * Z.abs (n * Zz - X) <= Z.max X (n * 2 ^ 52).
Proof.
  intros Hn Hhalf. change (2 ^ 53) with (2 ^ 52 * 2).
  set (c := 2 ^ 52). assert (0 < c) by reflexivity. clearbody c.
  intros [-> | Hrel]; nia.
Qed.

(** Division of a float by a count: the quotient is finite, and [n]
    times it differs from the dividend by at most [2^-53] of the
    dividend, or by [n] halves of the least positive float where the
    quotient is subnormal.  Values are in units of [2^-1074]. *)
Lemma div_by_count_error (sx : bool) (mx : positive) (ex n : Z) :
  bounded prec emax mx ex = true ->
  1 <= n < 2 ^ 53 ->
  let x := S754_finite sx mx ex in
  let z := div x (lit n 0) in
  is_finite z = true
  /\ 2 ^ 53 * Z.abs (n * scaled 1074 z - scaled 1074 x)
     <= Z.max (Z.abs (scaled 1074 x)) (n * 2 ^ 52).
Proof.
  intros Hb Hn x z.
  unfold bounded, canonical_mantissa in Hb.
  apply andb_true_iff in Hb as [Hcan Hex].
  apply Z.eqb_eq in Hcan. apply Z.leb_le in Hex.
  change (emax - prec) with 971 in Hex. rewrite fexp_eq in Hcan.
  destruct (lit_count n Hn) as (my & ey & Ely & Hey & Emy & Hmy).
  destruct (Zdigits2_bounds (Zpos mx)) as [[Hlo1 Hhi1] Hd1pos]; [lia|].
  cbn [Zdigits2] in Hlo1, Hhi1, Hd1pos.
  assert (Hd2 : Zpos (digits2_pos my) = 53).
  { change (Zpos (digits2_pos my)) with (Zdigits2 (Zpos my)).
    apply Z.le_antisymm; [apply Zdigits2_le | apply Zdigits2_ge]; lia. }
  subst z x. unfold div. rewrite Ely. cbn [SFdiv].
  destruct (SFdiv_core_binary_located mx my ex ey) as (q & l & Ecore & Hq & Hloc).
  rewrite Ecore. clear Ecore. rewrite Hd2 in Hloc |- *.
  rewrite fexp_eq in Hloc |- *.
  remember (Zpos (digits2_pos mx)) as d1 eqn:Ed1. clear Ed1.
  assert (Hd1 : d1 <= 53) by lia.
  assert (Hmx53 : Zpos mx < 2 ^ 53)
    by (eapply Z.lt_le_trans; [exact Hhi1 | apply Z.pow_le_mono_r; lia]).
  assert (Hexm : -1074 <= ex) by lia.
  remember (Z.min (Z.max (d1 + ex - (53 + ey) - 53) (-1074)) (ex - ey)) as e' eqn:Ee'.
  assert (He' : -1074 <= e' <= ex) by lia.
  assert (He'd : e' = -1074 \/ e' + 53 <= d1 + ex - (53 + ey)) by lia.
  clear Ee' Hcan.
  remember (ex - ey - e') as s eqn:Es0.
  remember (Zpos mx * 2 ^ s) as A eqn:EA.
  destruct (binary_round_aux_located (xorb sx false) A (Zpos my) q e' l)
    as (m1 & Hm1 & Herr & Hmono & _ & ->); [lia | exact Hq | exact Hloc |].
  rewrite fexp_eq in *.
  remember (Z.max e' (Z.max (Zdigits2 q + e' - 53) (-1074))) as e1 eqn:Ee1.
  assert (He1lo : -1074 <= e1 /\ e' <= e1) by lia.
  assert (He1c : e1 = -1074 \/ e1 = e' \/ (e' < e1 /\ e1 = Zdigits2 q + e' - 53))
    by lia.
  assert (He1up : e1 <= Z.max e' (Z.max (Zdigits2 q + e' - 53) (-1074))) by lia.
  clear Ee1.
  remember (2 ^ (e1 - e') * Zpos my) as D1 eqn:ED1.
  destruct Hloc as [[HqA _] _].
  (* the powers of two at play *)
  pose proof (pow2_pos (- ey) ltac:(lia)) as Pney.
  pose proof (pow2_pos (ex - e') ltac:(lia)) as Pexe'.
  pose proof (pow2_pos (e' + 1074) ltac:(lia)) as Pe'K.
  pose proof (pow2_pos (e1 - e') ltac:(lia)) as Pe1e'.
  pose proof (pow2_pos (ex + 1074) ltac:(lia)) as PexK.
  pose proof (pow2_pos (e1 + 1074) ltac:(lia)) as Pe1K.
  assert (Es : 2 ^ s = 2 ^ (ex - e') * 2 ^ (- ey))
    by (rewrite <- pow2_split by lia; f_equal; lia).
  assert (Ee1K : 2 ^ (e1 + 1074) = 2 ^ (e' + 1074) * 2 ^ (e1 - e'))
    by (rewrite <- pow2_split by lia; f_equal; lia).
  assert (EexK : 2 ^ (ex + 1074) = 2 ^ (e' + 1074) * 2 ^ (ex - e'))
    by (rewrite <- pow2_split by lia; f_equal; lia).
  assert (Hmyge : 2 ^ (- ey) <= Zpos my).
  { rewrite Emy. rewrite <- (Z.mul_1_l (2 ^ (- ey))) at 1.
    apply Z.mul_le_mono_nonneg_r; lia. }
  clear Es0.
  (* the quotient has no more digits than the dividend allows *)
  assert (Hqle : q <= Zpos mx * 2 ^ (ex - e')).
  { apply (Z.mul_le_mono_pos_r _ _ (2 ^ (- ey))); [exact Pney|].
    rewrite <- Z.mul_assoc, <- Es, <- EA.
    eapply Z.le_trans; [|exact HqA].
    apply Z.mul_le_mono_nonneg_l; assumption. }
  assert (Hdq : Zdigits2 q + e' <= d1 + ex).
  { assert (Zdigits2 q <= d1 + (ex - e')); [|lia].
    apply Zdigits2_le; [exact Hq | lia |].
    rewrite pow2_split by lia.
    eapply Z.le_lt_trans; [exact Hqle|].
    apply Z.mul_lt_mono_pos_r; assumption. }
  assert (He1 : e1 <= ex) by lia.
  clear He1up.
  (* at the exponent of the dividend the mantissa cannot exceed its own *)
  assert (Htop : e1 = ex -> m1 <= Zpos mx).
  { intros E. apply Hmono. rewrite EA, ED1, Es, E.
    apply Z.mul_le_mono_nonneg_l; [lia|].
    apply Z.mul_le_mono_nonneg_l; [lia | exact Hmyge]. }
  assert (Hfin53 : m1 = 2 ^ 53 -> e1 + 1 <= 971).
  { intros E. destruct (Z.eq_dec e1 ex) as [Eq|]; [|lia].
    specialize (Htop Eq). lia. }
  clear Htop Hmono.
  (* the value of the quotient *)
  remember (Zpos mx * 2 ^ (ex + 1074)) as X eqn:EX.
  remember (m1 * 2 ^ (e1 + 1074)) as Zz eqn:EZz.
  assert (HX : 0 <= X) by (rewrite EX; apply Z.mul_nonneg_nonneg; lia).
  match goal with |- is_finite ?t = true /\ _ => set (z := t) end.
  assert (Hz : is_finite z = true
               /\ scaled 1074 z = (if sx then -1 else 1) * Zz).
  { unfold z. rewrite xorb_false_r, EZz.
    destruct (Z.eqb_spec m1 0) as [E0|N0].
    { rewrite E0. cbn [is_finite scaled]. split; [reflexivity|].
      rewrite Z.mul_0_l, Z.mul_0_r. reflexivity. }
    destruct (Z.eqb_spec m1 (2 ^ 53)) as [E53|N53].
    - destruct (Z.leb_spec (e1 + 1) 971) as [_|Hgt];
        [|specialize (Hfin53 E53); exfalso; apply (Z.lt_irrefl 971); lia].
      cbn [is_finite scaled]. split; [reflexivity|].
      rewrite E53. replace (e1 + 1 + 1074) with (1 + (e1 + 1074)) by ring.
      rewrite pow2_split by lia.
      change (Zpos (2 ^ 52)) with (2 ^ 52). change (2 ^ 1) with 2.
      change (2 ^ 53) with (2 * 2 ^ 52). ring.
    - destruct (Z.leb_spec e1 971) as [_|Hgt];
        [|exfalso; apply (Z.lt_irrefl 971); lia].
      cbn [is_finite scaled]. split; [reflexivity|].
      rewrite Z2Pos.id by lia. ring. }
  destruct Hz as [Hzfin Hzval]. split; [exact Hzfin|].
  rewrite Hzval. clear Hzval Hzfin z Hfin53.
  replace (scaled 1074 (S754_finite sx mx ex)) with ((if sx then -1 else 1) * X)
    by (rewrite EX; cbn [scaled]; ring).
  rewrite abs_signed, (abs_sign_nonneg sx X HX).
  (* the error in units of [2^-1074] *)
  assert (Hid : 2 ^ (- ey) * (n * Zz - X) = 2 ^ (e' + 1074) * (m1 * D1 - A)).
  { rewrite EZz, EX, ED1, EA, Ee1K, EexK, Es, Emy. ring. }
  assert (Hhalf : 2 * Z.abs (n * Zz - X) <= n * 2 ^ (e1 + 1074)).
  { apply (Z.mul_le_mono_pos_l _ _ (2 ^ (- ey))); [exact Pney|].
    replace (2 ^ (- ey) * (2 * Z.abs (n * Zz - X)))
      with (2 * Z.abs (2 ^ (- ey) * (n * Zz - X)))
      by (rewrite Z.abs_mul, (Z.abs_eq (2 ^ (- ey))) by lia; ring).
    rewrite Hid, Z.abs_mul, (Z.abs_eq (2 ^ (e' + 1074))) by lia.
    replace (2 ^ (- ey) * (n * 2 ^ (e1 + 1074)))
      with (2 ^ (e' + 1074) * D1)
      by (rewrite ED1, Ee1K, Emy; ring).
    rewrite Z.mul_assoc, (Z.mul_comm 2), <- Z.mul_assoc.
    apply Z.mul_le_mono_nonneg_l; [lia | exact Herr]. }
  apply (half_unit_bound n X Zz (2 ^ (e1 + 1074))); [lia | exact Hhalf |].
  clear Hhalf Hid Herr.
  (* either the quotient is subnormal, or half a unit is small against it *)
  destruct (Z.eq_dec e1 (-1074)) as [Esub|Hne];
    [left; rewrite Esub; reflexivity | right].
  apply (Z.mul_le_mono_pos_l _ _ (2 ^ (- ey))); [exact Pney|].
  replace (2 ^ (- ey) * (n * 2 ^ (e1 + 1074) * 2 ^ 52))
    with (Zpos my * 2 ^ 52 * 2 ^ (e1 + 1074)) by (rewrite Emy; ring).
  replace (2 ^ (- ey) * X) with (A * 2 ^ (e' + 1074))
    by (rewrite EX, EA, EexK, Es; ring).
  destruct He1c as [|[Ee | [Hlt Ee]]]; [contradiction | |].
  - (* no shift: the exponent is that of the division *)
    rewrite Ee in *.
    destruct He'd as [|He53]; [contradiction|].
    apply Z.mul_le_mono_nonneg_r; [lia|].
    (* [my * 2^52 < 2^105 <= 2^(d1-1) * 2^s <= A] *)
    assert (Ed : 2 ^ (d1 - 1) * 2 ^ s = 2 ^ 105 * 2 ^ (d1 - 1 + (ex - e') - ey - 105)).
    { rewrite Es, Z.mul_assoc, <- !pow2_split by lia. f_equal. lia. }
    pose proof (pow2_pos (d1 - 1 + (ex - e') - ey - 105) ltac:(lia)) as Pw.
    assert (E1 : 2 ^ (d1 - 1) * 2 ^ s <= A).
    { rewrite EA. apply Z.mul_le_mono_nonneg_r; [|exact Hlo1].
      rewrite Es. apply Z.mul_nonneg_nonneg; lia. }
    assert (E2 : Zpos my * 2 ^ 52 <= 2 ^ 105).
    { change (2 ^ 105) with (2 ^ 53 * 2 ^ 52).
      apply Z.mul_le_mono_nonneg_r; [|lia]. apply Z.pow_nonneg. lia. }
    assert (E3 : 2 ^ 105 <= 2 ^ 105 * 2 ^ (d1 - 1 + (ex - e') - ey - 105)).
    { rewrite <- (Z.mul_1_r (2 ^ 105)) at 1.
      apply Z.mul_le_mono_nonneg_l; [apply Z.pow_nonneg|]; lia. }
    rewrite <- Ed in E3. lia.
  - (* shifted: the exponent follows the digits of the quotient *)
    assert (Hqpos : 0 < q).
    { destruct (Z.eq_dec q 0) as [E0|]; [|lia].
      rewrite E0 in Ee. cbn [Zdigits2] in Ee. lia. }
    destruct (Zdigits2_bounds q Hqpos) as [[Hqlo _] _].
    rewrite Ee1K.
    replace (e1 - e') with (Zdigits2 q - 53) by lia.
    replace (Zpos my * 2 ^ 52 * (2 ^ (e' + 1074) * 2 ^ (Zdigits2 q - 53)))
      with (Zpos my * (2 ^ (Zdigits2 q - 53) * 2 ^ 52) * 2 ^ (e' + 1074)) by ring.
    rewrite <- pow2_split by lia.
    replace (Zdigits2 q - 53 + 52) with (Zdigits2 q - 1) by lia.
    apply Z.mul_le_mono_nonneg_r; [lia|].
    eapply Z.le_trans; [|exact HqA].
    rewrite (Z.mul_comm q). apply Z.mul_le_mono_nonneg_l; [lia | exact Hqlo].
Qed.

(** ** The loops of the scheduler *)

Lemma date_range_empty (first last : date) :
  last < first -> date_range first last = [].
Proof.
  intros H. unfold date_range.
  replace (Z.to_nat (last - first + 1)) with O by lia. reflexivity.
Qed.

Lemma date_range_cons (first last : date) :
  first <= last -> date_range first last = first :: date_range (first + 1) last.
Proof.
  intros H. unfold date_range.
  replace (Z.to_nat (last - first + 1)) with (S (Z.to_nat (last - (first + 1) + 1))) by lia.
  simpl. rewrite Z.add_0_r. apply (f_equal (cons first)).
  rewrite <- seq_shift, map_map. apply map_ext. intros i. lia.
Qed.

Lemma date_range_length (first last : date) :
  Z.of_nat (List.length (date_range first last)) = Z.max 0 (last - first + 1).
Proof. unfold date_range. rewrite length_map, length_seq. lia. Qed.

Lemma in_date_range (first last d : date) :
  In d (date_range first last) <-> first <= d <= last.
Proof.
  unfold date_range. rewrite in_map_iff. split.
  - intros (i & <- & Hi). apply in_seq in Hi. lia.
  - intros H. exists (Z.to_nat (d - first)). split; [lia|].
    apply in_seq. lia.
Qed.

(** The [while] loop, once the current date is past the due date. *)
Lemma while_past_due fuel task a c cur sched :
  dt_date (due_date task) < cur ->
  while_current_date (S fuel) task a c cur sched = (sched, Finished).
Proof.
  intros H. simpl. destruct (cur <=? dt_date (due_date task)) eqn:E;
    [apply Z.leb_le in E; lia | reflexivity].
Qed.

(** The [while] loop with enough fuel: one entry per remaining day, and
    [OverflowError] on stepping past the last date. *)
Lemma while_current_date_spec n : forall fuel task a c cur sched,
  0 < cur ->
  dt_date (due_date task) <= MAXORDINAL ->
  dt_date (due_date task) - cur + 1 = Z.of_nat n ->
  (n < fuel)%nat ->
  while_current_date fuel task a c cur sched =
    ((sched ++ map (fun d => mkEntry d (name task) (py_min a c))
                 (date_range cur (dt_date (due_date task))))%list,
     if (cur <=? dt_date (due_date task))
        && (dt_date (due_date task) =? MAXORDINAL)
     then Raised OverflowError else Finished).
Proof.
  induction n as [|n IH]; intros fuel task a c cur sched Hcur Hmax Hn Hfuel.
  - destruct fuel as [|fuel]; [lia|].
    rewrite while_past_due by lia.
    rewrite date_range_empty by lia. simpl. rewrite app_nil_r.
    replace (cur <=? dt_date (due_date task)) with false
      by (symmetry; apply Z.leb_gt; lia). reflexivity.
  - destruct fuel as [|fuel]; [lia|]. simpl.
    assert (Hle : cur <= dt_date (due_date task)) by lia.
    rewrite (proj2 (Z.leb_le _ _) Hle).
    rewrite (date_range_cons _ _ Hle). unfold add_days.
    replace (0 <? cur + 1) with true by (symmetry; apply Z.ltb_lt; lia).
    destruct (cur + 1 <=? MAXORDINAL) eqn:E; simpl.
    + apply Z.leb_le in E.
      rewrite (IH fuel task a c (cur + 1)) by lia.
      rewrite <- app_assoc. simpl. f_equal.
      destruct (dt_date (due_date task) =? MAXORDINAL) eqn:E2;
        [|now rewrite andb_false_r].
      apply Z.eqb_eq in E2.
      replace (cur + 1 <=? dt_date (due_date task)) with true
        by (symmetry; apply Z.leb_le; lia). reflexivity.
    + apply Z.leb_gt in E.
      assert (dt_date (due_date task) = cur) by lia.
      assert (Hd : dt_date (due_date task) = MAXORDINAL) by lia.
      rewrite Hd, Z.eqb_refl. rewrite date_range_empty by lia. reflexivity.
Qed.

(** The body of the [for] loop for one task. *)
Lemma schedule_task_spec today c task sched :
  0 < today ->
  dt_date (due_date task) <= MAXORDINAL ->
  schedule_task today c task sched =
    ((sched ++ task_block today c task)%list,
     if overflows today task then Raised OverflowError else Finished).
Proof.
  intros Ht Hmax. unfold schedule_task, window_fuel, task_block, even_block, window.
  destruct (Z.le_gt_cases today (dt_date (due_date task))) as [Hle|Hgt].
  - rewrite (while_current_date_spec (Z.to_nat (dt_date (due_date task) - today + 1)))
      by lia. reflexivity.
  - rewrite while_past_due by lia. rewrite date_range_empty by lia.
    simpl. rewrite app_nil_r. unfold overflows.
    replace (today <=? dt_date (due_date task)) with false
      by (symmetry; apply Z.leb_gt; lia). reflexivity.
Qed.

(** The [for] loop over the sorted tasks. *)
Lemma for_tasks_spec today c : forall ts sched,
  0 < today ->
  Forall (fun t => dt_date (due_date t) <= MAXORDINAL) ts ->
  for_tasks today c ts sched =
    ((sched ++ flat_map (task_block today c) (processed today ts))%list,
     if existsb (overflows today) ts then Raised OverflowError else Finished).
Proof.
  induction ts as [|t ts IH]; intros sched Ht Hall; simpl.
  - now rewrite app_nil_r.
  - inversion Hall as [|? ? Hmax Hrest]; subst.
    rewrite (schedule_task_spec _ _ _ _ Ht Hmax).
    destruct (overflows today t); simpl.
    + now rewrite app_nil_r.
    + rewrite (IH _ Ht Hrest). now rewrite app_assoc.
Qed.

(** The fuel of [schedule_task] is enough in every case: the loops end
    by their own test or by an exception. *)
Lemma while_current_date_ends fuel : forall task a c cur sched,
  (Z.to_nat (dt_date (due_date task) - cur + 1) < fuel)%nat ->
  snd (while_current_date fuel task a c cur sched) <> OutOfFuel.
Proof.
  induction fuel as [|fuel IH]; intros task a c cur sched Hfuel; [lia|].
  cbn [while_current_date].
  destruct (Z.leb_spec cur (dt_date (due_date task))) as [Hle|Hgt];
    [|cbn; discriminate].
  unfold add_days.
  destruct ((0 <? cur + 1) && (cur + 1 <=? MAXORDINAL)); [|cbn; discriminate].
  apply IH. lia.
Qed.

Lemma schedule_task_ends today c task sched :
  snd (schedule_task today c task sched) <> OutOfFuel.
Proof. unfold schedule_task, window_fuel. apply while_current_date_ends. lia. Qed.

Lemma for_tasks_ends today c : forall ts sched,
  snd (for_tasks today c ts sched) <> OutOfFuel.
Proof.
  induction ts as [|t ts IH]; intros sched; cbn [for_tasks]; [discriminate|].
  pose proof (schedule_task_ends today c t sched) as H.
  destruct (schedule_task today c t sched) as [sched' [|e|]]; cbn [snd] in *;
    [apply IH | discriminate | contradiction].
Qed.

(** The scheduler ends: it finishes or raises, whatever the tasks and the
    date. *)
Lemma generate_ends tasks c today : snd (generate tasks c today) <> OutOfFuel.
Proof. apply for_tasks_ends. Qed.

(** ** [sorted]: a stable sort *)

Section SortedFacts.
Context {A K : Type}.
Variable key : A -> K.
Variable lt : K -> K -> bool.

Lemma insert_sorted_perm x l : Permutation (insert_sorted key lt x l) (x :: l).
Proof.
  induction l as [|y l IH]; simpl; [reflexivity|].
  destruct (lt (key y) (key x)); [|reflexivity].
  rewrite IH. apply perm_swap.
Qed.

Lemma sorted_perm l : Permutation (sorted key lt l) l.
Proof.
  induction l as [|x l IH]; simpl; [reflexivity|].
  rewrite insert_sorted_perm. now constructor.
Qed.

(** Elements no two of which are strictly ordered keep their input
    order: the sort is stable. *)
Lemma insert_sorted_filter (p : A -> bool) x l :
  (forall a b, lt (key a) (key b) = true -> p a = true -> p b = false) ->
  filter p (insert_sorted key lt x l) = filter p (x :: l).
Proof.
  intros Hp. induction l as [|y l IH]; [reflexivity|].
  simpl insert_sorted. destruct (lt (key y) (key x)) eqn:E; [|reflexivity].
  simpl in *. rewrite IH.
  destruct (p y) eqn:Py; [|reflexivity].
  now rewrite (Hp y x E Py).
Qed.

Lemma sorted_stable (p : A -> bool) l :
  (forall a b, lt (key a) (key b) = true -> p a = true -> p b = false) ->
  filter p (sorted key lt l) = filter p l.
Proof.
  intros Hp. induction l as [|x l IH]; [reflexivity|].
  simpl sorted. rewrite (insert_sorted_filter p x _ Hp).
  simpl. now rewrite IH.
Qed.

Hypothesis lt_asym : forall a b, lt a b = true -> lt b a = false.
Hypothesis lt_negtrans :
  forall a b c, lt b a = false -> lt c b = false -> lt c a = false.

Lemma insert_sorted_Forall (P : A -> Prop) x l :
  P x -> Forall P l -> Forall P (insert_sorted key lt x l).
Proof.
  intros Hx Hl. induction Hl as [|y l Hy Hl IH]; simpl.
  - now constructor.
  - destruct (lt (key y) (key x)); constructor; auto.
Qed.

Lemma insert_sorted_ordered x l :
  StronglySorted (in_order key lt) l -> StronglySorted (in_order key lt) (insert_sorted key lt x l).
Proof.
  induction 1 as [|y l Hl IH Hy]; simpl.
  - constructor; constructor.
  - destruct (lt (key y) (key x)) eqn:E.
    + constructor; [exact IH|].
      apply insert_sorted_Forall; [|exact Hy].
      unfold in_order. now apply lt_asym.
    + constructor; [now constructor|].
      constructor; [exact E|].
      eapply Forall_impl; [|exact Hy].
      intros z Hz. unfold in_order in *. eapply lt_negtrans; eauto.
Qed.

Lemma sorted_ordered l : StronglySorted (in_order key lt) (sorted key lt l).
Proof.
  induction l as [|x l IH]; simpl; [constructor|].
  now apply insert_sorted_ordered.
Qed.

End SortedFacts.

(** *** The order of due dates *)

Lemma dt_ltb_asym a b : dt_ltb a b = true -> dt_ltb b a = false.
Proof.
  unfold dt_ltb. intros H.
  apply orb_true_iff in H. apply orb_false_iff.
  rewrite andb_true_iff, Z.ltb_lt, Z.eqb_eq, Z.ltb_lt in H.
  rewrite andb_false_iff, Z.ltb_ge, Z.eqb_neq, Z.ltb_ge. lia.
Qed.

Lemma dt_ltb_negtrans a b c :
  dt_ltb b a = false -> dt_ltb c b = false -> dt_ltb c a = false.
Proof.
  unfold dt_ltb. intros H1 H2.
  apply orb_false_iff in H1, H2. apply orb_false_iff.
  rewrite andb_false_iff, Z.ltb_ge, Z.eqb_neq, Z.ltb_ge in *. lia.
Qed.


(** ** The calendar *)

Lemma forallb_range (P : Z -> bool) (k : nat) :
  forallb P (map Z.of_nat (seq 0 k)) = true ->
  forall n, 0 <= n < Z.of_nat k -> P n = true.
Proof.
  intros H n Hn. rewrite forallb_forall in H. apply H.
  apply in_map_iff. exists (Z.to_nat n). split; [lia|]. apply in_seq. lia.
Qed.

(** Month and day within a year are those of the tables. *)
Lemma month_day_of_yday_spec (leap : bool) (n : Z) :
  0 <= n < 365 + (if leap then 1 else 0) ->
  let '(m, d) := month_day_of_yday leap n in
  1 <= m <= 12 /\ 1 <= d <= days_in_month_l leap m
  /\ days_before_month_l leap m + d = n + 1.
Proof.
  intros Hn.
  pose (P := fun leap n =>
    let '(m, d) := month_day_of_yday leap n in
    (1 <=? m) && (m <=? 12) && (1 <=? d) && (d <=? days_in_month_l leap m)
    && (days_before_month_l leap m + d =? n + 1)).
  assert (H : P leap n = true).
  { destruct leap.
    - apply (forallb_range (P true) 366); [vm_compute; reflexivity | lia].
    - apply (forallb_range (P false) 365); [vm_compute; reflexivity | lia]. }
  unfold P in H. destruct (month_day_of_yday leap n) as [m d].
  rewrite !andb_true_iff, !Z.leb_le, Z.eqb_eq in H. lia.
Qed.

Lemma is_leap_decompose (n400 n100 n4 n1 : Z) :
  0 <= n100 <= 3 -> 0 <= n4 <= 24 -> 0 <= n1 <= 3 ->
  is_leap (n400 * 400 + 1 + n100 * 100 + n4 * 4 + n1)
  = (n1 =? 3) && (negb (n4 =? 24) || (n100 =? 3)).
Proof.
  intros H100 H4 H1. unfold is_leap.
  set (y := n400 * 400 + 1 + n100 * 100 + n4 * 4 + n1).
  assert (E4 : y mod 4 = (n1 + 1) mod 4).
  { unfold y. replace (n400 * 400 + 1 + n100 * 100 + n4 * 4 + n1)
      with ((n1 + 1) + (n400 * 100 + n100 * 25 + n4) * 4) by lia.
    apply Z.mod_add. lia. }
  assert (E100 : y mod 100 = (n4 * 4 + n1 + 1) mod 100).
  { unfold y. replace (n400 * 400 + 1 + n100 * 100 + n4 * 4 + n1)
      with ((n4 * 4 + n1 + 1) + (n400 * 4 + n100) * 100) by lia.
    apply Z.mod_add. lia. }
  assert (E400 : y mod 400 = (n100 * 100 + n4 * 4 + n1 + 1) mod 400).
  { unfold y. replace (n400 * 400 + 1 + n100 * 100 + n4 * 4 + n1)
      with ((n100 * 100 + n4 * 4 + n1 + 1) + n400 * 400) by lia.
    apply Z.mod_add. lia. }
  rewrite E4, E100, E400.
  destruct (n1 =? 3) eqn:A1.
  - apply Z.eqb_eq in A1. subst n1. change ((3 + 1) mod 4) with 0. simpl.
    destruct (n4 =? 24) eqn:A4.
    + apply Z.eqb_eq in A4. subst n4. change ((24 * 4 + 3 + 1) mod 100) with 0. simpl.
      destruct (n100 =? 3) eqn:A100.
      * apply Z.eqb_eq in A100. subst n100. reflexivity.
      * apply Z.eqb_neq in A100. apply Z.eqb_neq.
        rewrite Z.mod_small by lia. lia.
    + apply Z.eqb_neq in A4. simpl.
      replace ((n4 * 4 + 3 + 1) mod 100 =? 0) with false; [reflexivity|].
      symmetry. apply Z.eqb_neq. rewrite Z.mod_small by lia. lia.
  - apply Z.eqb_neq in A1. simpl.
    replace ((n1 + 1) mod 4 =? 0) with false; [reflexivity|].
    symmetry. apply Z.eqb_neq. rewrite Z.mod_small by lia. lia.
Qed.

Lemma days_before_year_decompose (n400 n100 n4 n1 : Z) :
  0 <= n100 <= 3 -> 0 <= n4 <= 24 -> 0 <= n1 <= 3 ->
  days_before_year (n400 * 400 + 1 + n100 * 100 + n4 * 4 + n1)
  = n400 * DI400Y + n100 * DI100Y + n4 * DI4Y + n1 * 365.
Proof.
  intros H100 H4 H1. unfold days_before_year, DI400Y, DI100Y, DI4Y.
  replace (n400 * 400 + 1 + n100 * 100 + n4 * 4 + n1 - 1)
    with (n400 * 400 + n100 * 100 + n4 * 4 + n1) by lia.
  set (y1 := n400 * 400 + n100 * 100 + n4 * 4 + n1).
  assert (y1 / 4 = n400 * 100 + n100 * 25 + n4).
  { symmetry. apply (Z.div_unique y1 4 _ n1); lia. }
  assert (y1 / 100 = n400 * 4 + n100).
  { symmetry. apply (Z.div_unique y1 100 _ (n4 * 4 + n1)); lia. }
  assert (y1 / 400 = n400).
  { symmetry. apply (Z.div_unique y1 400 _ (n100 * 100 + n4 * 4 + n1)); lia. }
  lia.
Qed.

(** [_ord2ymd] yields a valid date, the one [_ymd2ord] maps back. *)
Lemma ord2ymd_spec (n : Z) :
  1 <= n <= MAXORDINAL ->
  let '(y, m, d) := ord2ymd n in
  valid_ymd y m d = true /\ ymd2ord y m d = n.
Proof.
  unfold MAXORDINAL. intros Hn. unfold ord2ymd.
  set (n0 := n - 1).
  set (n400 := n0 / DI400Y). set (r400 := n0 mod DI400Y).
  set (n100 := r400 / DI100Y). set (r100 := r400 mod DI100Y).
  set (n4 := r100 / DI4Y). set (r4 := r100 mod DI4Y).
  set (n1 := r4 / 365). set (r := r4 mod 365).
  assert (E400 : n0 = DI400Y * n400 + r400) by (apply Z.div_mod; discriminate).
  assert (B400 : 0 <= r400 < DI400Y) by (apply Z.mod_pos_bound; reflexivity).
  assert (E100 : r400 = DI100Y * n100 + r100) by (apply Z.div_mod; discriminate).
  assert (B100 : 0 <= r100 < DI100Y) by (apply Z.mod_pos_bound; reflexivity).
  assert (E4 : r100 = DI4Y * n4 + r4) by (apply Z.div_mod; discriminate).
  assert (B4 : 0 <= r4 < DI4Y) by (apply Z.mod_pos_bound; reflexivity).
  assert (E1 : r4 = 365 * n1 + r) by (apply Z.div_mod; discriminate).
  assert (B1 : 0 <= r < 365) by (apply Z.mod_pos_bound; reflexivity).
  unfold DI400Y, DI100Y, DI4Y in *.
  clearbody n400 r400 n100 r100 n4 r4 n1 r. subst n0.
  assert (0 <= n400 <= 24) by lia.
  assert (0 <= n100 <= 4) by lia.
  assert (0 <= n4 <= 24) by lia.
  assert (0 <= n1 <= 4) by lia.
  destruct (n100 =? 4) eqn:A100.
  { apply Z.eqb_eq in A100. rewrite orb_true_r.
    assert (n4 = 0 /\ n1 = 0 /\ r = 0) as (-> & -> & ->) by lia. subst n100.
    replace (n400 * 400 + 1 + 4 * 100 + 0 * 4 + 0 - 1)
      with (n400 * 400 + 1 + 3 * 100 + 24 * 4 + 3) by lia.
    unfold valid_ymd, ymd2ord, days_in_month, days_before_month.
    rewrite is_leap_decompose, days_before_year_decompose by lia.
    unfold DI400Y, DI100Y, DI4Y.
    change ((3 =? 3) && (negb (24 =? 24) || (3 =? 3))) with true.
    change (days_before_month_l true 12) with 335.
    change (days_in_month_l true 12) with 31.
    split; [|lia].
    rewrite !andb_true_iff, !Z.leb_le. lia. }
  apply Z.eqb_neq in A100. rewrite orb_false_r.
  destruct (n1 =? 4) eqn:A1.
  { apply Z.eqb_eq in A1. subst n1.
    assert (r = 0 /\ n4 <= 23) as (-> & Hn4) by lia.
    replace (n400 * 400 + 1 + n100 * 100 + n4 * 4 + 4 - 1)
      with (n400 * 400 + 1 + n100 * 100 + n4 * 4 + 3) by lia.
    unfold valid_ymd, ymd2ord, days_in_month, days_before_month.
    rewrite is_leap_decompose, days_before_year_decompose by lia.
    unfold DI400Y, DI100Y, DI4Y.
    replace (n4 =? 24) with false by (symmetry; apply Z.eqb_neq; lia).
    change ((3 =? 3) && (negb false || (n100 =? 3))) with true.
    change (days_before_month_l true 12) with 335.
    change (days_in_month_l true 12) with 31.
    split; [|lia].
    rewrite !andb_true_iff, !Z.leb_le. lia. }
  apply Z.eqb_neq in A1.
  rewrite <- (is_leap_decompose n400 n100 n4 n1) by lia.
  remember (is_leap (n400 * 400 + 1 + n100 * 100 + n4 * 4 + n1)) as leap eqn:El.
  pose proof (month_day_of_yday_spec leap r) as Hmd.
  destruct (month_day_of_yday leap r) as [m d].
  destruct Hmd as (Hm & Hd & Hsum); [destruct leap; lia|].
  unfold valid_ymd, ymd2ord, days_in_month, days_before_month.
  rewrite <- El, days_before_year_decompose by lia.
  unfold DI400Y, DI100Y, DI4Y.
  split; [|lia].
  rewrite !andb_true_iff, !Z.leb_le. lia.
Qed.

Lemma leap_year_length (y : Z) :
  days_before_year (y + 1) = days_before_year y + 365 + (if is_leap y then 1 else 0).
Proof.
  unfold days_before_year, is_leap.
  replace (y + 1 - 1) with y by lia.
  destruct (Z.eqb_spec (y mod 4) 0) as [E4|E4];
  destruct (Z.eqb_spec (y mod 100) 0) as [E100|E100];
  destruct (Z.eqb_spec (y mod 400) 0) as [E400|E400];
  cbn [andb orb negb]; Z.div_mod_to_equations; lia.
Qed.

Lemma days_before_year_mono (y1 y2 : Z) :
  y1 <= y2 -> days_before_year y1 <= days_before_year y2.
Proof.
  intros H. unfold days_before_year. Z.div_mod_to_equations. lia.
Qed.

Lemma day_of_year_bounds (leap : bool) (m d : Z) :
  1 <= m <= 12 -> 1 <= d <= days_in_month_l leap m ->
  1 <= days_before_month_l leap m + d <= 365 + (if leap then 1 else 0).
Proof.
  intros Hm Hd.
  assert (H : (0 <=? days_before_month_l leap m)
              && (days_before_month_l leap m + days_in_month_l leap m
                  <=? 365 + (if leap then 1 else 0)) = true).
  { apply (forallb_range (fun m =>
      (0 <=? days_before_month_l leap m)
      && (days_before_month_l leap m + days_in_month_l leap m
          <=? 365 + (if leap then 1 else 0))) 13); [|lia].
    destruct leap; vm_compute; reflexivity. }
  rewrite andb_true_iff, !Z.leb_le in H. lia.
Qed.

Lemma months_in_order (leap : bool) (m1 m2 : Z) :
  1 <= m1 -> m1 < m2 -> m2 <= 12 ->
  days_before_month_l leap m1 + days_in_month_l leap m1
  <= days_before_month_l leap m2.
Proof.
  intros H1 H12 H2.
  pose (P := fun a b =>
    negb (a <? b) || negb (1 <=? a)
    || (days_before_month_l leap a + days_in_month_l leap a
        <=? days_before_month_l leap b)).
  assert (H : P m1 m2 = true).
  { apply (forallb_range (P m1) 13); [|lia].
    apply (forallb_range
             (fun a => forallb (P a) (map Z.of_nat (seq 0 13))) 13); [|lia].
    destruct leap; vm_compute; reflexivity. }
  unfold P in H.
  rewrite !orb_true_iff, !negb_true_iff, Z.ltb_ge, Z.leb_gt, Z.leb_le in H. lia.
Qed.

(** [_ymd2ord] grows with the calendar order of valid dates. *)
Lemma ymd2ord_lt (y1 m1 d1 y2 m2 d2 : Z) :
  valid_ymd y1 m1 d1 = true -> valid_ymd y2 m2 d2 = true ->
  ymd_lt (y1, m1, d1) (y2, m2, d2) ->
  ymd2ord y1 m1 d1 < ymd2ord y2 m2 d2.
Proof.
  unfold valid_ymd, ymd2ord, days_in_month, days_before_month, ymd_lt.
  rewrite !andb_true_iff, !Z.leb_le.
  intros (((((Hy1 & Hy1') & Hm1) & Hm1') & Hd1) & Hd1')
         (((((Hy2 & Hy2') & Hm2) & Hm2') & Hd2) & Hd2') Hlt.
  pose proof (day_of_year_bounds (is_leap y1) m1 d1) as B1.
  pose proof (day_of_year_bounds (is_leap y2) m2 d2) as B2.
  destruct Hlt as [Hy | (-> & [Hm | (-> & Hd)])].
  - pose proof (leap_year_length y1) as L.
    pose proof (days_before_year_mono (y1 + 1) y2). lia.
  - pose proof (months_in_order (is_leap y2) m1 m2). lia.
  - lia.
Qed.

(** Later ordinals are later in the calendar. *)
Lemma ord2ymd_lt (n1 n2 : Z) :
  1 <= n1 -> n1 < n2 -> n2 <= MAXORDINAL ->
  ymd_lt (ord2ymd n1) (ord2ymd n2).
Proof.
  intros H1 H12 H2.
  pose proof (ord2ymd_spec n1) as S1. pose proof (ord2ymd_spec n2) as S2.
  destruct (ord2ymd n1) as [[y1 m1] d1], (ord2ymd n2) as [[y2 m2] d2].
  destruct S1 as [V1 E1]; [lia|]. destruct S2 as [V2 E2]; [lia|].
  assert (Hcases : ymd_lt (y1, m1, d1) (y2, m2, d2)
                   \/ (y1, m1, d1) = (y2, m2, d2)
                   \/ ymd_lt (y2, m2, d2) (y1, m1, d1)).
  { unfold ymd_lt.
    destruct (Z.lt_total y1 y2) as [|[->|]]; auto.
    destruct (Z.lt_total m1 m2) as [|[->|]]; auto 6.
    destruct (Z.lt_total d1 d2) as [|[->|]]; auto 8. }
  destruct Hcases as [H | [H | H]]; [exact H | |].
  - inversion H; subst. lia.
  - pose proof (ymd2ord_lt _ _ _ _ _ _ V2 V1 H). lia.
Qed.

(** ** The order of strings, and of formatted dates *)

Lemma ascii_compare_refl (c : ascii) : Ascii.compare c c = Eq.
Proof. unfold Ascii.compare. apply N.compare_refl. Qed.

Lemma string_compare_refl (s : string) : String.compare s s = Eq.
Proof.
  induction s as [|c s IH]; simpl; [reflexivity|].
  now rewrite ascii_compare_refl.
Qed.

Lemma string_compare_lt_trans : forall a b c : string,
  String.compare a b = Lt -> String.compare b c = Lt -> String.compare a c = Lt.
Proof.
  induction a as [|x a IH]; intros [|y b] [|z c]; simpl; try congruence.
  unfold Ascii.compare.
  destruct (N.compare_spec (N_of_ascii x) (N_of_ascii y)) as [Exy|Lxy|Gxy];
    try discriminate;
  destruct (N.compare_spec (N_of_ascii y) (N_of_ascii z)) as [Eyz|Lyz|Gyz];
    try discriminate; intros H1 H2.
  - rewrite Exy, Eyz, N.compare_refl. eauto.
  - rewrite Exy. now apply N.compare_lt_iff in Lyz as ->.
  - rewrite <- Eyz. now apply N.compare_lt_iff in Lxy as ->.
  - assert (L : (N_of_ascii x < N_of_ascii z)%N) by lia.
    now apply N.compare_lt_iff in L as ->.
Qed.

Lemma string_ltb_irrefl (s : string) : String.ltb s s = false.
Proof. unfold String.ltb. now rewrite string_compare_refl. Qed.

Lemma string_ltb_asym (a b : string) :
  String.ltb a b = true -> String.ltb b a = false.
Proof.
  unfold String.ltb. rewrite (String.compare_antisym b a).
  destruct (String.compare a b); simpl; congruence.
Qed.

Lemma string_ltb_negtrans (a b c : string) :
  String.ltb b a = false -> String.ltb c b = false -> String.ltb c a = false.
Proof.
  intros H1 H2. destruct (String.ltb c a) eqn:E; [|reflexivity].
  unfold String.ltb in *.
  destruct (String.compare c a) eqn:Eca; try discriminate.
  destruct (String.compare c b) eqn:Ecb; try discriminate.
  - apply String.compare_eq_iff in Ecb. subst c. now rewrite Eca in H1.
  - assert (Ebc : String.compare b c = Lt)
      by (rewrite String.compare_antisym, Ecb; reflexivity).
    now rewrite (string_compare_lt_trans _ _ _ Ebc Eca) in H1.
Qed.

Lemma string_ltb_total (a b : string) :
  String.ltb a b = true \/ a = b \/ String.ltb b a = true.
Proof.
  unfold String.ltb. rewrite (String.compare_antisym b a).
  destruct (String.compare a b) eqn:E; simpl; auto.
  right. left. now apply String.compare_eq_iff.
Qed.

(** Digits compare as the numbers they denote. *)
Lemma digit_compare (a b : Z) :
  0 <= a <= 9 -> 0 <= b <= 9 ->
  Ascii.compare (digit a) (digit b) = (a ?= b).
Proof.
  intros Ha Hb. unfold Ascii.compare, digit.
  rewrite !N_ascii_embedding by lia.
  rewrite <- N2Z.inj_compare. rewrite !N2Z.inj_add, !Z2N.id by lia.
  change (Z.of_N 48) with 48.
  destruct (Z.compare_spec a b), (Z.compare_spec (48 + a) (48 + b)); lia || reflexivity.
Qed.

Lemma pad2_compare (a b : Z) (s t : string) :
  0 <= a < 100 -> 0 <= b < 100 ->
  String.compare (pad2 a ++ s) (pad2 b ++ t)
  = match a ?= b with Eq => String.compare s t | r => r end.
Proof.
  intros Ha Hb. unfold pad2. cbn [String.append String.compare].
  rewrite !digit_compare by (Z.div_mod_to_equations; lia).
  destruct (Z.compare_spec (a / 10) (b / 10));
  destruct (Z.compare_spec (a mod 10) (b mod 10));
  destruct (Z.compare_spec a b); try reflexivity;
    exfalso; Z.div_mod_to_equations; lia.
Qed.

Lemma pad4_compare (a b : Z) (s t : string) :
  0 <= a < 10000 -> 0 <= b < 10000 ->
  String.compare (pad4 a ++ s) (pad4 b ++ t)
  = match a ?= b with Eq => String.compare s t | r => r end.
Proof.
  intros Ha Hb. unfold pad4. cbn [String.append String.compare].
  rewrite !digit_compare by (Z.div_mod_to_equations; lia).
  destruct (Z.compare_spec (a / 1000) (b / 1000));
  destruct (Z.compare_spec (a / 100 mod 10) (b / 100 mod 10));
  destruct (Z.compare_spec (a / 10 mod 10) (b / 10 mod 10));
  destruct (Z.compare_spec (a mod 10) (b mod 10));
  destruct (Z.compare_spec a b); try reflexivity;
    exfalso; Z.div_mod_to_equations; lia.
Qed.

Lemma valid_ymd_bounds (y m d : Z) :
  valid_ymd y m d = true -> 1 <= y <= 9999 /\ 1 <= m <= 12 /\ 1 <= d <= 31.
Proof.
  unfold valid_ymd, days_in_month. rewrite !andb_true_iff, !Z.leb_le.
  intros (((((Hy & Hy') & Hm) & Hm') & Hd) & Hd').
  pose proof (day_of_year_bounds (is_leap y) m d).
  assert (days_in_month_l (is_leap y) m <= 31).
  { assert (H0 : (days_in_month_l (is_leap y) m <=? 31) = true).
    { apply (forallb_range (fun m => days_in_month_l (is_leap y) m <=? 31) 13); [|lia].
      destruct (is_leap y); vm_compute; reflexivity. }
    now apply Z.leb_le. }
  lia.
Qed.

(** [strftime("%Y-%m-%d")] orders dates as the calendar does. *)
Lemma strftime_lt (d1 d2 : date) :
  1 <= d1 -> d1 < d2 -> d2 <= MAXORDINAL ->
  String.ltb (strftime d1) (strftime d2) = true.
Proof.
  intros H1 H12 H2.
  pose proof (ord2ymd_lt d1 d2 H1 H12 H2) as Hlt.
  pose proof (ord2ymd_spec d1) as S1. pose proof (ord2ymd_spec d2) as S2.
  unfold strftime.
  destruct (ord2ymd d1) as [[y1 m1] dd1], (ord2ymd d2) as [[y2 m2] dd2].
  destruct S1 as [V1 _]; [lia|]. destruct S2 as [V2 _]; [lia|].
  apply valid_ymd_bounds in V1, V2.
  unfold String.ltb. rewrite pad4_compare by lia.
  cbn [String.append String.compare]. rewrite ascii_compare_refl.
  rewrite pad2_compare by lia.
  cbn [String.append String.compare]. rewrite ascii_compare_refl.
  replace (pad2 dd1) with (pad2 dd1 ++ "") by reflexivity.
  replace (pad2 dd2) with (pad2 dd2 ++ "") by reflexivity.
  rewrite pad2_compare by lia. simpl String.compare.
  unfold ymd_lt in Hlt.
  destruct (Z.compare_spec y1 y2); destruct (Z.compare_spec m1 m2);
    destruct (Z.compare_spec dd1 dd2); try reflexivity; exfalso; lia.
Qed.

Lemma strftime_inj (d1 d2 : date) :
  Date.valid d1 = true -> Date.valid d2 = true ->
  strftime d1 = strftime d2 -> d1 = d2.
Proof.
  unfold Date.valid. rewrite !andb_true_iff, !Z.leb_le. intros V1 V2 E.
  destruct (Z.lt_total d1 d2) as [L | [-> | L]]; [|reflexivity|].
  - pose proof (strftime_lt d1 d2) as H. rewrite E, string_ltb_irrefl in H.
    discriminate H; lia.
  - pose proof (strftime_lt d2 d1) as H. rewrite E, string_ltb_irrefl in H.
    discriminate H; lia.
Qed.

(** ** Grouping by date *)

Lemma lookup_setdefault_append g k v k' :
  lookup (setdefault_append g k v) k'
  = if String.eqb k k' then (lookup g k' ++ [v])%list else lookup g k'.
Proof.
  induction g as [|[k0 v0] g IH]; simpl.
  - destruct (String.eqb_spec k k'); reflexivity.
  - destruct (String.eqb_spec k0 k) as [->|Hne]; simpl.
    + destruct (String.eqb_spec k k'); reflexivity.
    + rewrite IH. destruct (String.eqb_spec k0 k') as [->|Hne'].
      * destruct (String.eqb_spec k k'); [congruence | reflexivity].
      * reflexivity.
Qed.

Lemma keys_setdefault_append g k v :
  map fst (setdefault_append g k v)
  = if existsb (String.eqb k) (map fst g) then map fst g
    else (map fst g ++ [k])%list.
Proof.
  induction g as [|[k0 v0] g IH]; simpl; [reflexivity|].
  rewrite (String.eqb_sym k k0).
  destruct (String.eqb_spec k0 k) as [->|Hne]; simpl; [reflexivity|].
  rewrite IH. destruct (existsb (String.eqb k) (map fst g)); reflexivity.
Qed.

Lemma existsb_eqb_In k (l : list string) :
  existsb (String.eqb k) l = true <-> In k l.
Proof.
  rewrite existsb_exists. split.
  - intros (x & Hx & E). apply String.eqb_eq in E. now subst.
  - intros H. exists k. split; [exact H | apply String.eqb_refl].
Qed.

Lemma keys_setdefault_append_In g k v k' :
  In k' (map fst (setdefault_append g k v)) <-> k' = k \/ In k' (map fst g).
Proof.
  rewrite keys_setdefault_append.
  destruct (existsb (String.eqb k) (map fst g)) eqn:E.
  - apply existsb_eqb_In in E. split; [auto | intros [->|]; auto].
  - rewrite in_app_iff. simpl. intuition.
Qed.

Lemma keys_setdefault_append_NoDup g k v :
  NoDup (map fst g) -> NoDup (map fst (setdefault_append g k v)).
Proof.
  intros H. rewrite keys_setdefault_append.
  destruct (existsb (String.eqb k) (map fst g)) eqn:E; [exact H|].
  apply NoDup_app; [exact H | repeat constructor; simpl; tauto |].
  intros x Hx [<-|[]].
  apply existsb_eqb_In in Hx. congruence.
Qed.

Lemma fold_setdefault_lookup s : forall g k,
  lookup (fold_left (fun grouped e => setdefault_append grouped (fst e) (snd e)) s g) k
  = (lookup g k ++ lines_of k s)%list.
Proof.
  unfold lines_of.
  induction s as [|[k0 v0] s IH]; intros g k; simpl.
  - now rewrite app_nil_r.
  - rewrite IH, lookup_setdefault_append.
    destruct (String.eqb_spec k0 k); simpl; [now rewrite <- app_assoc | reflexivity].
Qed.

Lemma fold_setdefault_keys_In s : forall g k,
  In k (map fst (fold_left (fun grouped e => setdefault_append grouped (fst e) (snd e)) s g))
  <-> In k (map fst g) \/ In k (map fst s).
Proof.
  induction s as [|[k0 v0] s IH]; intros g k; simpl.
  - tauto.
  - rewrite IH, keys_setdefault_append_In. intuition.
Qed.

Lemma fold_setdefault_keys_NoDup s : forall g,
  NoDup (map fst g) ->
  NoDup (map fst (fold_left (fun grouped e => setdefault_append grouped (fst e) (snd e)) s g)).
Proof.
  induction s as [|[k0 v0] s IH]; intros g H; simpl; [exact H|].
  apply IH. now apply keys_setdefault_append_NoDup.
Qed.

Lemma group_by_date_lookup s k : lookup (group_by_date s) k = lines_of k s.
Proof. unfold group_by_date. now rewrite fold_setdefault_lookup. Qed.

Lemma group_by_date_keys_In s k :
  In k (map fst (group_by_date s)) <-> In k (map fst s).
Proof. unfold group_by_date. rewrite fold_setdefault_keys_In. simpl. tauto. Qed.

Lemma group_by_date_keys_NoDup s : NoDup (map fst (group_by_date s)).
Proof. unfold group_by_date. apply fold_setdefault_keys_NoDup. constructor. Qed.

(** *** Strictly sorted lists *)

Section StrictSorted.
Context {A : Type}.
Variable lt : A -> A -> bool.
Hypothesis lt_irrefl : forall a, lt a a = false.
Hypothesis lt_asym : forall a b, lt a b = true -> lt b a = false.
Hypothesis lt_trans : forall a b c, lt a b = true -> lt b c = true -> lt a c = true.
Hypothesis lt_negtrans :
  forall a b c, lt b a = false -> lt c b = false -> lt c a = false.
Hypothesis lt_total : forall a b, lt a b = true \/ a = b \/ lt b a = true.

(** Sorting a list without duplicates makes it strictly ascending. *)
Lemma sorted_strict (l : list A) :
  NoDup l -> StronglySorted (fun a b => lt a b = true) (sorted (fun a => a) lt l).
Proof.
  intros Hnd.
  assert (Hnd' : NoDup (sorted (fun a => a) lt l)).
  { eapply Permutation_NoDup; [|exact Hnd]. symmetry. apply sorted_perm. }
  pose proof (sorted_ordered (fun a => a) lt lt_asym lt_negtrans l) as Hs.
  induction Hs as [|x l' Hs IH Hx]; constructor.
  - apply IH. now inversion Hnd'.
  - inversion Hnd' as [|? ? Hnotin _]; subst.
    rewrite Forall_forall in *. intros y Hy.
    specialize (Hx y Hy). unfold in_order in Hx.
    destruct (lt_total x y) as [H | [-> | H]]; [exact H | tauto | congruence].
Qed.

(** A strictly ascending list is determined by its elements. *)
Lemma strict_sorted_unique (l1 : list A) : forall l2,
  StronglySorted (fun a b => lt a b = true) l1 ->
  StronglySorted (fun a b => lt a b = true) l2 ->
  (forall x, In x l1 <-> In x l2) ->
  l1 = l2.
Proof.
  induction l1 as [|a l1 IH]; intros [|b l2] S1 S2 Hin.
  - reflexivity.
  - exfalso. apply (proj2 (Hin b)). now left.
  - exfalso. apply (proj1 (Hin a)). now left.
  - inversion S1 as [|? ? S1' F1]; inversion S2 as [|? ? S2' F2]; subst.
    rewrite Forall_forall in F1, F2.
    assert (a = b).
    { destruct (proj1 (Hin a) (or_introl eq_refl)) as [E | Ha]; [now subst|].
      destruct (proj2 (Hin b) (or_introl eq_refl)) as [E | Hb]; [now subst|].
      pose proof (F1 b Hb) as H1. pose proof (F2 a Ha) as H2.
      apply lt_asym in H1. congruence. }
    subst b. f_equal. apply IH; [exact S1' | exact S2' |].
    intros x. split; intros Hx.
    + destruct (proj1 (Hin x) (or_intror Hx)) as [E | H]; [|exact H].
      subst x. specialize (F1 a Hx). rewrite lt_irrefl in F1. discriminate.
    + destruct (proj2 (Hin x) (or_intror Hx)) as [E | H]; [|exact H].
      subst x. specialize (F2 a Hx). rewrite lt_irrefl in F2. discriminate.
Qed.
End StrictSorted.

Lemma StronglySorted_map {A B : Type} (R : A -> A -> Prop) (S : B -> B -> Prop)
    (f : A -> B) (l : list A) :
  (forall a b, In a l -> In b l -> R a b -> S (f a) (f b)) ->
  StronglySorted R l -> StronglySorted S (map f l).
Proof.
  intros Hf Hs. induction Hs as [|a l Hs IH Ha]; simpl; constructor.
  - apply IH. intros x y Hx Hy. apply Hf; now right.
  - rewrite Forall_forall in *. intros y Hy.
    apply in_map_iff in Hy as (x & <- & Hx).
    apply Hf; [now left | now right | now apply Ha].
Qed.

(** ** The scheduler as a whole, and its display *)

Lemma tasks_sorted_perm tasks : Permutation (tasks_sorted tasks) tasks.
Proof. apply sorted_perm. Qed.

Lemma processed_incl today ts t : In t (processed today ts) -> In t ts.
Proof.
  induction ts as [|a ts IH]; simpl; [tauto|].
  destruct (overflows today a); simpl; intuition.
Qed.

Lemma processed_all today ts :
  existsb (overflows today) ts = false -> processed today ts = ts.
Proof.
  induction ts as [|a ts IH]; simpl; [reflexivity|].
  destruct (overflows today a); simpl; [discriminate|].
  intros H. now rewrite IH.
Qed.

(** The schedule is the blocks of the tasks, in order of due date. *)
Lemma generate_spec tasks c today :
  0 < today ->
  Forall (fun t => dt_date (due_date t) <= MAXORDINAL) tasks ->
  generate tasks c today =
    (flat_map (task_block today c) (processed today (tasks_sorted tasks)),
     if existsb (overflows today) (tasks_sorted tasks)
     then Raised OverflowError else Finished).
Proof.
  intros Ht Hall. unfold generate.
  rewrite for_tasks_spec; [reflexivity | exact Ht |].
  eapply Permutation_Forall; [|exact Hall]. symmetry. apply tasks_sorted_perm.
Qed.

Lemma in_task_block today c t e :
  In e (task_block today c t) <->
  e = mkEntry (entry_date e) (name t) (py_min (daily_allocation today t) c)
  /\ today <= entry_date e <= dt_date (due_date t).
Proof.
  unfold task_block, even_block, window. rewrite in_map_iff. split.
  - intros (d & <- & Hd). simpl. apply in_date_range in Hd. auto.
  - intros (E & Hd). exists (entry_date e). split; [now rewrite <- E|].
    now apply in_date_range.
Qed.

Lemma Zltb_asym a b : (a <? b) = true -> (b <? a) = false.
Proof. rewrite Z.ltb_lt, Z.ltb_ge. lia. Qed.

Lemma Zltb_negtrans a b c : (b <? a) = false -> (c <? b) = false -> (c <? a) = false.
Proof. rewrite !Z.ltb_ge. lia. Qed.

Lemma Zltb_total a b : (a <? b) = true \/ a = b \/ (b <? a) = true.
Proof. rewrite !Z.ltb_lt. lia. Qed.

Lemma dates_of_In entries d :
  In d (dates_of entries) <-> In d (map entry_date entries).
Proof.
  unfold dates_of. split; intros H.
  - apply (nodup_In Z.eq_dec).
    eapply Permutation_in; [apply (sorted_perm (fun d : Z => d) Z.ltb) | exact H].
  - apply (nodup_In Z.eq_dec) in H.
    eapply Permutation_in;
      [symmetry; apply (sorted_perm (fun d : Z => d) Z.ltb) | exact H].
Qed.

Lemma dates_of_ascending entries :
  StronglySorted (fun a b => (a <? b) = true) (dates_of entries).
Proof.
  apply sorted_strict.
  - apply Zltb_asym.
  - apply Zltb_negtrans.
  - apply Zltb_total.
  - apply NoDup_nodup.
Qed.

Lemma sorted_keys_ascending grouped :
  NoDup (map fst grouped) ->
  StronglySorted (fun a b => String.ltb a b = true) (sorted_keys grouped).
Proof.
  intros H. apply sorted_strict.
  - apply string_ltb_asym.
  - apply string_ltb_negtrans.
  - apply string_ltb_total.
  - exact H.
Qed.

(** The date groups of a schedule: the distinct dates in ascending
    order, each with its entries in the order of emission. *)
Lemma display_groups_spec entries :
  Forall (fun e => Date.valid (entry_date e) = true) entries ->
  display_groups (map schedule_line entries)
  = map (fun d => (strftime d, map entry_desc (entries_on d entries)))
        (dates_of entries).
Proof.
  intros Hv. rewrite Forall_forall in Hv. unfold display_groups.
  assert (Hvd : forall d, In d (dates_of entries) -> 1 <= d <= MAXORDINAL).
  { intros d Hd. apply dates_of_In in Hd. apply in_map_iff in Hd as (e & <- & He).
    specialize (Hv e He). unfold Date.valid in Hv.
    rewrite andb_true_iff, !Z.leb_le in Hv. exact Hv. }
  assert (Hkeys : sorted_keys (group_by_date (map schedule_line entries))
                  = map strftime (dates_of entries)).
  { apply (strict_sorted_unique String.ltb).
    - apply string_ltb_irrefl.
    - apply string_ltb_asym.
    - apply sorted_keys_ascending, group_by_date_keys_NoDup.
    - eapply StronglySorted_map; [|apply dates_of_ascending].
      intros a b Ha Hb Hab. apply Z.ltb_lt in Hab.
      apply strftime_lt; [apply Hvd in Ha | | apply Hvd in Hb]; lia.
    - intros k. unfold sorted_keys. split; intros H.
      + apply (Permutation_in _ (sorted_perm _ _ _)) in H.
        apply group_by_date_keys_In in H.
        rewrite map_map in H. apply in_map_iff in H as (e & <- & He).
        apply in_map_iff. exists (entry_date e). split; [reflexivity|].
        apply dates_of_In. now apply in_map.
      + apply in_map_iff in H as (d & <- & Hd).
        apply dates_of_In in Hd. apply in_map_iff in Hd as (e & <- & He).
        apply (Permutation_in _ (Permutation_sym (sorted_perm _ _ _))).
        apply group_by_date_keys_In. rewrite map_map.
        apply in_map_iff. now exists e. }
  rewrite Hkeys, map_map. apply map_ext_in. intros d Hd.
  f_equal. rewrite group_by_date_lookup. unfold lines_of, entries_on.
  clear Hkeys. apply Hvd in Hd. clear Hvd.
  induction entries as [|e entries IH]; [reflexivity|]. simpl.
  assert (He : 1 <= entry_date e <= MAXORDINAL).
  { specialize (Hv e (or_introl eq_refl)). unfold Date.valid in Hv.
    rewrite andb_true_iff, !Z.leb_le in Hv. exact Hv. }
  assert (Hrest : forall x, In x entries -> Date.valid (entry_date x) = true)
    by (intros x Hx; apply Hv; now right).
  destruct (Z.eqb_spec (entry_date e) d) as [->|Hne].
  - rewrite String.eqb_refl. simpl. f_equal.
    apply IH. exact Hrest.
  - destruct (String.eqb_spec (strftime (entry_date e)) (strftime d)) as [E|_].
    + exfalso. apply Hne. apply strftime_inj; [| |exact E];
        unfold Date.valid; rewrite andb_true_iff, !Z.leb_le; lia.
    + apply IH. exact Hrest.
Qed.

(* ================================================================== *)
(** * The claims of the specification                                   *)
(* ================================================================== *)

(** ** Entries of the loops, whatever the dates *)

Lemma while_current_date_entries fuel : forall task a c cur sched e,
  In e (fst (while_current_date fuel task a c cur sched)) ->
  In e sched
  \/ (task_name e = name task /\ allocated_hours e = py_min a c).
Proof.
  induction fuel as [|fuel IH]; intros task a c cur sched e; simpl; [auto|].
  destruct (cur <=? dt_date (due_date task)); [|auto].
  destruct (add_days cur 1) as [next|]; simpl.
  - intros H. apply IH in H as [H|H]; [|auto].
    apply in_app_iff in H as [H|[<-|[]]]; auto.
  - intros H. apply in_app_iff in H as [H|[<-|[]]]; auto.
Qed.

Lemma for_tasks_entries today c : forall ts sched e,
  In e (fst (for_tasks today c ts sched)) ->
  In e sched
  \/ exists t, In t ts /\ task_name e = name t
       /\ allocated_hours e = py_min (daily_allocation today t) c.
Proof.
  induction ts as [|t ts IH]; intros sched e; simpl; [auto|].
  destruct (schedule_task today c t sched) as [sched' ended] eqn:E.
  assert (Hs : forall x, In x sched' ->
            In x sched \/ (task_name x = name t
              /\ allocated_hours x = py_min (daily_allocation today t) c)).
  { intros x Hx. unfold schedule_task in E.
    eapply (while_current_date_entries (window_fuel today t)).
    rewrite E. exact Hx. }
  assert (Hstop : In e sched' ->
            In e sched \/ exists t0, In t0 (t :: ts) /\ task_name e = name t0
              /\ allocated_hours e = py_min (daily_allocation today t0) c).
  { intros H. apply Hs in H as [H|H]; [auto|]. right. exists t. simpl; auto. }
  destruct ended; simpl; try exact Hstop.
  intros H. apply IH in H as [H | (t0 & Hin & H)]; [auto|].
  right. exists t0. simpl; auto.
Qed.

(** ** C1 *)

(** C1 (the code departs from it).  The claim promises a task whose due
    date is before today exactly one entry, dated today.  The loop of
    lines 197-200 starts at [today] and runs while the date is at most
    the due date: for such a task it appends nothing, whatever the
    capacity and whatever the schedule holds already. *)
Theorem overdue_task_gets_no_entry (today : date) (c : float64) (task : Task) :
  dt_date (due_date task) < today ->
  generate [task] c today = ([], Finished)
  /\ forall sched, schedule_task today c task sched = (sched, Finished).
Proof.
  intros H.
  assert (Hs : forall sched, schedule_task today c task sched = (sched, Finished)).
  { intros sched. unfold schedule_task, window_fuel. now apply while_past_due. }
  split; [|exact Hs].
  unfold generate, tasks_sorted. simpl. now rewrite Hs.
Qed.

Lemma overdue_task_gets_no_entry_witness :
  dt_date (due_date essay) < jan 5
  /\ generate [essay] (lit 2 0) (jan 5) = ([], Finished)
  /\ forall sched, schedule_task (jan 5) (lit 2 0) essay sched = (sched, Finished).
Proof.
  split; [reflexivity|].
  apply (overdue_task_gets_no_entry (jan 5) (lit 2 0) essay). reflexivity.
Defined.

(** ** C3 *)

(** The daily allocation of a task, written out: the remaining hours,
    clamped at zero, divided by the number of days, at least one. *)
Lemma daily_allocation_unfolded (today : date) (t : Task) :
  daily_allocation today t
  = div (if ltb (sub (hours t) (completed_hours t)) zero then zero
         else sub (hours t) (completed_hours t))
        (lit (Z.max 1 (dt_date (due_date t) - today + 1)) 0).
Proof.
  unfold daily_allocation, remaining_hours, py_max, total_days, days_between.
  do 2 f_equal.
  destruct (Z.leb_spec (dt_date (due_date t) - today + 1) 0); lia.
Qed.

(** C3.  Every entry of a schedule carries, for one of the tasks, the
    minimum of that task's daily allocation and the daily capacity:
    the capacity if it is below the allocation, the allocation
    otherwise, where the allocation is the remaining hours (the hours
    less the hours completed, clamped at zero) divided by the number of
    days from today to the due date, at least one.  An entry is thus
    never above the capacity and never above the allocation.  The loop
    of a task gives every day of its window exactly this amount: when
    the capacity is below the allocation, each day gets the capacity
    and nothing more, strictly less than the even share.  The essay
    task with capacity 1.0 gets 1.0 hours on each of its four days, 4.0
    hours in all, less than the 6.0 it needs, while beside it a quiz of
    one hour over two days keeps its share of 0.5 hours a day. *)
Theorem entries_capped_not_topped_up :
  (forall tasks c today e,
     In e (fst (generate tasks c today)) ->
     exists t, In t tasks
       /\ task_name e = name t
       /\ allocated_hours e = py_min (daily_allocation today t) c
       /\ ltb c (allocated_hours e) = false
       /\ (let worked := sub (hours t) (completed_hours t) in
           let remaining := if ltb worked zero then zero else worked in
           let days := Z.max 1 (dt_date (due_date t) - today + 1) in
           let share := div remaining (lit days 0) in
           allocated_hours e = (if ltb c share then c else share)
           /\ ltb share (allocated_hours e) = false))
  /\ (forall today c t,
        ltb c (daily_allocation today t) = true ->
        task_block today c t = even_block today t c
        /\ forall e, In e (task_block today c t) ->
             ltb (allocated_hours e) (daily_allocation today t) = true)
  /\ (forall today c t sched,
        0 < today ->
        dt_date (due_date t) <= MAXORDINAL ->
        let worked := sub (hours t) (completed_hours t) in
        let remaining := if ltb worked zero then zero else worked in
        let days := Z.max 1 (dt_date (due_date t) - today + 1) in
        let share := div remaining (lit days 0) in
        fst (schedule_task today c t sched)
        = (sched ++ map (fun d => mkEntry d (name t)
                                    (if ltb c share then c else share))
                      (date_range today (dt_date (due_date t))))%list
        /\ (ltb c share = true ->
            forall e, In e (fst (schedule_task today c t sched)) ->
              In e sched
              \/ (allocated_hours e = c /\ ltb (allocated_hours e) share = true)))
  /\ generate [essay] (lit 1 0) (jan 1) = (four_days "Essay" (lit 1 0), Finished)
  /\ total_hours (four_days "Essay" (lit 1 0)) = lit 4 0
  /\ ltb (lit 4 0) (remaining_hours essay) = true
  /\ generate [essay; Task_init "Quiz" (lit 1 0) (midnight (jan 2))] (lit 1 0) (jan 1)
     = ([mkEntry (jan 1) "Quiz" (lit 1 (-1)); mkEntry (jan 2) "Quiz" (lit 1 (-1));
         mkEntry (jan 1) "Essay" (lit 1 0); mkEntry (jan 2) "Essay" (lit 1 0);
         mkEntry (jan 3) "Essay" (lit 1 0); mkEntry (jan 4) "Essay" (lit 1 0)],
        Finished).
Proof.
  split; [|split; [|split; [|split; [|split; [|split]]]]].
  - intros tasks c today e H. unfold generate in H.
    apply for_tasks_entries in H as [[] | (t & Hin & Hn & Hh)].
    exists t. split; [|split; [|split; [|split]]].
    + eapply Permutation_in; [apply tasks_sorted_perm | exact Hin].
    + exact Hn.
    + exact Hh.
    + rewrite Hh. apply py_min_not_above.
    + cbv zeta. rewrite <- daily_allocation_unfolded, Hh.
      split; [reflexivity | apply py_min_not_above_left].
  - intros today c t H. unfold task_block. rewrite (py_min_right _ _ H).
    split; [reflexivity|].
    intros e He. unfold even_block in He.
    apply in_map_iff in He as (d & <- & _). exact H.
  - intros today c t sched Ht Hd. cbv zeta.
    rewrite <- daily_allocation_unfolded.
    rewrite schedule_task_spec by assumption. cbn [fst].
    split; [reflexivity|].
    intros Hcap e He. apply in_app_iff in He as [He|He]; [now left|].
    right. unfold task_block, even_block, py_min in He. rewrite Hcap in He.
    apply in_map_iff in He as (d & <- & _). cbn [allocated_hours]. auto.
  - vm_compute. reflexivity.
  - vm_compute. reflexivity.
  - vm_compute. reflexivity.
  - vm_compute. reflexivity.
Qed.

(** ** C4 *)

(** C4.  Two tasks that share a day can together exceed the daily
    capacity on it: each is capped on its own.  With the math and essay
    tasks and a capacity of 1.0, both have 2024-01-01 in their window,
    each gets 1.0 hours that day, and the day's total is 2.0. *)
Theorem shared_day_exceeds_capacity :
  exists (tasks : list Task) (c : float64) (today d : date),
    (2 <= List.length tasks)%nat
    /\ Forall (fun t => In d (window today t)) tasks
    /\ List.length (entries_on d (fst (generate tasks c today))) = List.length tasks
    /\ Forall (fun e => ltb c (allocated_hours e) = false)
         (entries_on d (fst (generate tasks c today)))
    /\ ltb c (total_hours (entries_on d (fst (generate tasks c today)))) = true.
Proof.
  exists [essay; math], (lit 1 0), (jan 1), (jan 1).
  split; [simpl; lia|].
  split; [repeat constructor; vm_compute; auto|].
  split; [vm_compute; reflexivity|].
  split; [vm_compute; repeat constructor | vm_compute; reflexivity].
Qed.

(** ** C5 *)

(** C5.  The tasks are processed in the order of a stable sort by due
    date: a permutation of the task list, ascending in due date, in which
    tasks of equal due date keep their input order; the schedule is the
    blocks of the tasks in that order.  The display lists the distinct
    dates of the schedule in ascending order, and under each date the
    entries of that date in the order in which they were emitted. *)
Theorem sorted_by_due_date_grouped_by_date (tasks : list Task) (c : float64)
    (today : date) :
  Date.valid today = true ->
  Forall (fun t => Date.valid (dt_date (due_date t)) = true) tasks ->
  Permutation (tasks_sorted tasks) tasks
  /\ StronglySorted (in_order due_date dt_ltb) (tasks_sorted tasks)
  /\ (forall due, filter (fun t => dt_eqb (due_date t) due) (tasks_sorted tasks)
                  = filter (fun t => dt_eqb (due_date t) due) tasks)
  /\ fst (generate tasks c today)
     = flat_map (task_block today c) (processed today (tasks_sorted tasks))
  /\ (snd (generate tasks c today) = Finished ->
      processed today (tasks_sorted tasks) = tasks_sorted tasks)
  /\ display_groups (map schedule_line (fst (generate tasks c today)))
     = map (fun d => (strftime d,
                      map entry_desc (entries_on d (fst (generate tasks c today)))))
           (dates_of (fst (generate tasks c today)))
  /\ StronglySorted Z.lt (dates_of (fst (generate tasks c today))).
Proof.
  intros Ht Hall. unfold Date.valid in Ht.
  rewrite andb_true_iff, !Z.leb_le in Ht.
  assert (Hall' : Forall (fun t => dt_date (due_date t) <= MAXORDINAL) tasks).
  { eapply Forall_impl; [|exact Hall]. intros t Hv. unfold Date.valid in Hv.
    rewrite andb_true_iff, !Z.leb_le in Hv. lia. }
  split; [apply tasks_sorted_perm|].
  split; [apply sorted_ordered; [apply dt_ltb_asym | apply dt_ltb_negtrans]|].
  split.
  { intros due. apply sorted_stable. intros a b Hlt Ha.
    unfold dt_ltb in Hlt. unfold dt_eqb in *.
    rewrite andb_true_iff, !Z.eqb_eq in Ha.
    rewrite orb_true_iff, andb_true_iff, !Z.ltb_lt, Z.eqb_eq in Hlt.
    rewrite andb_false_iff, !Z.eqb_neq. lia. }
  rewrite generate_spec by (assumption || lia). simpl.
  split; [reflexivity|].
  split.
  { destruct (existsb (overflows today) (tasks_sorted tasks)) eqn:E;
      [discriminate|]. intros _. now apply processed_all. }
  split.
  - apply display_groups_spec. apply Forall_forall. intros e He.
    apply in_flat_map in He as (t & Hin & He).
    apply processed_incl in Hin.
    apply (Permutation_in _ (tasks_sorted_perm tasks)) in Hin.
    rewrite Forall_forall in Hall'. specialize (Hall' t Hin).
    apply in_task_block in He as (_ & Hd).
    unfold Date.valid. rewrite andb_true_iff, !Z.leb_le. lia.
  - match goal with |- StronglySorted _ (dates_of ?es) =>
      pose proof (dates_of_ascending es) as Hs end.
    induction Hs as [|d ds Hs IH Hd]; constructor; [exact IH|].
    eapply Forall_impl; [|exact Hd]. intros b Hb. now apply Z.ltb_lt.
Qed.

Lemma sorted_by_due_date_grouped_by_date_witness :
  Date.valid (jan 1) = true
  /\ Forall (fun t => Date.valid (dt_date (due_date t)) = true) [essay; math]
  /\ tasks_sorted [essay; math] = [math; essay]
  /\ map fst (display_groups (map schedule_line
                                (fst (generate [essay; math] (lit 1 0) (jan 1)))))
     = ["2024-01-01"; "2024-01-02"; "2024-01-03"; "2024-01-04"].
Proof.
  split; [reflexivity|].
  split; [repeat constructor|].
  split; [reflexivity|].
  destruct (sorted_by_due_date_grouped_by_date [essay; math] (lit 1 0) (jan 1))
    as (_ & _ & _ & _ & _ & E & _).
  - reflexivity.
  - repeat constructor.
  - rewrite E. rewrite map_map. simpl. vm_compute. reflexivity.
Defined.

(** ** C2 *)

Lemma even_block_dates today t h :
  map entry_date (even_block today t h) = window today t.
Proof. unfold even_block. rewrite map_map. simpl. apply map_id. Qed.

Lemma total_days_due_later today t N :
  days_between (dt_date (due_date t)) today = N -> 0 <= N ->
  total_days today t = N + 1.
Proof.
  unfold total_days. intros -> HN.
  destruct (Z.leb_spec (N + 1) 0); lia.
Qed.

Lemma exact_total_even_block today t h :
  exact_total (even_block today t h)
  = Z.of_nat (List.length (window today t)) * scaled 1074 h.
Proof.
  unfold exact_total, even_block. rewrite map_map. cbn [allocated_hours].
  induction (window today t) as [|d ds IH]; [reflexivity|].
  cbn [map fold_right List.length]. rewrite IH, Nat2Z.inj_succ. lia.
Qed.

(** The share of a finite amount of hours among a number of days. *)
Lemma share_error (R : float64) (n : Z) :
  Float64.valid R = true -> is_finite R = true -> 1 <= n < 2 ^ 53 ->
  is_finite (div R (lit n 0)) = true
  /\ 2 ^ 53 * Z.abs (n * scaled 1074 (div R (lit n 0)) - scaled 1074 R)
     <= Z.max (Z.abs (scaled 1074 R)) (n * 2 ^ 52).
Proof.
  intros Hv Hf Hn. destruct R as [s|s| |s m e]; try discriminate.
  - destruct (lit_count n Hn) as (my & ey & -> & _).
    cbn [div SFdiv is_finite scaled]. split; [reflexivity|].
    rewrite Z.mul_0_r. cbn [Z.sub Z.opp Z.add Z.abs].
    rewrite Z.mul_0_r. apply Z.le_trans with (n * 2 ^ 52); [|apply Z.le_max_r].
    apply Z.mul_nonneg_nonneg; [lia | apply Z.pow_nonneg; lia].
  - now apply div_by_count_error.
Qed.

Lemma share_of_infinite (R : float64) (n : Z) :
  is_finite R = false -> 1 <= n < 2 ^ 53 -> div R (lit n 0) = R.
Proof.
  intros Hf Hn. destruct (lit_count n Hn) as (my & ey & -> & _).
  destruct R as [s|s| |s m e]; try discriminate; cbn [div SFdiv];
    [|reflexivity].
  now rewrite xorb_false_r.
Qed.

(** The tasks the application creates, with no hours completed, have
    well-formed remaining hours as soon as their hours are. *)
Lemma remaining_hours_init_valid (name : string) (h : float64) (due : datetime) :
  Float64.valid h = true ->
  Float64.valid (remaining_hours (Task_init name h due)) = true.
Proof.
  intros Hv. unfold remaining_hours, Task_init, py_max. cbn [hours completed_hours].
  destruct (ltb (sub h zero) zero); [reflexivity|].
  destruct h as [[]|s| |s m e]; cbn; try reflexivity. exact Hv.
Qed.

(** C2.  A task due [N >= 0] days after today, whose remaining hours [R]
    shared among the [N + 1] days of its window stay within the daily
    capacity, gets one entry for each date from today to its due date,
    each of [R / (N + 1)] hours: in its own loop, in the schedule of the
    task alone, and as a block of any schedule that is generated to the
    end.  For finite [R] the share is finite, and the exact sum of the
    entries differs from [R] by at most [2^-53] of [R], or by [N + 1]
    halves of the least positive float where the share is subnormal; an
    infinite [R] is the share of every day.  For the essay task with a
    capacity of 2.0 from 2024-01-01: four entries of 1.5 hours, which add
    up to 6.0. *)
Theorem even_split_within_capacity (today : date) (c : float64) (task : Task)
    (N : Z) :
  0 < today ->
  dt_date (due_date task) <= MAXORDINAL ->
  days_between (dt_date (due_date task)) today = N ->
  0 <= N ->
  Float64.valid (remaining_hours task) = true ->
  leb (div (remaining_hours task) (lit (N + 1) 0)) c = true ->
  let R := remaining_hours task in
  let share := div R (lit (N + 1) 0) in
  (forall sched,
     fst (schedule_task today c task sched)
     = (sched ++ even_block today task share)%list)
  /\ fst (generate [task] c today) = even_block today task share
  /\ (forall tasks,
        In task tasks ->
        Forall (fun t => dt_date (due_date t) <= MAXORDINAL) tasks ->
        snd (generate tasks c today) = Finished ->
        exists before after,
          fst (generate tasks c today)
          = (before ++ even_block today task share ++ after)%list)
  /\ map entry_date (even_block today task share)
     = date_range today (dt_date (due_date task))
  /\ Z.of_nat (List.length (even_block today task share)) = N + 1
  /\ exact_total (even_block today task share) = (N + 1) * scaled 1074 share
  /\ (is_finite R = true ->
      is_finite share = true
      /\ 2 ^ 53 * Z.abs (exact_total (even_block today task share) - scaled 1074 R)
         <= Z.max (Z.abs (scaled 1074 R)) ((N + 1) * 2 ^ 52))
  /\ (is_finite R = false -> share = R)
  /\ generate [essay] (lit 2 0) (jan 1) = (four_days "Essay" (lit 3 (-1)), Finished)
  /\ total_hours (four_days "Essay" (lit 3 (-1))) = lit 6 0.
Proof.
  intros Ht Hmax HN HN0 Hv Hle R share.
  assert (Hblock : task_block today c task = even_block today task share).
  { unfold task_block, daily_allocation.
    rewrite (total_days_due_later _ _ _ HN HN0).
    now rewrite (py_min_left _ _ Hle). }
  assert (Hlen : Z.of_nat (List.length (window today task)) = N + 1).
  { unfold window. rewrite date_range_length. unfold days_between in HN. lia. }
  assert (Hn : 1 <= N + 1 < 2 ^ 53).
  { unfold days_between, MAXORDINAL in *. change (2 ^ 53) with 9007199254740992. lia. }
  assert (Hsum : exact_total (even_block today task share)
                 = (N + 1) * scaled 1074 share)
    by (rewrite exact_total_even_block, Hlen; reflexivity).
  split; [|split; [|split; [|split; [|split; [|split; [|split; [|split; [|split]]]]]]]].
  - intros sched. rewrite schedule_task_spec by assumption.
    cbn [fst]. now rewrite Hblock.
  - rewrite generate_spec by (assumption || (repeat constructor; assumption)).
    cbn [fst tasks_sorted sorted fold_right insert_sorted processed].
    destruct (overflows today task); cbn [flat_map]; rewrite Hblock;
      apply app_nil_r.
  - intros tasks Hin Hall Hfin.
    rewrite generate_spec in Hfin |- * by assumption. cbn [fst snd] in *.
    destruct (existsb (overflows today) (tasks_sorted tasks)) eqn:E;
      [discriminate|].
    rewrite (processed_all _ _ E).
    assert (Hin' : In task (tasks_sorted tasks)).
    { eapply Permutation_in; [symmetry; apply tasks_sorted_perm | exact Hin]. }
    apply in_split in Hin' as (l1 & l2 & ->).
    exists (flat_map (task_block today c) l1), (flat_map (task_block today c) l2).
    rewrite flat_map_app. cbn [flat_map]. now rewrite Hblock.
  - apply even_block_dates.
  - unfold even_block. rewrite length_map. exact Hlen.
  - exact Hsum.
  - intros Hf. rewrite Hsum. now apply share_error.
  - intros Hf. now apply share_of_infinite.
  - vm_compute. reflexivity.
  - vm_compute. reflexivity.
Qed.

Lemma even_split_within_capacity_witness :
  0 < jan 1
  /\ dt_date (due_date essay) <= MAXORDINAL
  /\ days_between (dt_date (due_date essay)) (jan 1) = 3
  /\ Float64.valid (remaining_hours essay) = true
  /\ leb (div (remaining_hours essay) (lit (3 + 1) 0)) (lit 2 0) = true
  /\ fst (generate [essay] (lit 2 0) (jan 1))
     = even_block (jan 1) essay (div (remaining_hours essay) (lit (3 + 1) 0))
  /\ exact_total (even_block (jan 1) essay
                    (div (remaining_hours essay) (lit (3 + 1) 0)))
     = scaled 1074 (remaining_hours essay).
Proof.
  split; [reflexivity|]. split; [discriminate|]. split; [reflexivity|].
  split; [reflexivity|]. split; [reflexivity|].
  destruct (even_split_within_capacity (jan 1) (lit 2 0) essay 3)
    as (_ & E & _ & _ & _ & S & _); try reflexivity; try discriminate.
  split; [exact E|]. rewrite S. vm_compute. reflexivity.
Defined.

(** ** The countdown thread on its own *)

Lemma set_timer_running_same (a : App) :
  set_timer_running (timer_running a) a = a.
Proof. now destruct a. Qed.

Lemma countdown_run_app (l1 l2 : list float64) (a : App) (p : pc) :
  countdown_run (l1 ++ l2) a p
  = countdown_run l2 (fst (countdown_run l1 a p)) (snd (countdown_run l1 a p)).
Proof.
  revert a p. induction l1 as [|now l1 IH]; intros a p; simpl; [reflexivity|].
  destruct (countdown_step now a p) as [a' p']. apply IH.
Qed.

Lemma countdown_run_Done (l : list float64) (a : App) :
  countdown_run l a Done = (a, Done).
Proof. induction l as [|now l IH]; simpl; auto. Qed.

(** From the final test on, with the flag set: six steps to the end. *)
Lemma countdown_run_complete (l : list float64) (a : App) :
  timer_running a = true ->
  (6 <= List.length l)%nat ->
  countdown_run l a AtFinalTest = (completed a, Done).
Proof.
  intros Hf Hl.
  do 6 (destruct l as [|? l]; [simpl in Hl; lia|]).
  cbn [countdown_run countdown_step]. rewrite Hf.
  cbn. apply countdown_run_Done.
Qed.

(** The ticks of a countdown: the thread is back at the loop test, and
    only the timer label has changed. *)
Lemma countdown_run_ticks (end_time : float64) (ticks : list (float64 * float64)) :
  forall a, timer_running a = true ->
  Forall (ticks_on end_time) ticks ->
  exists label,
    countdown_run (tick_readings ticks) a (AtLoopTest end_time)
    = (set_timer_label label a, AtLoopTest end_time).
Proof.
  induction ticks as [|[t1 t2] ticks IH]; intros a Hf Hall.
  - exists (timer_label a). simpl. now destruct a.
  - inversion Hall as [|? ? [Hlt (r & Hr)] Hrest]; subst. simpl in Hlt, Hr.
    destruct (IH (set_timer_label (time_str r) a) Hf Hrest) as (label & E).
    exists label. cbn [tick_readings flat_map fst snd List.app countdown_run].
    cbn [countdown_step]. rewrite Hf, Hlt. cbn [andb countdown_step].
    rewrite Hr. fold (tick_readings ticks). rewrite E. reflexivity.
Qed.

Lemma completed_set_timer_label (label : string) (a : App) :
  completed (set_timer_label label a) = completed a.
Proof. reflexivity. Qed.

(** ** C6 *)

(** C6.  While the flag of a running session is set, [start_focus_session]
    reports the invalid state and changes nothing: the application object
    and the threads, hence the running countdown and its deadline, the
    number of threads and the points, are as before. *)
Theorem start_while_running_is_rejected {B : Builtins}
    (answer : option string) (w : World) :
  timer_running (app w) = true ->
  fst (start_focus_session answer w) = w
  /\ fails_with InvalidState (snd (start_focus_session answer w)).
Proof.
  intros H. unfold start_focus_session. rewrite H. simpl.
  split; [reflexivity|]. split; [reflexivity|].
  eexists. split; reflexivity.
Qed.

Lemma start_while_running_is_rejected_witness :
  let w := mkWorld (set_timer_running true App_init) [AtLoopTest (lit 1500 0)] in
  timer_running (app w) = true
  /\ fst (start_focus_session (B := Reference.builtins) (Some "25") w) = w
  /\ fails_with InvalidState
       (snd (start_focus_session (B := Reference.builtins) (Some "25") w)).
Proof.
  split; [reflexivity|].
  apply (start_while_running_is_rejected (B := Reference.builtins) (Some "25")
           (mkWorld (set_timer_running true App_init) [AtLoopTest (lit 1500 0)])).
  reflexivity.
Defined.

(** ** C9 *)

(** While a session runs, what the user does leaves the flag, the points
    and the two labels of the timer as they are: the countdown thread is
    the only one to write them. *)
Lemma user_event_frame {B : Builtins} (w : World) (e : event) :
  timer_running (app w) = true ->
  (forall i now, e <> ThreadStep i now) ->
  threads (step w e) = threads w
  /\ timer_running (app (step w e)) = true
  /\ points (app (step w e)) = points (app w)
  /\ timer_label (app (step w e)) = timer_label (app w)
  /\ points_label (app (step w e)) = points_label (app w).
Proof.
  intros Hf Hne. destruct e as [n h d | | today answer | answer | i now].
  - cbn. auto.
  - cbn [step threads app]. unfold add_task.
    destruct (_ || _); [cbn; auto|].
    destruct (float_of_str _); [|cbn; auto].
    destruct (strptime_ymd _); cbn; auto.
  - cbn [step threads app]. unfold generate_schedule.
    destruct (tasks (app w)); [cbn; auto|].
    destruct (daily_hours (app w)).
    + destruct (generate _ _ _) as [entries [| |]]; cbn; auto.
    + destruct answer as [answer|]; [|cbn; auto].
      destruct (float_of_str answer) as [h|]; [|cbn; auto].
      destruct (leb h zero); [cbn; auto|].
      destruct (generate _ _ _) as [entries [| |]]; cbn; auto.
  - cbn [step]. unfold start_focus_session. rewrite Hf. cbn. auto.
  - exfalso. now apply (Hne i now).
Qed.

(** C9.  A session started for [seconds] seconds whose flag stays set
    ticks as long as the clock reads less than its end time, and at the
    first test that reads the end time or later it ends: the timer label
    shows the completion message, the points have grown by exactly 10
    and the flag is reset.  A session that finds the flag cleared at a
    test of its loop ends at once: no further countdown text, no points,
    the application object is as it was.  While the flag is set, no
    action of the user changes what the countdown reads and writes. *)
Theorem countdown_completes_or_is_cancelled :
  (forall (a : App) (seconds : Z) (s start_time last : float64)
          (ticks : list (float64 * float64)) (rest : list float64),
     timer_running a = true ->
     of_int seconds = Some s ->
     Forall (ticks_on (add start_time s)) ticks ->
     ltb last (add start_time s) = false ->
     (6 <= List.length rest)%nat ->
     countdown_run (start_time :: tick_readings ticks ++ last :: rest)%list
       a (AtStart seconds)
     = (completed a, Done)
       /\ points (completed a) = points a + 10
       /\ timer_label (completed a) = "专注完成！"
       /\ timer_running (completed a) = false)
  /\ (forall (a : App) (end_time now : float64) (rest : list float64),
        timer_running a = false ->
        (2 <= List.length rest)%nat ->
        countdown_run (now :: rest) a (AtLoopTest end_time) = (a, Done))
  /\ (forall (B : Builtins) (w : World) (e : event),
        timer_running (app w) = true ->
        (forall i now, e <> ThreadStep i now) ->
        threads (step w e) = threads w
        /\ timer_running (app (step w e)) = true
        /\ points (app (step w e)) = points (app w)
        /\ timer_label (app (step w e)) = timer_label (app w)
        /\ points_label (app (step w e)) = points_label (app w)).
Proof.
  split; [|split].
  - intros a seconds s start_time last ticks rest Hf Hs Hticks Hlast Hrest.
    split; [|repeat split].
    cbn [countdown_run countdown_step]. rewrite Hs.
    rewrite countdown_run_app.
    destruct (countdown_run_ticks _ _ a Hf Hticks) as (label & ->).
    cbn [fst snd countdown_run countdown_step].
    replace (timer_running (set_timer_label label a)) with true
      by (symmetry; exact Hf).
    rewrite Hlast. cbn [andb].
    rewrite countdown_run_complete by (assumption || exact Hf).
    now rewrite completed_set_timer_label.
  - intros a end_time now rest Hf Hrest.
    do 2 (destruct rest as [|? rest]; [simpl in Hrest; lia|]).
    cbn [countdown_run countdown_step]. rewrite Hf. cbn [andb countdown_step].
    rewrite Hf. cbn [countdown_step].
    rewrite <- Hf at 1. rewrite set_timer_running_same.
    apply countdown_run_Done.
  - intros B w e. apply user_event_frame.
Qed.

(** ** The process: invariants *)

Lemma set_nth_same (l : list pc) : forall i p,
  nth_error l i = Some p -> set_nth i p l = l.
Proof.
  induction l as [|q l IH]; intros [|i] p; simpl; try discriminate.
  - now intros [= ->].
  - intros H. now rewrite IH.
Qed.

Lemma set_nth_last (l : list pc) (p p' : pc) :
  set_nth (List.length l) p' (l ++ [p]) = (l ++ [p'])%list.
Proof. induction l as [|q l IH]; simpl; [reflexivity | now rewrite IH]. Qed.

Lemma all_done_nth (l : list pc) (i : nat) (p : pc) :
  all_done l -> nth_error l i = Some p -> p = Done.
Proof.
  intros H E. apply nth_error_In in E. unfold all_done in H.
  rewrite Forall_forall in H. now apply H.
Qed.

Ltac app_simpl :=
  cbn [fst snd paid countdown_step points timer_running tasks schedule
       set_timer_label set_points set_points_label set_timer_running
       set_focus_thread set_entry_vars app threads] in *.

Section WorldFacts.
Context {B : Builtins}.

Lemma add_task_frame (a : App) :
  timer_running (fst (add_task a)) = timer_running a
  /\ points (fst (add_task a)) = points a
  /\ schedule (fst (add_task a)) = schedule a
  /\ (tasks (fst (add_task a)) = tasks a
      \/ exists t, tasks (fst (add_task a)) = (tasks a ++ [t])%list).
Proof.
  unfold add_task.
  destruct (_ || _); [simpl; auto|].
  destruct (float_of_str _); [|simpl; auto].
  destruct (strptime_ymd _); simpl; eauto 6.
Qed.

Lemma generate_schedule_frame today answer (a : App) :
  timer_running (fst (generate_schedule today answer a)) = timer_running a
  /\ points (fst (generate_schedule today answer a)) = points a
  /\ tasks (fst (generate_schedule today answer a)) = tasks a.
Proof.
  unfold generate_schedule.
  destruct (tasks a) eqn:Et; [simpl; auto|].
  destruct (daily_hours a).
  - destruct (generate _ _ _) as [entries ended].
    destruct ended; simpl; auto.
  - destruct answer as [answer|]; [|simpl; auto].
    destruct (float_of_str answer) as [h|]; [|simpl; auto].
    destruct (leb h zero); [simpl; auto|].
    destruct (generate _ _ _) as [entries ended].
    destruct ended; simpl; auto.
Qed.

Lemma countdown_step_frame now (a : App) (p : pc) :
  tasks (fst (countdown_step now a p)) = tasks a
  /\ schedule (fst (countdown_step now a p)) = schedule a.
Proof.
  destruct p; simpl; auto.
  - destruct (of_int seconds); auto.
  - destruct (_ && _); auto.
  - destruct (to_int _); auto.
  - destruct (timer_running a); auto.
Qed.

(** A thread that has returned does nothing more. *)
Lemma step_Done (w : World) (i : nat) (now : float64) :
  nth_error (threads w) i = Some Done -> step w (ThreadStep i now) = w.
Proof.
  intros H. simpl. rewrite H. simpl. rewrite (set_nth_same _ _ _ H).
  now destruct w.
Qed.

Lemma step_no_thread (w : World) (i : nat) (now : float64) :
  nth_error (threads w) i = None -> step w (ThreadStep i now) = w.
Proof. intros H. simpl. now rewrite H. Qed.

(** The step of the running thread. *)
Lemma step_running (a : App) (dones : list pc) (p : pc) (now : float64) :
  step (mkWorld a (dones ++ [p])) (ThreadStep (List.length dones) now)
  = mkWorld (fst (countdown_step now a p))
            (dones ++ [snd (countdown_step now a p)]).
Proof.
  simpl. rewrite nth_error_app2, Nat.sub_diag by lia. simpl.
  destruct (countdown_step now a p) as [a' p']. simpl.
  now rewrite set_nth_last.
Qed.

Lemma nth_error_running (dones : list pc) (p q : pc) (i : nat) :
  all_done dones -> nth_error (dones ++ [p]) i = Some q ->
  (q = Done /\ (i < List.length dones)%nat) \/ (q = p /\ i = List.length dones).
Proof.
  intros Hd E. destruct (Nat.lt_ge_cases i (List.length dones)) as [Hi|Hi].
  - rewrite nth_error_app1 in E by exact Hi. left. split; [|exact Hi].
    eapply all_done_nth; eauto.
  - rewrite nth_error_app2 in E by exact Hi.
    destruct (i - List.length dones)%nat as [|k] eqn:Ek; simpl in E.
    + injection E as <-. right. split; [reflexivity | lia].
    + destruct k; discriminate.
Qed.

(** The countdown step of the running thread keeps the world
    consistent. *)
Lemma consistent_step_running (a : App) (dones : list pc) (p : pc) (now : float64) :
  all_done dones -> timer_running a = true -> p <> Done ->
  points a = 10 * Z.of_nat (List.length dones) + (if paid p then 10 else 0) ->
  (forall loaded, p = AtAwardStore loaded -> loaded = points a) ->
  consistent (step (mkWorld a (dones ++ [p])) (ThreadStep (List.length dones) now)).
Proof.
  intros Hd Hf Hp Hpts Hld. rewrite step_running.
  destruct p; app_simpl.
  - destruct (of_int seconds); app_simpl;
      (apply consistent_busy; app_simpl; auto; try discriminate).
  - rewrite Hf. cbn [andb]. destruct (ltb now end_time); app_simpl;
      (apply consistent_busy; app_simpl; auto; try discriminate).
  - destruct (to_int _); app_simpl;
      (apply consistent_busy; app_simpl; auto; try discriminate).
  - rewrite Hf. app_simpl. apply consistent_busy; app_simpl; auto; discriminate.
  - apply consistent_busy; app_simpl; auto; discriminate.
  - apply consistent_busy; app_simpl; auto; try discriminate.
    intros loaded [= <-]. reflexivity.
  - apply consistent_busy; app_simpl; auto; try discriminate.
    rewrite (Hld loaded eq_refl). lia.
  - apply consistent_busy; app_simpl; auto; discriminate.
  - apply consistent_idle.
    + apply Forall_app. split; [exact Hd | repeat constructor].
    + reflexivity.
    + app_simpl. rewrite length_app, Nat2Z.inj_add.
      change (Z.of_nat (List.length [Done])) with 1. lia.
  - congruence.
  - apply consistent_busy; app_simpl; auto; discriminate.
Qed.

(** Consistency looks at the flag and the points only. *)
Lemma consistent_frame (a a' : App) (ths : list pc) :
  timer_running a' = timer_running a -> points a' = points a ->
  consistent (mkWorld a ths) -> consistent (mkWorld a' ths).
Proof.
  intros Ef Ep Hc.
  inversion Hc as [a0 dones Hd Hf Hp | a0 dones p Hd Hf Hnd Hp Hl]; subst.
  - apply consistent_idle; congruence.
  - apply consistent_busy; try congruence.
    intros loaded E. rewrite Ep. now apply Hl.
Qed.

Lemma consistent_step (w : World) (e : event) :
  consistent w -> consistent (step w e).
Proof.
  intros Hc. destruct e as [n h d | | today answer | answer | i now].
  - destruct w as [a ths]. now apply (consistent_frame a).
  - destruct w as [a ths].
    destruct (add_task_frame a) as (Ef & Ep & _).
    now apply (consistent_frame a).
  - destruct w as [a ths].
    destruct (generate_schedule_frame today answer a) as (Ef & Ep & _).
    now apply (consistent_frame a).
  - cbn [step]. unfold start_focus_session.
    inversion Hc as [a dones Hd Hf Hp | a dones p Hd Hf Hnd Hp Hl]; subst;
      app_simpl; rewrite Hf; cbn [fst]; [|exact Hc].
    destruct answer as [answer|]; [|exact Hc].
    destruct (int_of_str answer) as [minutes|]; [|exact Hc].
    destruct (minutes <=? 0); [exact Hc|]. cbn [fst].
    apply consistent_busy; app_simpl; auto; try discriminate. lia.
  - inversion Hc as [a dones Hd Hf Hp | a dones p Hd Hf Hnd Hp Hl]; subst.
    + destruct (nth_error dones i) as [q|] eqn:E.
      * assert (q = Done) by (eapply all_done_nth; eauto). subst q.
        rewrite step_Done by exact E. exact Hc.
      * rewrite step_no_thread by exact E. exact Hc.
    + destruct (nth_error (dones ++ [p]) i) as [q|] eqn:E.
      * destruct (nth_error_running _ _ _ _ Hd E) as [[-> _] | [-> ->]].
        -- rewrite step_Done by exact E. exact Hc.
        -- now apply consistent_step_running.
      * rewrite step_no_thread by exact E. exact Hc.
Qed.

Lemma reachable_consistent (w : World) : reachable w -> consistent w.
Proof.
  induction 1 as [|w e _ IH].
  - apply (consistent_idle App_init []); [constructor | reflexivity | reflexivity].
  - now apply consistent_step.
Qed.

Lemma run_snoc (w : World) (es : list event) (e : event) :
  run w (es ++ [e]) = step (run w es) e.
Proof. unfold run. now rewrite fold_left_app. Qed.

Lemma reachable_run (es : list event) : reachable (run World_init es).
Proof.
  induction es as [|e es IH] using rev_ind; [constructor|].
  rewrite run_snoc. now constructor.
Qed.

End WorldFacts.

Section Ledger.
Context {B : Builtins}.

Lemma points_added_by_snoc (i : nat) (es : list event) (e : event) :
  forall w,
  points_added_by i w (es ++ [e])
  = points_added_by i w es + points_added_at i (run w es) e.
Proof.
  induction es as [|e0 es IH]; intros w.
  - cbn [List.app points_added_by run fold_left]. unfold points_added_at.
    destruct e; lia.
  - cbn [List.app points_added_by]. rewrite IH.
    change (run w (e0 :: es)) with (run (step w e0) es). lia.
Qed.

(** The step of the running thread adds ten points exactly when the
    thread passes line 230. *)
Lemma countdown_step_paid (a : App) (p : pc) (now : float64) :
  timer_running a = true ->
  (forall loaded, p = AtAwardStore loaded -> loaded = points a) ->
  (if paid (snd (countdown_step now a p)) then 10 else 0)
  = (if paid p then 10 else 0)
    + (points (fst (countdown_step now a p)) - points a).
Proof.
  intros Hf Hl. destruct p; app_simpl; try lia.
  - destruct (of_int seconds); app_simpl; lia.
  - destruct (_ && _); app_simpl; lia.
  - destruct (to_int _); app_simpl; lia.
  - rewrite Hf. app_simpl. lia.
  - rewrite (Hl loaded eq_refl). lia.
Qed.

Lemma step_paid_points (w : World) (i : nat) (e : event) :
  consistent w ->
  paid_points (threads (step w e)) i
  = paid_points (threads w) i + points_added_at i w e.
Proof.
  intros Hc. destruct e as [n h d | | today answer | answer | j now];
    try (cbn [step threads points_added_at]; lia).
  - cbn [points_added_at step]. unfold start_focus_session.
    destruct (timer_running (app w)); [cbn [fst]; lia|].
    destruct answer as [answer|]; [|cbn [fst]; lia].
    destruct (int_of_str answer) as [minutes|]; [|cbn [fst]; lia].
    destruct (minutes <=? 0); cbn [fst threads]; [lia|].
    unfold paid_points.
    destruct (Nat.lt_ge_cases i (List.length (threads w))) as [Hi|Hi].
    + rewrite nth_error_app1 by exact Hi. lia.
    + rewrite nth_error_app2 by exact Hi.
      rewrite (proj2 (nth_error_None (threads w) i) Hi).
      destruct (i - List.length (threads w))%nat as [|[|k]]; cbn; lia.
  - unfold points_added_at.
    inversion Hc as [a dones Hd Hf Hp | a dones p Hd Hf Hnd Hp Hl]; subst.
    + destruct (nth_error dones j) as [q|] eqn:E.
      * assert (q = Done) by (eapply all_done_nth; eauto). subst q.
        rewrite step_Done by exact E. destruct (Nat.eqb i j); lia.
      * rewrite step_no_thread by exact E. destruct (Nat.eqb i j); lia.
    + destruct (nth_error (dones ++ [p]) j) as [q|] eqn:E.
      * destruct (nth_error_running _ _ _ _ Hd E) as [[-> _] | [-> ->]].
        -- rewrite step_Done by exact E. destruct (Nat.eqb i j); lia.
        -- rewrite step_running. cbn [threads app]. unfold paid_points.
           destruct (Nat.eqb_spec i (List.length dones)) as [->|Hne].
           ++ rewrite !nth_error_app2, Nat.sub_diag by lia. cbn [nth_error].
              now apply countdown_step_paid.
           ++ destruct (Nat.lt_ge_cases i (List.length dones)) as [Hi|Hi].
              ** rewrite !nth_error_app1 by exact Hi. lia.
              ** rewrite !nth_error_app2 by exact Hi.
                 destruct (i - List.length dones)%nat as [|[|k]] eqn:Ek;
                   [lia | cbn; lia | cbn; lia].
      * rewrite step_no_thread by exact E. destruct (Nat.eqb i j); lia.
Qed.

(** Along every run, a thread has added ten points if it is past line
    230 and none otherwise. *)
Lemma points_added_by_run (i : nat) (es : list event) :
  points_added_by i World_init es
  = paid_points (threads (run World_init es)) i.
Proof.
  induction es as [|e es IH] using rev_ind.
  - cbn. unfold paid_points. now destruct i.
  - rewrite points_added_by_snoc, run_snoc, IH.
    rewrite step_paid_points; [reflexivity|].
    apply reachable_consistent, reachable_run.
Qed.

(** No event lowers the points. *)
Lemma step_points_mono (w : World) (e : event) :
  consistent w -> points (app w) <= points (app (step w e)).
Proof.
  intros Hc. destruct e as [n h d | | today answer | answer | j now].
  - cbn. lia.
  - cbn [step app]. destruct (add_task_frame (app w)) as (_ & -> & _). lia.
  - cbn [step app].
    destruct (generate_schedule_frame today answer (app w)) as (_ & -> & _). lia.
  - cbn [step]. unfold start_focus_session.
    destruct (timer_running (app w)); [cbn; lia|].
    destruct answer as [answer|]; [|cbn; lia].
    destruct (int_of_str answer) as [minutes|]; [|cbn; lia].
    destruct (minutes <=? 0); cbn; lia.
  - pose proof (step_paid_points w j (ThreadStep j now) Hc) as H.
    unfold points_added_at in H. rewrite Nat.eqb_refl in H.
    assert (Hb : forall l, 0 <= paid_points l j <= 10).
    { intros l. unfold paid_points.
      destruct (nth_error l j) as [q|]; [destruct (paid q)|]; lia. }
    inversion Hc as [a dones Hd Hf Hp | a dones p Hd Hf Hnd Hp Hl]; subst.
    + destruct (nth_error dones j) as [q|] eqn:E.
      * assert (q = Done) by (eapply all_done_nth; eauto). subst q.
        rewrite step_Done by exact E. lia.
      * rewrite step_no_thread by exact E. lia.
    + destruct (nth_error (dones ++ [p]) j) as [q|] eqn:E.
      * destruct (nth_error_running _ _ _ _ Hd E) as [[-> _] | [-> ->]].
        -- rewrite step_Done by exact E. lia.
        -- rewrite step_running. cbn [app].
           destruct p; app_simpl; try lia.
           ++ destruct (of_int seconds); app_simpl; lia.
           ++ destruct (_ && _); app_simpl; lia.
           ++ destruct (to_int _); app_simpl; lia.
           ++ destruct (timer_running a); app_simpl; lia.
           ++ rewrite (Hl loaded eq_refl). lia.
      * rewrite step_no_thread by exact E. lia.
Qed.

Lemma consistent_points_nonneg (w : World) : consistent w -> 0 <= points (app w).
Proof.
  inversion 1 as [a dones Hd Hf Hp | a dones p Hd Hf Hnd Hp Hl]; subst;
    cbn [app]; rewrite Hp; [|destruct (paid p)]; lia.
Qed.

End Ledger.

Lemma countdown_completes_or_is_cancelled_witness :
  let a := set_timer_running true App_init in
  let readings :=
    [lit 1000 0; lit 1001 0; lit 1002 0; lit 1005 0;
     lit 1005 0; lit 1005 0; lit 1005 0; lit 1005 0; lit 1005 0; lit 1005 0] in
  (countdown_run readings a (AtStart 5) = (completed a, Done)
   /\ points (completed a) = 10)
  /\ countdown_run [lit 1001 0; lit 1002 0; lit 1003 0] App_init
       (AtLoopTest (lit 1005 0)) = (App_init, Done).
Proof.
  destruct countdown_completes_or_is_cancelled as (Hrun & Hcancel & _).
  split.
  - destruct (Hrun (set_timer_running true App_init) 5 (lit 5 0) (lit 1000 0)
                (lit 1005 0) [(lit 1001 0, lit 1002 0)]
                [lit 1005 0; lit 1005 0; lit 1005 0; lit 1005 0; lit 1005 0; lit 1005 0])
      as (E & P & _).
    + reflexivity.
    + reflexivity.
    + repeat constructor. exists 3. reflexivity.
    + reflexivity.
    + simpl. lia.
    + split; [exact E | exact P].
  - apply (Hcancel App_init (lit 1005 0) (lit 1001 0) [lit 1002 0; lit 1003 0]).
    + reflexivity.
    + simpl. lia.
Defined.

(** ** C10 *)

Section SessionClaims.
Context {B : Builtins}.

Lemma countdown_step_to_Done (now : float64) (a : App) (p : pc) :
  p <> Done -> snd (countdown_step now a p) = Done ->
  p = AtReset /\ timer_running (fst (countdown_step now a p)) = false.
Proof.
  intros Hp. destruct p; cbn [countdown_step]; try (cbn; discriminate).
  - destruct (of_int seconds); cbn; discriminate.
  - destruct (_ && _); cbn; discriminate.
  - destruct (to_int _); cbn; discriminate.
  - destruct (timer_running a); cbn; discriminate.
  - cbn. auto.
  - congruence.
Qed.

(** C10.  Along every run of the process from its start: each
    countdown thread has added either nothing or exactly ten points,
    and exactly ten once it has returned; the step by which a thread
    returns leaves the flag cleared, and with the flag cleared the
    next start is accepted; the points are never negative and no event
    lowers them. *)
Theorem sessions_award_once_points_never_drop (es : list event) :
  let w := run World_init es in
  (forall i, points_added_by i World_init es = 0
             \/ points_added_by i World_init es = 10)
  /\ (forall i, nth_error (threads w) i = Some Done ->
                points_added_by i World_init es = 10)
  /\ (forall i now p,
        nth_error (threads w) i = Some p -> p <> Done ->
        nth_error (threads (step w (ThreadStep i now))) i = Some Done ->
        timer_running (app (step w (ThreadStep i now))) = false)
  /\ (timer_running (app w) = false ->
      forall answer minutes,
        int_of_str answer = Some minutes -> 0 < minutes ->
        threads (step w (ClickFocus (Some answer)))
        = (threads w ++ [AtStart (minutes * 60)])%list
        /\ timer_running (app (step w (ClickFocus (Some answer)))) = true)
  /\ 0 <= points (app w)
  /\ (forall e, points (app w) <= points (app (step w e))).
Proof.
  cbv zeta.
  assert (Hc : consistent (run World_init es))
    by apply reachable_consistent, reachable_run.
  pose proof (fun i => points_added_by_run i es) as Ha.
  set (w := run World_init es) in *. clearbody w.
  split; [|split; [|split; [|split; [|split]]]].
  - intros i. rewrite Ha. unfold paid_points.
    destruct (nth_error (threads w) i) as [q|]; [destruct (paid q)|]; auto.
  - intros i H. rewrite Ha. unfold paid_points. now rewrite H.
  - intros i now p E Hp Hdone.
    inversion Hc as [a dones Hd Hf Hpt | a dones q Hd Hf Hnd Hpt Hl]; subst.
    + cbn [threads] in E.
      exfalso. apply Hp. eapply all_done_nth; eauto.
    + cbn [threads] in E.
      destruct (nth_error_running _ _ _ _ Hd E) as [[-> _] | [-> ->]];
        [congruence|].
      rewrite step_running in Hdone |- *. cbn [threads app] in *.
      rewrite nth_error_app2, Nat.sub_diag in Hdone by lia.
      cbn [nth_error] in Hdone. injection Hdone as Hdone.
      now apply countdown_step_to_Done.
  - intros Hf answer minutes Hm Hpos. cbn [step]. unfold start_focus_session.
    rewrite Hf, Hm.
    replace (minutes <=? 0) with false by (symmetry; apply Z.leb_gt; lia).
    cbn. auto.
  - now apply consistent_points_nonneg.
  - intros e. now apply step_points_mono.
Qed.

(** A session can also die.  A duration too large for a float makes
    [start_time + seconds] raise [OverflowError] in the thread, which
    then never reaches the reset of the flag: the flag stays set
    whatever happens next, and every later start is refused. *)
Lemma stuck_step (w : World) (e : event) : stuck w -> stuck (step w e).
Proof.
  intros (dones & x & Ht & Hd & Hf).
  assert (Huser : forall e, (forall i now, e <> ThreadStep i now) ->
                             stuck (step w e)).
  { intros e' He'. destruct (user_event_frame w e' Hf He') as (Et & Ef & _).
    exists dones, x. rewrite Et. auto. }
  destruct e as [n h d | | today answer | answer | i now];
    try (apply Huser; discriminate).
  clear Huser.
  destruct w as [a ths]. cbn [threads app] in *. subst ths.
  cbn [step threads app].
  destruct (nth_error (dones ++ [Crashed x]) i) as [p|] eqn:E;
    [|exists dones, x; auto].
  destruct (nth_error_running _ _ _ _ Hd E) as [[-> Hi] | [-> ->]];
    cbn [countdown_step].
  - rewrite (set_nth_same _ _ _ E). exists dones, x. auto.
  - rewrite set_nth_last. exists dones, x. auto.
Qed.

Lemma stuck_run (es : list event) : forall w, stuck w -> stuck (run w es).
Proof.
  induction es as [|e es IH]; intros w H; [exact H|].
  apply (IH (step w e)). now apply stuck_step.
Qed.

Lemma overflowing_session_blocks_timer (w : World) (answer : string)
    (minutes : Z) (now : float64) (es : list event) :
  reachable w ->
  timer_running (app w) = false ->
  int_of_str answer = Some minutes ->
  0 < minutes ->
  of_int (minutes * 60) = None ->
  let w' := run w (ClickFocus (Some answer)
                   :: ThreadStep (List.length (threads w)) now :: es) in
  timer_running (app w') = true
  /\ (forall answer', step w' (ClickFocus answer') = w').
Proof.
  intros Hr Hf Hm Hpos Hov w'.
  assert (Hs : stuck w').
  { subst w'.
    change (stuck (run (step (step w (ClickFocus (Some answer)))
                             (ThreadStep (List.length (threads w)) now)) es)).
    apply stuck_run.
    apply reachable_consistent in Hr.
    inversion Hr as [a dones Hd Hf' Hpt | a dones q Hd Hf' Hnd Hpt Hl];
      subst; cbn [app threads] in *; [|congruence].
    assert (E1 : step (mkWorld a dones) (ClickFocus (Some answer))
                 = mkWorld (set_focus_thread (Some (List.length dones))
                              (set_timer_running true a))
                           (dones ++ [AtStart (minutes * 60)])).
    { cbn [step]. unfold start_focus_session. cbn [app threads].
      rewrite Hf, Hm.
      replace (minutes <=? 0) with false by (symmetry; apply Z.leb_gt; lia).
      reflexivity. }
    rewrite E1, step_running. cbn [countdown_step]. rewrite Hov.
    cbn [fst snd]. exists dones, OverflowError. auto. }
  destruct Hs as (dones & x & _ & _ & Hf').
  split; [exact Hf'|].
  intros answer'. cbn [step]. unfold start_focus_session. now rewrite Hf'.
Qed.

End SessionClaims.

(** Ten to the power 400 minutes: [int] accepts the text, the float
    addition in the thread does not. *)
Example overflowing_session_example :
  let w := run (B := Reference.builtins) World_init
             [ClickFocus (Some ("1" ++ Reference.zeros 400));
              ThreadStep 0 (lit 1000 0)] in
  threads w = [Crashed OverflowError] /\ timer_running (app w) = true.
Proof. vm_compute. split; reflexivity. Qed.


(** ** C8 *)

Section ScheduleClaims.
Context {B : Builtins}.

Lemma start_focus_session_frame (answer : option string) (w : World) :
  tasks (app (fst (start_focus_session answer w))) = tasks (app w)
  /\ schedule (app (fst (start_focus_session answer w))) = schedule (app w).
Proof.
  unfold start_focus_session.
  destruct (timer_running (app w)); [cbn; auto|].
  destruct answer as [answer|]; [|cbn; auto].
  destruct (int_of_str answer) as [minutes|]; [|cbn; auto].
  destruct (minutes <=? 0); cbn; auto.
Qed.

(** Tasks are never removed, and only a generation over some tasks
    fills the schedule. *)
Lemma reachable_schedule_needs_tasks (w : World) :
  reachable w -> tasks (app w) = [] -> schedule (app w) = [].
Proof.
  induction 1 as [|w e _ IH]; [reflexivity|].
  destruct e as [n h d | | today answer | answer | i now]; cbn [step app].
  - exact IH.
  - destruct (add_task_frame (app w)) as (_ & _ & -> & [-> | (t & ->)]);
      [exact IH|].
    intros H. now apply app_eq_nil in H as [_ H].
  - destruct (generate_schedule_frame today answer (app w)) as (_ & _ & Et).
    rewrite Et. intros H. unfold generate_schedule. rewrite H. cbn. auto.
  - destruct (start_focus_session_frame answer w) as (-> & ->). exact IH.
  - destruct (nth_error (threads w) i) as [p|]; [|exact IH].
    destruct (countdown_step_frame now (app w) p) as (Et & Es).
    destruct (countdown_step now (app w) p) as [a' p'].
    cbn [fst app] in *. rewrite Et, Es. exact IH.
Qed.

(** C8.  On the empty task list the scheduler raises nothing and
    yields the empty list of entries.  Called on an application that
    holds no task, [generate_schedule] raises nothing and returns at
    once; the schedule it leaves is empty, since no earlier call can
    have filled it: every state the application reaches without tasks
    has an empty schedule. *)
Theorem empty_task_list_empty_schedule (w : World) (today : date)
    (answer : option string) :
  reachable w ->
  tasks (app w) = [] ->
  (forall c, generate (tasks (app w)) c today = ([], Finished))
  /\ raised (snd (generate_schedule today answer (app w))) = None
  /\ schedule (fst (generate_schedule today answer (app w))) = [].
Proof.
  intros Hr Ht. split; [|split].
  - intros c. now rewrite Ht.
  - unfold generate_schedule. now rewrite Ht.
  - unfold generate_schedule. rewrite Ht. cbn [fst].
    now apply reachable_schedule_needs_tasks.
Qed.

End ScheduleClaims.

Lemma empty_task_list_empty_schedule_witness :
  reachable (B := Reference.builtins) World_init
  /\ tasks (app World_init) = []
  /\ raised (snd (generate_schedule (B := Reference.builtins) (jan 1) (Some "2")
                    (app World_init))) = None
  /\ schedule (fst (generate_schedule (B := Reference.builtins) (jan 1) (Some "2")
                      (app World_init))) = [].
Proof.
  split; [constructor|]. split; [reflexivity|].
  destruct (empty_task_list_empty_schedule (B := Reference.builtins)
              World_init (jan 1) (Some "2")) as (_ & H1 & H2).
  - constructor.
  - reflexivity.
  - split; [exact H1 | exact H2].
Defined.

(** ** C7 *)

Section AddTaskClaims.
Context {B : Builtins}.

(** The inputs [add_task] refuses: an empty field, hours that are not
    a number, a date that is not of the format.  It shows a warning
    and changes nothing. *)
Lemma add_task_rejects (a : App) :
  str_strip (task_name_var a) = ""
  \/ str_strip (task_hours_var a) = ""
  \/ str_strip (task_due_var a) = ""
  \/ float_of_str (str_strip (task_hours_var a)) = None
  \/ strptime_ymd (str_strip (task_due_var a)) = None ->
  fst (add_task a) = a /\ fails_with InvalidInput (snd (add_task a)).
Proof.
  intros H. unfold add_task.
  assert (Hw : forall t m, fails_with InvalidInput (returned [showwarning t m])).
  { intros t m. split; [reflexivity|]. eexists. split; reflexivity. }
  destruct (String.eqb_spec (str_strip (task_name_var a)) "") as [E1|N1];
    [cbn; auto|].
  destruct (String.eqb_spec (str_strip (task_hours_var a)) "") as [E2|N2];
    [cbn; auto|].
  destruct (String.eqb_spec (str_strip (task_due_var a)) "") as [E3|N3];
    [cbn; auto|].
  cbn [orb].
  destruct (float_of_str _) as [h|] eqn:Eh; [|cbn; auto].
  destruct (strptime_ymd _) as [d|] eqn:Ed; [|cbn; auto].
  destruct H as [H | [H | [H | [H | H]]]]; congruence.
Qed.

(** C7 (the code departs from it).  The claim has [add_task] refuse
    hours that are not positive.  The method checks that the hours
    parse as a number and nothing more: with the three fields filled,
    hours that parse to any float, zero or negative included, and a
    well-formed date, it appends the task and shows no warning. *)
Theorem add_task_accepts_non_positive_hours (a : App) (h : float64)
    (due : datetime) :
  str_strip (task_name_var a) <> "" ->
  str_strip (task_hours_var a) <> "" ->
  str_strip (task_due_var a) <> "" ->
  float_of_str (str_strip (task_hours_var a)) = Some h ->
  leb h zero = true ->
  strptime_ymd (str_strip (task_due_var a)) = Some due ->
  tasks (fst (add_task a))
  = (tasks a ++ [Task_init (str_strip (task_name_var a)) h due])%list
  /\ snd (add_task a) = returned [].
Proof.
  intros N1 N2 N3 Eh _ Ed. unfold add_task.
  destruct (String.eqb_spec (str_strip (task_name_var a)) ""); [contradiction|].
  destruct (String.eqb_spec (str_strip (task_hours_var a)) ""); [contradiction|].
  destruct (String.eqb_spec (str_strip (task_due_var a)) ""); [contradiction|].
  cbn [orb]. rewrite Eh, Ed. cbn. auto.
Qed.

End AddTaskClaims.

Lemma add_task_accepts_non_positive_hours_witness :
  let a := set_entry_vars "Essay" "-3" "2024-01-04" App_init in
  leb (lit (-3) 0) zero = true
  /\ tasks (fst (add_task (B := Reference.builtins) a))
     = [Task_init "Essay" (lit (-3) 0) (midnight (jan 4))]
  /\ snd (add_task (B := Reference.builtins) a) = returned [].
Proof.
  split; [reflexivity|].
  apply (add_task_accepts_non_positive_hours (B := Reference.builtins)
           (set_entry_vars "Essay" "-3" "2024-01-04" App_init)
           (lit (-3) 0) (midnight (jan 4)));
    try reflexivity; discriminate.
Defined.

(* ================================================================== *)
(** * Further properties of the scheduler                               *)
(* ================================================================== *)

Lemma ltb_of_sign_clear (x : float64) : sign_clear x = true -> ltb x zero = false.
Proof. destruct x as [[]|[]| |[] m e]; cbn; congruence. Qed.

Lemma binary_round_aux_sign_clear (m e : Z) (l : location) :
  sign_clear (binary_round_aux prec emax false m e l) = true.
Proof.
  unfold binary_round_aux.
  destruct (shr_fexp prec emax m e l) as [mrs e'].
  destruct (shr_fexp prec emax _ e' loc_Exact) as [mrs' e''].
  destruct (shr_m mrs'); [reflexivity | | reflexivity].
  destruct (e'' <=? emax - prec); reflexivity.
Qed.

Lemma lit_sign_clear (n : Z) : 0 <= n -> sign_clear (lit n 0) = true.
Proof.
  intros Hn. destruct n as [|p|p]; [reflexivity | | lia].
  unfold lit, binary_normalize, binary_round.
  destruct (shl_align _ _ _) as [mz ez]. apply binary_round_aux_sign_clear.
Qed.

(** A quotient of a float that is not negative by one whose sign is
    clear is not negative. *)
Lemma div_not_negative (x y : float64) :
  ltb x zero = false -> sign_clear y = true -> ltb (div x y) zero = false.
Proof.
  intros Hx Hy.
  destruct x as [sx|sx| |sx mx ex], y as [sy|sy| |sy my ey];
    cbn [sign_clear] in Hy; try (apply negb_true_iff in Hy; subst sy);
    try reflexivity;
    try (destruct sx; try discriminate Hx; reflexivity).
  destruct sx; [discriminate Hx|].
  unfold div, SFdiv.
  destruct (SFdiv_core_binary prec emax (Z.pos mx) ex (Z.pos my) ey)
    as [[mz ez] lz].
  apply ltb_of_sign_clear, binary_round_aux_sign_clear.
Qed.

Lemma remaining_hours_not_negative (t : Task) : ltb (remaining_hours t) zero = false.
Proof.
  unfold remaining_hours, py_max.
  destruct (ltb (sub (hours t) (completed_hours t)) zero) eqn:E;
    [reflexivity | exact E].
Qed.

Lemma total_days_pos (today : date) (t : Task) : 1 <= total_days today t.
Proof. unfold total_days. destruct (Z.leb_spec (days_between (dt_date (due_date t)) today + 1) 0); lia. Qed.

Lemma ltb_leb (x y : float64) : ltb x y = true -> leb x y = true.
Proof.
  unfold ltb, leb, SFltb, SFleb. destruct (SFcompare x y) as [[]|]; congruence.
Qed.

Lemma daily_allocation_not_negative (today : date) (t : Task) :
  ltb (daily_allocation today t) zero = false.
Proof.
  unfold daily_allocation. apply div_not_negative.
  - apply remaining_hours_not_negative.
  - apply lit_sign_clear. pose proof (total_days_pos today t). lia.
Qed.

(** *** The entries of the loops, with their dates *)

Lemma while_current_date_window fuel : forall task a c cur sched e,
  In e (fst (while_current_date fuel task a c cur sched)) ->
  In e sched
  \/ (task_name e = name task /\ allocated_hours e = py_min a c
      /\ cur <= entry_date e <= dt_date (due_date task)).
Proof.
  induction fuel as [|fuel IH]; intros task a c cur sched e; cbn [while_current_date];
    [auto|].
  destruct (Z.leb_spec cur (dt_date (due_date task))) as [Hle|Hgt]; [|auto].
  assert (Hnew : In e (sched ++ [mkEntry cur (name task) (py_min a c)]) ->
                 In e sched
                 \/ (task_name e = name task /\ allocated_hours e = py_min a c
                     /\ cur <= entry_date e <= dt_date (due_date task))).
  { intros H. apply in_app_iff in H as [H|[<-|[]]]; [auto|].
    right. cbn. repeat split; lia. }
  unfold add_days.
  destruct ((0 <? cur + 1) && (cur + 1 <=? MAXORDINAL)); cbn [fst]; [|exact Hnew].
  intros H. apply IH in H as [H | (Hn & Hh & Hd)]; [auto|].
  right. repeat split; (assumption || lia).
Qed.

Lemma for_tasks_window today c : forall ts sched e,
  In e (fst (for_tasks today c ts sched)) ->
  In e sched
  \/ exists t, In t ts /\ task_name e = name t
       /\ allocated_hours e = py_min (daily_allocation today t) c
       /\ today <= entry_date e <= dt_date (due_date t).
Proof.
  induction ts as [|t ts IH]; intros sched e; cbn [for_tasks]; [auto|].
  destruct (schedule_task today c t sched) as [sched' ended] eqn:E.
  assert (Hs : In e sched' ->
            In e sched \/ exists t0, In t0 (t :: ts) /\ task_name e = name t0
              /\ allocated_hours e = py_min (daily_allocation today t0) c
              /\ today <= entry_date e <= dt_date (due_date t0)).
  { intros H. unfold schedule_task in E.
    pose proof (while_current_date_window (window_fuel today t) t
                  (daily_allocation today t) c today sched e) as Hw.
    rewrite E in Hw. destruct (Hw H) as [|Hn]; [auto|].
    right. exists t. split; [now left | exact Hn]. }
  destruct ended; cbn [fst]; try exact Hs.
  intros H. apply IH in H as [H | (t0 & Hin & H)]; [auto|].
  right. exists t0. split; [now right | exact H].
Qed.

Lemma generate_window tasks c today e :
  In e (fst (generate tasks c today)) ->
  exists t, In t tasks /\ task_name e = name t
    /\ allocated_hours e = py_min (daily_allocation today t) c
    /\ today <= entry_date e <= dt_date (due_date t).
Proof.
  intros H. apply for_tasks_window in H as [[] | (t & Hin & H)].
  exists t. split; [|exact H].
  eapply Permutation_in; [apply tasks_sorted_perm | exact Hin].
Qed.

(** X1.  With a capacity that passed the check of line 176 (it is not
    [<= 0]), no entry of a schedule has negative hours, whatever hours
    the tasks were entered with: [remaining_hours] clamps at zero, the
    number of days is at least one, and [min] picks one of the two. *)
Theorem entries_never_negative (tasks : list Task) (c : float64) (today : date)
    (e : ScheduleEntry) :
  leb c zero = false ->
  In e (fst (generate tasks c today)) ->
  ltb (allocated_hours e) zero = false.
Proof.
  intros Hc H. apply generate_window in H as (t & _ & _ & -> & _).
  unfold py_min. destruct (ltb c (daily_allocation today t)).
  - destruct (ltb c zero) eqn:E; [|reflexivity].
    apply ltb_leb in E. congruence.
  - apply daily_allocation_not_negative.
Qed.

Lemma entries_never_negative_witness :
  leb (lit 2 0) zero = false
  /\ ltb (allocated_hours (mkEntry (jan 1) "Essay" (lit 3 (-1)))) zero = false.
Proof.
  split; [reflexivity|].
  apply (entries_never_negative [essay] (lit 2 0) (jan 1)); [reflexivity|].
  vm_compute. auto.
Defined.

(** X2.  No entry is dated before today or after the due date of its
    task: every entry of a schedule, generated to the end or not, bears
    the name of a task of the list and a date from today to that task's
    due date.  A task that is overdue has no date to offer. *)
Theorem entries_within_window (tasks : list Task) (c : float64) (today : date)
    (e : ScheduleEntry) :
  In e (fst (generate tasks c today)) ->
  exists t, In t tasks
    /\ task_name e = name t
    /\ today <= entry_date e <= dt_date (due_date t)
    /\ ~ overdue today t.
Proof.
  intros H. apply generate_window in H as (t & Hin & Hn & _ & Hd).
  exists t. unfold overdue. repeat split; (assumption || lia).
Qed.

Lemma entries_within_window_witness :
  exists t, In t [essay; math]
    /\ task_name (mkEntry (jan 2) "Math" (lit 1 0)) = name t
    /\ jan 1 <= entry_date (mkEntry (jan 2) "Math" (lit 1 0)) <= dt_date (due_date t)
    /\ ~ overdue (jan 1) t.
Proof.
  apply (entries_within_window [essay; math] (lit 1 0) (jan 1)).
  vm_compute. auto 10.
Defined.

(** *** Tasks entered with hours that are not positive *)

Lemma remaining_hours_non_positive (n : string) (h : float64) (due : datetime) :
  leb h zero = true ->
  exists s, remaining_hours (Task_init n h due) = S754_zero s.
Proof.
  unfold remaining_hours, Task_init. cbn [hours completed_hours].
  destruct h as [[]|[]| |[] m e]; cbn; try discriminate; eexists; reflexivity.
Qed.

Lemma ltb_zero_of_not_leb (c : float64) (s : bool) :
  leb c zero = false -> ltb c (S754_zero s) = false.
Proof. destruct c as [[]|[]| |[] m e]; cbn; congruence. Qed.

Lemma total_days_valid (today : date) (t : Task) :
  Date.valid today = true -> Date.valid (dt_date (due_date t)) = true ->
  1 <= total_days today t < 2 ^ 53.
Proof.
  unfold Date.valid, total_days, days_between, MAXORDINAL.
  rewrite !andb_true_iff, !Z.leb_le. intros [? ?] [? ?].
  change (2 ^ 53) with 9007199254740992.
  destruct (Z.leb_spec (dt_date (due_date t) - today + 1) 0); lia.
Qed.

(** X3.  A task entered with hours that are zero or negative is kept
    (nothing checks the sign) and scheduled with zero hours: on every
    day of its window it gets an entry of [0.0] or [-0.0] hours. *)
Theorem non_positive_hours_get_zero_entries (n : string) (h : float64)
    (due : datetime) (c : float64) (today : date) :
  Date.valid today = true ->
  Date.valid (dt_date due) = true ->
  leb h zero = true ->
  leb c zero = false ->
  exists s, forall sched,
    schedule_task today c (Task_init n h due) sched
    = ((sched ++ even_block today (Task_init n h due) (S754_zero s))%list,
       if overflows today (Task_init n h due) then Raised OverflowError
       else Finished).
Proof.
  intros Ht Hd Hh Hc.
  destruct (remaining_hours_non_positive n h due Hh) as (s' & HR).
  destruct (lit_count _ (total_days_valid today (Task_init n h due) Ht Hd))
    as (my & ey & Hlit & _).
  exists (xorb s' false). intros sched.
  rewrite schedule_task_spec.
  - unfold task_block, daily_allocation. rewrite HR, Hlit.
    cbn [div SFdiv]. unfold py_min.
    now rewrite (ltb_zero_of_not_leb c _ Hc).
  - unfold Date.valid in Ht. rewrite andb_true_iff, !Z.leb_le in Ht. lia.
  - unfold Date.valid in Hd. rewrite andb_true_iff, !Z.leb_le in Hd.
    cbn [due_date Task_init]. lia.
Qed.

Lemma non_positive_hours_get_zero_entries_witness :
  exists s, forall sched,
    schedule_task (jan 1) (lit 2 0) (Task_init "Essay" (lit (-3) 0) (midnight (jan 4))) sched
    = ((sched ++ even_block (jan 1) (Task_init "Essay" (lit (-3) 0) (midnight (jan 4)))
                   (S754_zero s))%list,
       if overflows (jan 1) (Task_init "Essay" (lit (-3) 0) (midnight (jan 4)))
       then Raised OverflowError else Finished).
Proof.
  apply (non_positive_hours_get_zero_entries "Essay" (lit (-3) 0) (midnight (jan 4))
           (lit 2 0) (jan 1)); reflexivity.
Defined.

(** *** When the schedule is empty *)

Lemma while_current_date_prefix fuel : forall task a c cur sched,
  exists more, fst (while_current_date fuel task a c cur sched) = (sched ++ more)%list.
Proof.
  induction fuel as [|fuel IH]; intros task a c cur sched; cbn [while_current_date].
  - exists []. now rewrite app_nil_r.
  - destruct (cur <=? dt_date (due_date task)); [|exists []; now rewrite app_nil_r].
    destruct (add_days cur 1) as [next|].
    + destruct (IH task a c next (sched ++ [mkEntry cur (name task) (py_min a c)])%list)
        as (more & ->).
      eexists. now rewrite <- app_assoc.
    + eexists. reflexivity.
Qed.

Lemma schedule_task_overdue today c t sched :
  overdue today t -> schedule_task today c t sched = (sched, Finished).
Proof. intros H. unfold schedule_task, window_fuel. now apply while_past_due. Qed.

Lemma schedule_task_due today c t sched :
  ~ overdue today t ->
  exists e more, fst (schedule_task today c t sched) = (sched ++ e :: more)%list.
Proof.
  unfold overdue. intros H. unfold schedule_task, window_fuel.
  cbn [while_current_date].
  destruct (Z.leb_spec today (dt_date (due_date t))) as [_|Hlt]; [|lia].
  destruct (add_days today 1) as [next|].
  - match goal with |- context [while_current_date ?f ?t ?a ?c ?n ?s] =>
      destruct (while_current_date_prefix f t a c n s) as (more & ->) end.
    eexists _, more. now rewrite <- app_assoc.
  - eexists _, []. reflexivity.
Qed.

Lemma for_tasks_prefix today c : forall ts sched,
  exists more, fst (for_tasks today c ts sched) = (sched ++ more)%list.
Proof.
  induction ts as [|t ts IH]; intros sched; cbn [for_tasks].
  - exists []. now rewrite app_nil_r.
  - pose proof (while_current_date_prefix (window_fuel today t) t
                  (daily_allocation today t) c today sched) as (more & E).
    fold (schedule_task today c t sched) in E.
    destruct (schedule_task today c t sched) as [sched' ended]. cbn [fst] in E.
    subst sched'.
    destruct ended; try (exists more; reflexivity).
    destruct (IH (sched ++ more)%list) as (more' & ->).
    exists (more ++ more')%list. now rewrite app_assoc.
Qed.

Lemma for_tasks_overdue today c : forall ts sched,
  Forall (overdue today) ts -> for_tasks today c ts sched = (sched, Finished).
Proof.
  induction ts as [|t ts IH]; intros sched H; cbn [for_tasks]; [reflexivity|].
  inversion H as [|? ? Ht Hts]; subst.
  rewrite (schedule_task_overdue _ _ _ _ Ht). now apply IH.
Qed.

Lemma for_tasks_due today c : forall ts sched,
  Exists (fun t => ~ overdue today t) ts ->
  exists e more, fst (for_tasks today c ts sched) = (sched ++ e :: more)%list.
Proof.
  induction ts as [|t ts IH]; intros sched H; [inversion H|].
  cbn [for_tasks].
  destruct (Z_lt_dec (dt_date (due_date t)) today) as [Ho|Hd].
  - rewrite (schedule_task_overdue _ _ _ _ Ho).
    apply IH. inversion H as [? ? H1|? ? H1]; subst; [contradiction | exact H1].
  - destruct (schedule_task_due today c t sched Hd) as (e & more & E).
    destruct (schedule_task today c t sched) as [sched' ended]. cbn [fst] in E.
    subst sched'.
    destruct ended; try (exists e, more; reflexivity).
    destruct (for_tasks_prefix today c ts (sched ++ e :: more)%list) as (more' & ->).
    exists e, (more ++ more')%list. now rewrite <- app_assoc.
Qed.

Lemma generate_all_overdue tasks c today :
  Forall (overdue today) tasks -> generate tasks c today = ([], Finished).
Proof.
  intros H. apply for_tasks_overdue.
  eapply Permutation_Forall; [symmetry; apply tasks_sorted_perm | exact H].
Qed.

(** X4.  The schedule comes out empty exactly when every task is
    overdue, and then, with tasks in the list and a capacity set,
    [generate_schedule] ends without a dialog, holds no entry and
    shows the text of line 205. *)
Theorem schedule_empty_iff_all_overdue (tasks0 : list Task) (c : float64)
    (today : date) :
  (fst (generate tasks0 c today) = [] <-> Forall (overdue today) tasks0)
  /\ (forall (B : Builtins) (a : App) (answer : option string),
        tasks a = tasks0 -> tasks0 <> [] -> daily_hours a = Some c ->
        Forall (overdue today) tasks0 ->
        schedule (fst (generate_schedule today answer a)) = []
        /\ schedule_text (fst (generate_schedule today answer a)) = "没有安排。"
        /\ snd (generate_schedule today answer a) = returned []).
Proof.
  split; [split|].
  - intros E.
    destruct (Forall_Exists_dec (overdue today)
                (fun t => Z_lt_dec (dt_date (due_date t)) today) tasks0)
      as [H|H]; [exact H|].
    exfalso.
    assert (H' : Exists (fun t => ~ overdue today t) (tasks_sorted tasks0)).
    { apply Exists_exists in H as (t & Hin & Ht). apply Exists_exists.
      exists t. split; [|exact Ht].
      eapply Permutation_in; [symmetry; apply tasks_sorted_perm | exact Hin]. }
    destruct (for_tasks_due today c _ [] H') as (e & more & E').
    unfold generate in E. rewrite E in E'. discriminate E'.
  - intros H. now rewrite generate_all_overdue.
  - intros B a answer Ea Hne Hc H. unfold generate_schedule.
    rewrite Ea. destruct tasks0 as [|t ts]; [congruence|].
    rewrite Hc. cbn [tasks set_daily_hours]. rewrite Ea.
    rewrite (generate_all_overdue _ _ _ H). cbn. auto.
Qed.

Lemma schedule_empty_iff_all_overdue_witness :
  fst (generate [essay; math] (lit 2 0) (jan 5)) = []
  /\ fst (generate [essay; math] (lit 2 0) (jan 4)) <> [].
Proof.
  destruct (schedule_empty_iff_all_overdue [essay; math] (lit 2 0) (jan 5))
    as [[_ H5] _].
  destruct (schedule_empty_iff_all_overdue [essay; math] (lit 2 0) (jan 4))
    as [[H4 _] _].
  split.
  - apply H5. repeat constructor.
  - intros E. apply H4 in E. inversion E as [|? ? Hessay _]; subst.
    revert Hessay. vm_compute. discriminate.
Defined.

(** *** The entries of a date *)

Lemma filter_length_perm {A : Type} (p : A -> bool) (l l' : list A) :
  Permutation l l' -> List.length (filter p l) = List.length (filter p l').
Proof.
  induction 1 as [|x l l' _ IH|x y l|l l' l'' _ IH1 _ IH2]; cbn [filter].
  - reflexivity.
  - destruct (p x); cbn [List.length]; now rewrite IH.
  - destruct (p x), (p y); reflexivity.
  - now rewrite IH1.
Qed.

Lemma filter_perm {A : Type} (p : A -> bool) (l l' : list A) :
  Permutation l l' -> Permutation (filter p l) (filter p l').
Proof.
  induction 1 as [|x l l' _ IH|x y l|l l' l'' _ IH1 _ IH2]; cbn [filter].
  - constructor.
  - destruct (p x); [now constructor | exact IH].
  - destruct (p x), (p y); try reflexivity. constructor.
  - now transitivity (filter p l').
Qed.

(** A date occurs once in a range that contains it, and not at all in
    the others. *)
Lemma date_in_date_range (d : date) (n : nat) : forall first last,
  Z.to_nat (last - first + 1) = n ->
  filter (fun x => x =? d) (date_range first last)
  = if (first <=? d) && (d <=? last) then [d] else [].
Proof.
  induction n as [|n IH]; intros first last Hn.
  - rewrite date_range_empty by lia. cbn [filter].
    destruct (Z.leb_spec first d), (Z.leb_spec d last); cbn [andb]; (reflexivity || lia).
  - rewrite date_range_cons by lia. cbn [filter].
    rewrite (Z.eqb_sym first d).
    destruct (Z.eqb_spec d first) as [->|Hne].
    + rewrite (IH (first + 1) last) by lia.
      destruct (Z.leb_spec (first + 1) first); [lia|]. cbn [andb].
      destruct (Z.leb_spec first first); [|lia].
      destruct (Z.leb_spec first last); [reflexivity | lia].
    + rewrite (IH (first + 1) last) by lia.
      destruct (Z.leb_spec (first + 1) d), (Z.leb_spec first d),
        (Z.leb_spec d last); cbn [andb]; (reflexivity || lia).
Qed.

Lemma entries_on_map (d : date) (n : string) (h : float64) (l : list date) :
  filter (fun e => entry_date e =? d) (map (fun x => mkEntry x n h) l)
  = map (fun x => mkEntry x n h) (filter (fun x => x =? d) l).
Proof.
  induction l as [|x l IH]; [reflexivity|].
  cbn [map filter entry_date]. destruct (x =? d); cbn [map]; now rewrite IH.
Qed.

Lemma entries_on_task_block (today d : date) (c : float64) (t : Task) :
  entries_on d (task_block today c t)
  = if covers today d t
    then [mkEntry d (name t) (py_min (daily_allocation today t) c)]
    else [].
Proof.
  unfold covers, entries_on, task_block, even_block, window.
  rewrite entries_on_map.
  rewrite (date_in_date_range d _ today (dt_date (due_date t)) eq_refl).
  now destruct ((today <=? d) && (d <=? dt_date (due_date t))).
Qed.

Lemma entries_on_blocks (today d : date) (c : float64) (ts : list Task) :
  entries_on d (flat_map (task_block today c) ts)
  = map (fun t => mkEntry d (name t) (py_min (daily_allocation today t) c))
        (filter (covers today d) ts).
Proof.
  induction ts as [|t ts IH]; [reflexivity|].
  cbn [flat_map filter]. unfold entries_on in *.
  rewrite filter_app, IH.
  pose proof (entries_on_task_block today d c t) as E. unfold entries_on in E.
  rewrite E. destruct (covers today d t); reflexivity.
Qed.

(** X5.  In a schedule generated to the end, the entries of a date are
    exactly these: one for each task whose window, from today to its
    due date, contains the date, in the order of the sorted tasks,
    with the name of the task and the hours of its loop (the capacity
    if that is below its daily allocation, the allocation
    otherwise); a task whose window does not contain the date has
    none.  The tasks that have one are, up to order, those of the task
    list that the date falls to, and as many. *)
Theorem one_entry_per_task_and_day (tasks : list Task) (c : float64)
    (today d : date) :
  0 < today ->
  Forall (fun t => dt_date (due_date t) <= MAXORDINAL) tasks ->
  snd (generate tasks c today) = Finished ->
  entries_on d (fst (generate tasks c today))
  = map (fun t =>
           let worked := sub (hours t) (completed_hours t) in
           let remaining := if ltb worked zero then zero else worked in
           let days := Z.max 1 (dt_date (due_date t) - today + 1) in
           let share := div remaining (lit days 0) in
           mkEntry d (name t) (if ltb c share then c else share))
        (filter (fun t => (today <=? d) && (d <=? dt_date (due_date t)))
           (tasks_sorted tasks))
  /\ Permutation
       (filter (fun t => (today <=? d) && (d <=? dt_date (due_date t)))
          (tasks_sorted tasks))
       (filter (fun t => (today <=? d) && (d <=? dt_date (due_date t))) tasks)
  /\ List.length (entries_on d (fst (generate tasks c today)))
     = List.length (filter (covers today d) tasks).
Proof.
  intros Ht Hall Hfin. rewrite generate_spec in Hfin |- * by assumption.
  cbn [fst snd] in *.
  destruct (existsb (overflows today) (tasks_sorted tasks)) eqn:E;
    [discriminate|].
  rewrite (processed_all _ _ E), entries_on_blocks.
  split; [|split].
  - apply map_ext. intros t. cbv zeta.
    now rewrite <- daily_allocation_unfolded.
  - apply filter_perm, tasks_sorted_perm.
  - rewrite length_map. apply filter_length_perm, tasks_sorted_perm.
Qed.

Lemma one_entry_per_task_and_day_witness :
  entries_on (jan 2) (fst (generate [essay; math] (lit 1 0) (jan 1)))
  = [mkEntry (jan 2) "Math" (lit 1 0); mkEntry (jan 2) "Essay" (lit 1 0)]
  /\ entries_on (jan 3) (fst (generate [essay; math] (lit 1 0) (jan 1)))
     = [mkEntry (jan 3) "Essay" (lit 1 0)].
Proof.
  split.
  - destruct (one_entry_per_task_and_day [essay; math] (lit 1 0) (jan 1) (jan 2))
      as (E & _);
      [reflexivity | repeat constructor; discriminate | reflexivity |].
    rewrite E. vm_compute. reflexivity.
  - destruct (one_entry_per_task_and_day [essay; math] (lit 1 0) (jan 1) (jan 3))
      as (E & _);
      [reflexivity | repeat constructor; discriminate | reflexivity |].
    rewrite E. vm_compute. reflexivity.
Defined.

(** *** The last date of the calendar *)

(** X6.  Generation ends in [OverflowError] exactly when some task is
    due on 9999-12-31, the last date there is: the loop of such a task
    steps past it at line 200.  [generate_schedule] then lets the
    exception out after it has replaced the schedule, and leaves the
    text on display as it was. *)
Theorem generation_fails_on_last_date (tasks0 : list Task) (c : float64)
    (today : date) :
  Date.valid today = true ->
  Forall (fun t => Date.valid (dt_date (due_date t)) = true) tasks0 ->
  (snd (generate tasks0 c today) = Raised OverflowError
   <-> exists t, In t tasks0 /\ dt_date (due_date t) = MAXORDINAL)
  /\ (snd (generate tasks0 c today) = Finished
      <-> forall t, In t tasks0 -> dt_date (due_date t) < MAXORDINAL)
  /\ (forall (B : Builtins) (a : App) (answer : option string),
        tasks a = tasks0 -> daily_hours a = Some c ->
        (exists t, In t tasks0 /\ dt_date (due_date t) = MAXORDINAL) ->
        raised (snd (generate_schedule today answer a)) = Some OverflowError
        /\ schedule (fst (generate_schedule today answer a))
           = map schedule_line (fst (generate tasks0 c today))
        /\ schedule_text (fst (generate_schedule today answer a))
           = schedule_text a).
Proof.
  intros Ht Hall. unfold Date.valid in Ht.
  rewrite andb_true_iff, !Z.leb_le in Ht.
  assert (Hall' : Forall (fun t => dt_date (due_date t) <= MAXORDINAL) tasks0).
  { eapply Forall_impl; [|exact Hall]. intros t Hv. unfold Date.valid in Hv.
    rewrite andb_true_iff, !Z.leb_le in Hv. lia. }
  assert (Hex : existsb (overflows today) (tasks_sorted tasks0) = true
                <-> exists t, In t tasks0 /\ dt_date (due_date t) = MAXORDINAL).
  { rewrite existsb_exists. split; intros (t & Hin & H); exists t.
    - split; [eapply Permutation_in; [apply tasks_sorted_perm | exact Hin]|].
      unfold overflows in H. rewrite andb_true_iff, Z.eqb_eq in H. tauto.
    - split; [eapply Permutation_in; [symmetry; apply tasks_sorted_perm | exact Hin]|].
      unfold overflows. rewrite andb_true_iff, Z.eqb_eq, Z.leb_le. lia. }
  assert (Hraise : snd (generate tasks0 c today) = Raised OverflowError
                   <-> exists t, In t tasks0 /\ dt_date (due_date t) = MAXORDINAL).
  { rewrite <- Hex, generate_spec by (assumption || lia). cbn [snd].
    destruct (existsb _ _); split; congruence. }
  split; [exact Hraise|]. split.
  - rewrite generate_spec by (assumption || lia). cbn [snd].
    rewrite Forall_forall in Hall'.
    destruct (existsb _ _) eqn:E.
    + split; [discriminate|]. intros H.
      destruct (proj1 Hex eq_refl) as (t & Hin & Et). specialize (H t Hin). lia.
    + split; [|reflexivity]. intros _ t Hin.
      destruct (Z.eq_dec (dt_date (due_date t)) MAXORDINAL) as [Et|Hne].
      * assert (false = true) by (apply Hex; eauto). discriminate.
      * specialize (Hall' t Hin). lia.
  - intros B a answer Ea Hc Hlast. apply Hraise in Hlast.
    unfold generate_schedule. rewrite Ea.
    destruct tasks0 as [|t ts];
      [discriminate Hlast|].
    rewrite Hc. cbn [tasks set_daily_hours]. rewrite Ea.
    destruct (generate (t :: ts) c today) as [entries ended]. cbn [snd] in Hlast.
    subst ended. cbn. auto.
Qed.

Lemma generation_fails_on_last_date_witness :
  snd (generate [Task_init "Essay" (lit 6 0) (midnight MAXORDINAL)] (lit 2 0)
         (MAXORDINAL - 1)) = Raised OverflowError
  /\ snd (generate [essay] (lit 2 0) (jan 1)) = Finished.
Proof.
  split.
  - apply (generation_fails_on_last_date
             [Task_init "Essay" (lit 6 0) (midnight MAXORDINAL)] (lit 2 0)
             (MAXORDINAL - 1)); [reflexivity | repeat constructor |].
    eexists. split; [now left | reflexivity].
  - apply (generation_fails_on_last_date [essay] (lit 2 0) (jan 1));
      [reflexivity | repeat constructor |].
    intros t [<-|[]]. reflexivity.
Defined.

(* ================================================================== *)
(** * Further properties of the display                                 *)
(* ================================================================== *)

Lemma filter_split_perm {A : Type} (p : A -> bool) (l : list A) :
  Permutation (filter p l ++ filter (fun x => negb (p x)) l) l.
Proof.
  induction l as [|x l IH]; [constructor|].
  cbn [filter]. destruct (p x); cbn [negb app].
  - now constructor.
  - rewrite <- Permutation_middle. now constructor.
Qed.

Lemma filter_other_key (k k' : string) (s : list (string * string)) :
  k <> k' ->
  filter (fun e => String.eqb (fst e) k')
    (filter (fun e => negb (String.eqb (fst e) k)) s)
  = filter (fun e => String.eqb (fst e) k') s.
Proof.
  intros Hne. induction s as [|e s IH]; [reflexivity|].
  cbn [filter]. destruct (String.eqb_spec (fst e) k) as [E|N]; cbn [negb filter].
  - destruct (String.eqb_spec (fst e) k'); [congruence | exact IH].
  - destruct (String.eqb (fst e) k'); now rewrite IH.
Qed.

Lemma flat_map_ext_on {A B : Type} (f g : A -> list B) (l : list A) :
  (forall a, In a l -> f a = g a) -> flat_map f l = flat_map g l.
Proof.
  induction l as [|x l IH]; intros H; [reflexivity|].
  cbn [flat_map]. rewrite (H x (or_introl eq_refl)), IH; [reflexivity|].
  intros a Ha. apply H. now right.
Qed.

(** Splitting a list by the distinct keys of its elements rearranges
    it. *)
Lemma split_by_keys_perm (keys : list string) : forall s : list (string * string),
  NoDup keys ->
  (forall e, In e s -> In (fst e) keys) ->
  Permutation (flat_map (fun k => filter (fun e => String.eqb (fst e) k) s) keys) s.
Proof.
  induction keys as [|k ks IH]; intros s Hnd Hcov.
  - destruct s as [|e s]; [constructor|]. destruct (Hcov e (or_introl eq_refl)).
  - inversion Hnd as [|? ? Hk Hks]; subst. cbn [flat_map].
    set (rest := filter (fun e => negb (String.eqb (fst e) k)) s).
    rewrite <- (filter_split_perm (fun e => String.eqb (fst e) k) s) at 2.
    apply Permutation_app_head. fold rest.
    rewrite (flat_map_ext_on _
               (fun k' => filter (fun e => String.eqb (fst e) k') rest)).
    + apply IH; [exact Hks|]. intros e He. unfold rest in He.
      apply filter_In in He as [He Hne]. cbn beta in Hne.
      destruct (Hcov e He) as [E|Hin]; [|exact Hin].
      rewrite E, String.eqb_refl in Hne. discriminate.
    + intros k' Hin. unfold rest. symmetry. apply filter_other_key.
      intros ->. contradiction.
Qed.

Lemma pair_lines_of (k : string) (s : list (string * string)) :
  map (pair k) (lines_of k s) = filter (fun e => String.eqb (fst e) k) s.
Proof.
  unfold lines_of. induction s as [|[k' v] s IH]; [reflexivity|].
  cbn [filter fst]. destruct (String.eqb_spec k' k) as [->|N]; cbn [map snd].
  - now rewrite IH.
  - exact IH.
Qed.

Lemma display_groups_keys (s : list (string * string)) :
  map fst (display_groups s) = sorted_keys (group_by_date s).
Proof. unfold display_groups. rewrite map_map. cbn [fst]. apply map_id. Qed.

Lemma sorted_keys_perm (s : list (string * string)) :
  Permutation (sorted_keys (group_by_date s)) (map fst (group_by_date s)).
Proof. apply (sorted_perm (fun k : string => k) String.ltb). Qed.

Lemma sorted_keys_In (s : list (string * string)) (k : string) :
  In k (sorted_keys (group_by_date s)) <-> In k (map fst s).
Proof.
  rewrite <- group_by_date_keys_In. split; apply Permutation_in;
    [|symmetry]; apply sorted_keys_perm.
Qed.

(** X7.  Grouping for display loses no line of the schedule and
    invents none: the lines under the date headings are the lines of
    the schedule, each under its own date and in the order of the
    schedule; the headings are distinct, in ascending order as text, and
    none stands over an empty group.  This holds for any list of lines,
    whatever the date texts are. *)
Theorem display_keeps_every_line (s : list (string * string)) :
  Permutation (ungroup (display_groups s)) s
  /\ Forall (fun g => snd g = lines_of (fst g) s /\ snd g <> []) (display_groups s)
  /\ StronglySorted (fun a b => String.ltb a b = true) (map fst (display_groups s))
  /\ (forall k, In k (map fst (display_groups s)) <-> In k (map fst s)).
Proof.
  split; [|split; [|split]].
  - unfold ungroup, display_groups. rewrite flat_map_concat_map, map_map.
    rewrite <- flat_map_concat_map. cbn [fst snd].
    rewrite (flat_map_ext _ (fun k => filter (fun e => String.eqb (fst e) k) s)).
    + apply split_by_keys_perm.
      * eapply Permutation_NoDup;
          [symmetry; apply sorted_keys_perm | apply group_by_date_keys_NoDup].
      * intros e He. apply sorted_keys_In. now apply in_map.
    + intros k. rewrite group_by_date_lookup. apply pair_lines_of.
  - apply Forall_forall. intros g Hg. unfold display_groups in Hg.
    apply in_map_iff in Hg as (k & <- & Hk). cbn [fst snd].
    rewrite group_by_date_lookup. split; [reflexivity|].
    apply sorted_keys_In in Hk. apply in_map_iff in Hk as (e & <- & He).
    unfold lines_of. intros E.
    assert (Hin : In e (filter (fun e0 => String.eqb (fst e0) (fst e)) s)).
    { apply filter_In. split; [exact He | apply String.eqb_refl]. }
    apply (in_map snd) in Hin. rewrite E in Hin. destruct Hin.
  - rewrite display_groups_keys. apply sorted_keys_ascending.
    apply group_by_date_keys_NoDup.
  - intros k. rewrite display_groups_keys. apply sorted_keys_In.
Qed.

(* ================================================================== *)
(** * Further properties of the application                             *)
(* ================================================================== *)

Section AppFacts.
Context {B : Builtins}.

(** What a call of [add_task] can do. *)
Lemma add_task_cases (a : App) :
  (fst (add_task a) = a /\ exists t m, snd (add_task a) = returned [showwarning t m])
  \/ (exists n h d,
        fst (add_task a)
        = set_entry_vars "" "" ""
            (append_task (Task_init n h d) (listbox_line (Task_init n h d)) a)
        /\ snd (add_task a) = returned []).
Proof.
  unfold add_task.
  destruct (_ || _); [left; cbn; eauto|].
  destruct (float_of_str _) as [h|]; [|left; cbn; eauto].
  destruct (strptime_ymd _) as [d|]; [|left; cbn; eauto].
  right. cbn. eauto.
Qed.

(** What [generate_schedule] never writes. *)
Lemma generate_schedule_keeps today answer (a : App) :
  let a' := fst (generate_schedule today answer a) in
  tasks a' = tasks a
  /\ task_listbox a' = task_listbox a
  /\ task_name_var a' = task_name_var a
  /\ task_hours_var a' = task_hours_var a
  /\ task_due_var a' = task_due_var a
  /\ focus_thread a' = focus_thread a
  /\ timer_running a' = timer_running a
  /\ points a' = points a
  /\ points_label a' = points_label a
  /\ timer_label a' = timer_label a.
Proof.
  cbv zeta. unfold generate_schedule.
  destruct (tasks a) as [|t0 ts0] eqn:Et; [cbn; auto 10|].
  destruct (daily_hours a).
  - destruct (generate _ _ _) as [entries [| |]]; cbn; auto 10.
  - destruct answer as [answer|]; [|cbn; auto 10].
    destruct (float_of_str answer) as [h|]; [|cbn; auto 10].
    destruct (leb h zero); [cbn; auto 10|].
    destruct (generate _ _ _) as [entries [| |]]; cbn; auto 10.
Qed.

(** What [start_focus_session] never writes. *)
Lemma start_focus_session_keeps answer (w : World) :
  let a' := app (fst (start_focus_session answer w)) in
  tasks a' = tasks (app w)
  /\ task_listbox a' = task_listbox (app w)
  /\ daily_hours a' = daily_hours (app w)
  /\ schedule a' = schedule (app w)
  /\ schedule_text a' = schedule_text (app w)
  /\ points a' = points (app w)
  /\ points_label a' = points_label (app w)
  /\ timer_label a' = timer_label (app w).
Proof.
  cbv zeta. unfold start_focus_session.
  destruct (timer_running (app w)); [cbn; auto 10|].
  destruct answer as [answer|]; [|cbn; auto 10].
  destruct (int_of_str answer) as [minutes|]; [|cbn; auto 10].
  destruct (minutes <=? 0); cbn; auto 10.
Qed.

(** What [_countdown] never writes. *)
Lemma countdown_step_keeps now (a : App) (p : pc) :
  let a' := fst (countdown_step now a p) in
  tasks a' = tasks a
  /\ task_listbox a' = task_listbox a
  /\ daily_hours a' = daily_hours a
  /\ schedule a' = schedule a
  /\ schedule_text a' = schedule_text a
  /\ task_name_var a' = task_name_var a
  /\ task_hours_var a' = task_hours_var a
  /\ task_due_var a' = task_due_var a
  /\ focus_thread a' = focus_thread a.
Proof.
  cbv zeta. destruct p; cbn [countdown_step]; try (cbn; auto 10; fail).
  - destruct (of_int seconds); cbn; auto 10.
  - destruct (_ && _); cbn; auto 10.
  - destruct (to_int _); cbn; auto 10.
  - destruct (timer_running a); cbn; auto 10.
Qed.

Lemma thread_step_keeps (w : World) (i : nat) (now : float64) :
  let a' := app (step w (ThreadStep i now)) in
  tasks a' = tasks (app w)
  /\ task_listbox a' = task_listbox (app w)
  /\ daily_hours a' = daily_hours (app w)
  /\ schedule a' = schedule (app w)
  /\ schedule_text a' = schedule_text (app w)
  /\ task_name_var a' = task_name_var (app w)
  /\ task_hours_var a' = task_hours_var (app w)
  /\ task_due_var a' = task_due_var (app w)
  /\ focus_thread a' = focus_thread (app w).
Proof.
  cbv zeta. cbn [step]. destruct (nth_error (threads w) i) as [p|]; [|cbn; auto 10].
  pose proof (countdown_step_keeps now (app w) p) as H.
  destruct (countdown_step now (app w) p) as [a' p']. exact H.
Qed.

(** The tasks and their list after one event: as before, or with one
    task more at the end. *)
Lemma step_tasks (w : World) (e : event) :
  (tasks (app (step w e)) = tasks (app w)
   /\ task_listbox (app (step w e)) = task_listbox (app w))
  \/ (exists n h d,
        tasks (app (step w e)) = (tasks (app w) ++ [Task_init n h d])%list
        /\ task_listbox (app (step w e))
           = (task_listbox (app w) ++ [listbox_line (Task_init n h d)])%list).
Proof.
  destruct e as [n h d | | today answer | answer | i now].
  - left. cbn. auto.
  - cbn [step app].
    destruct (add_task_cases (app w)) as [[-> _] | (n & h & d & -> & _)];
      [left; auto | right; exists n, h, d; cbn; auto].
  - left. cbn [step app].
    destruct (generate_schedule_keeps today answer (app w)) as (-> & -> & _). auto.
  - left. cbn [step].
    destruct (start_focus_session_keeps answer w) as (-> & -> & _). auto.
  - left. destruct (thread_step_keeps w i now) as (-> & -> & _). auto.
Qed.

End AppFacts.

(** X8.  The list box mirrors the task list: in every state the
    application reaches, whatever the user and the countdown threads
    do, it holds one line per task, in the order of the tasks, each
    the line of line 157 for its task. *)
Theorem task_list_mirrors_tasks {B : Builtins} (w : World) :
  reachable w ->
  task_listbox (app w) = map listbox_line (tasks (app w)).
Proof.
  induction 1 as [|w e _ IH]; [reflexivity|].
  destruct (step_tasks w e) as [[-> ->] | (n & h & d & -> & ->)]; [exact IH|].
  now rewrite map_app, IH.
Qed.

Lemma task_list_mirrors_tasks_witness :
  let w := run (B := Reference.builtins) World_init
             [UserTypes "Essay" "6" "2024-01-04"; ClickAdd;
              UserTypes "Math" "x" "2024-01-02"; ClickAdd] in
  task_listbox (app w) = ["Essay - 6.0小时 - 截止: 2024-01-04"]
  /\ task_listbox (app w)
     = map (listbox_line (B := Reference.builtins)) (tasks (app w)).
Proof.
  split; [vm_compute; reflexivity|].
  apply (task_list_mirrors_tasks (B := Reference.builtins)).
  apply (reachable_run (B := Reference.builtins)).
Defined.

(** X9.  Tasks are never removed, reordered or changed: after any
    sequence of events, from any state, the task list is the one
    before with some tasks added at its end. *)
Theorem tasks_are_only_appended {B : Builtins} (es : list event) (w : World) :
  exists more, tasks (app (run w es)) = (tasks (app w) ++ more)%list.
Proof.
  revert w. induction es as [|e es IH]; intros w.
  - exists []. cbn. now rewrite app_nil_r.
  - change (run w (e :: es)) with (run (step w e) es).
    destruct (IH (step w e)) as (more & ->).
    destruct (step_tasks w e) as [[-> _] | (n & h & d & -> & _)].
    + now exists more.
    + eexists. now rewrite <- app_assoc.
Qed.

(** X10.  Progress on a task is never recorded: every task of a state
    the application reaches has no hours completed, so its remaining
    hours are the hours it was entered with, or zero when those are
    negative. *)
Theorem progress_is_never_recorded {B : Builtins} (w : World) (t : Task) :
  reachable w ->
  In t (tasks (app w)) ->
  completed_hours t = zero
  /\ remaining_hours t = (if ltb (hours t) zero then zero else hours t).
Proof.
  intros Hr Hin.
  assert (Hc : completed_hours t = zero).
  { revert t Hin. induction Hr as [|w e _ IH]; intros t Hin; [destruct Hin|].
    destruct (step_tasks w e) as [[E _] | (n & h & d & E & _)];
      rewrite E in Hin; [now apply IH|].
    apply in_app_iff in Hin as [Hin | [<- | []]]; [now apply IH | reflexivity]. }
  split; [exact Hc|].
  unfold remaining_hours, py_max. rewrite Hc.
  destruct (hours t) as [[]|[]| |[] m e]; reflexivity.
Qed.

Lemma progress_is_never_recorded_witness :
  let w := run (B := Reference.builtins) World_init
             [UserTypes "Essay" "6" "2024-01-04"; ClickAdd;
              ClickGenerate (jan 1) (Some "2"); ClickGenerate (jan 3) None] in
  tasks (app w) = [essay] /\ remaining_hours essay = lit 6 0.
Proof.
  split; [vm_compute; reflexivity|].
  apply (progress_is_never_recorded (B := Reference.builtins)
           (run (B := Reference.builtins) World_init
              [UserTypes "Essay" "6" "2024-01-04"; ClickAdd;
               ClickGenerate (jan 1) (Some "2"); ClickGenerate (jan 3) None])
           essay).
  - apply (reachable_run (B := Reference.builtins)).
  - vm_compute. auto.
Defined.

(** *** Adding twice *)

(** X11.  After [add_task] the entry fields hold nothing that a second
    call would accept: calling it again at once changes nothing.  If
    the first call added a task, it emptied the fields and the second
    call warns of incomplete input; if it refused, the second refuses
    alike.  One task is never added twice by one entry. *)
Theorem adding_twice_adds_once {B : Builtins} (a : App) :
  str_strip "" = "" ->
  fst (add_task (fst (add_task a))) = fst (add_task a)
  /\ (tasks (fst (add_task a)) <> tasks a ->
      snd (add_task (fst (add_task a)))
      = returned [showwarning "输入不完整" "请填写所有字段。"]).
Proof.
  intros Hstrip.
  destruct (add_task_cases a) as [[E _] | (n & h & d & E & _)]; rewrite E.
  - split; [exact E | congruence].
  - unfold add_task. cbn [task_name_var task_hours_var task_due_var set_entry_vars].
    rewrite Hstrip. cbn. auto.
Qed.

Lemma adding_twice_adds_once_witness :
  let a := set_entry_vars "Essay" "6" "2024-01-04" App_init in
  tasks (fst (add_task (B := Reference.builtins)
                (fst (add_task (B := Reference.builtins) a)))) = [essay].
Proof.
  destruct (adding_twice_adds_once (B := Reference.builtins)
              (set_entry_vars "Essay" "6" "2024-01-04" App_init)) as [E _];
    [reflexivity|].
  cbv zeta. rewrite E. vm_compute. reflexivity.
Defined.

(** *** The daily capacity *)

Section CapacityFacts.
Context {B : Builtins}.

Lemma generate_schedule_daily_hours today answer (a : App) :
  daily_hours (fst (generate_schedule today answer a)) = daily_hours a
  \/ (daily_hours a = None
      /\ exists c, accepted_capacity answer = Some c
           /\ daily_hours (fst (generate_schedule today answer a)) = Some c).
Proof.
  unfold generate_schedule, accepted_capacity.
  destruct (tasks a) as [|t0 ts0]; [left; reflexivity|].
  destruct (daily_hours a) as [h|] eqn:Eh.
  - left. destruct (generate _ _ _) as [entries [| |]]; reflexivity.
  - destruct answer as [answer|]; [|left; cbn; auto].
    destruct (float_of_str answer) as [h|]; [|left; reflexivity].
    destruct (leb h zero) eqn:El; [left; reflexivity|].
    right. split; [reflexivity|]. exists h. split; [reflexivity|].
    destruct (generate _ _ _) as [entries [| |]]; reflexivity.
Qed.

Lemma accepted_capacity_positive (answer : option string) (c : float64) :
  accepted_capacity answer = Some c -> leb c zero = false.
Proof.
  unfold accepted_capacity. destruct answer as [s|]; [|discriminate].
  destruct (float_of_str s) as [h|]; [|discriminate].
  destruct (leb h zero) eqn:E; [discriminate|]. now intros [= <-].
Qed.

Lemma step_daily_hours (w : World) (e : event) :
  daily_hours (app (step w e)) = daily_hours (app w)
  \/ (daily_hours (app w) = None
      /\ exists c, daily_hours (app (step w e)) = Some c /\ leb c zero = false).
Proof.
  destruct e as [n h d | | today answer | answer | i now].
  - left. reflexivity.
  - left. cbn [step app].
    destruct (add_task_cases (app w)) as [[-> _] | (n & h & d & -> & _)];
      reflexivity.
  - cbn [step app].
    destruct (generate_schedule_daily_hours today answer (app w))
      as [E | (E & c & Hc & E')]; [left; exact E|].
    right. split; [exact E|]. exists c. split; [exact E'|].
    now apply (accepted_capacity_positive answer).
  - left. cbn [step]. now destruct (start_focus_session_keeps answer w) as (_ & _ & -> & _).
  - left. now destruct (thread_step_keeps w i now) as (_ & _ & -> & _).
Qed.

End CapacityFacts.

(** X12.  The capacity the application holds is never zero or
    negative: in every state it reaches, a capacity that is set passed
    the check of line 176.  (It may be NaN, which no comparison
    stops.) *)
Theorem capacity_is_never_non_positive {B : Builtins} (w : World) (c : float64) :
  reachable w ->
  daily_hours (app w) = Some c ->
  leb c zero = false.
Proof.
  intros Hr. revert c. induction Hr as [|w e _ IH]; intros c Hc; [discriminate|].
  destruct (step_daily_hours w e) as [E | (_ & c' & E & Hpos)].
  - apply IH. now rewrite <- E.
  - rewrite E in Hc. now injection Hc as <-.
Qed.

Lemma capacity_is_never_non_positive_witness :
  let w := run (B := Reference.builtins) World_init
             [UserTypes "Essay" "6" "2024-01-04"; ClickAdd;
              ClickGenerate (jan 1) (Some "-1"); ClickGenerate (jan 1) (Some "2")] in
  daily_hours (app w) = Some (lit 2 0) /\ leb (lit 2 0) zero = false.
Proof.
  split; [vm_compute; reflexivity|].
  apply (capacity_is_never_non_positive (B := Reference.builtins)
           (run (B := Reference.builtins) World_init
              [UserTypes "Essay" "6" "2024-01-04"; ClickAdd;
               ClickGenerate (jan 1) (Some "-1"); ClickGenerate (jan 1) (Some "2")])).
  - apply (reachable_run (B := Reference.builtins)).
  - vm_compute. reflexivity.
Defined.

(** X13.  The capacity is asked once: when one is set, no event
    changes it, and [generate_schedule] no longer opens its dialog, so
    that what the user would answer makes no difference. *)
Theorem capacity_is_asked_once {B : Builtins} (es : list event) (w : World)
    (c : float64) :
  daily_hours (app w) = Some c ->
  daily_hours (app (run w es)) = Some c
  /\ forall today answer answer',
       generate_schedule today answer (app (run w es))
       = generate_schedule today answer' (app (run w es)).
Proof.
  intros Hc.
  assert (H : daily_hours (app (run w es)) = Some c).
  { revert w Hc. induction es as [|e es IH]; intros w Hc; [exact Hc|].
    change (run w (e :: es)) with (run (step w e) es). apply IH.
    destruct (step_daily_hours w e) as [E | (E & _)]; congruence. }
  split; [exact H|].
  intros today answer answer'. unfold generate_schedule.
  destruct (tasks (app (run w es))); [reflexivity|]. now rewrite H.
Qed.

Lemma capacity_is_asked_once_witness :
  let w := run (B := Reference.builtins) World_init
             [UserTypes "Essay" "6" "2024-01-04"; ClickAdd;
              ClickGenerate (jan 1) (Some "2")] in
  daily_hours (app (run (B := Reference.builtins) w
                      [ClickGenerate (jan 2) (Some "5")])) = Some (lit 2 0).
Proof.
  apply (capacity_is_asked_once (B := Reference.builtins)
           [ClickGenerate (jan 2) (Some "5")]).
  vm_compute. reflexivity.
Defined.

(** X14.  The dialog for the capacity, opened when tasks exist and no
    capacity is set.  An answer that is no number, or a number that is
    zero or negative, is refused with one error box, and a dialog that
    is closed with none: either way the application is as it was, its
    schedule and display included, and it will ask again.  An accepted
    answer becomes the capacity, and the schedule is replaced by the
    one generated with it. *)
Theorem capacity_dialog {B : Builtins} (a : App) (today : date)
    (answer : option string) :
  tasks a <> [] ->
  daily_hours a = None ->
  (accepted_capacity answer = None ->
   fst (generate_schedule today answer a) = a
   /\ snd (generate_schedule today answer a)
      = returned (match answer with
                  | None => []
                  | Some _ => [showerror "输入错误" "请输入有效的小时数。"]
                  end))
  /\ (forall c,
        accepted_capacity answer = Some c ->
        daily_hours (fst (generate_schedule today answer a)) = Some c
        /\ schedule (fst (generate_schedule today answer a))
           = map schedule_line (fst (generate (tasks a) c today))
        /\ shown (snd (generate_schedule today answer a)) = []).
Proof.
  intros Ht Hd. unfold generate_schedule, accepted_capacity.
  destruct (tasks a) as [|t0 ts0] eqn:Et; [congruence|]. rewrite Hd.
  assert (Hsame : set_daily_hours None a = a).
  { destruct a as [ts dh sc ft tr pt nv hv dv lb st pl tl].
    cbn [daily_hours] in Hd. subst dh. reflexivity. }
  destruct answer as [s|]; [|split; [auto | discriminate]].
  destruct (float_of_str s) as [h|];
    [|split; [intros _; now rewrite Hsame | discriminate]].
  destruct (leb h zero);
    [split; [intros _; now rewrite Hsame | discriminate]|].
  split; [discriminate|]. intros c [= <-].
  cbn [tasks set_daily_hours]. rewrite Et.
  destruct (generate (t0 :: ts0) h today) as [entries [| |]]; cbn; auto.
Qed.

Lemma capacity_dialog_witness :
  let a := fst (add_task (B := Reference.builtins)
                  (set_entry_vars "Essay" "6" "2024-01-04" App_init)) in
  fst (generate_schedule (B := Reference.builtins) (jan 1) (Some "0") a) = a
  /\ daily_hours (fst (generate_schedule (B := Reference.builtins) (jan 1)
                         (Some "2") a)) = Some (lit 2 0).
Proof.
  cbv zeta.
  destruct (capacity_dialog (B := Reference.builtins)
              (fst (add_task (B := Reference.builtins)
                      (set_entry_vars "Essay" "6" "2024-01-04" App_init)))
              (jan 1) (Some "0")) as [H0 _];
    [vm_compute; discriminate | reflexivity |].
  destruct (capacity_dialog (B := Reference.builtins)
              (fst (add_task (B := Reference.builtins)
                      (set_entry_vars "Essay" "6" "2024-01-04" App_init)))
              (jan 1) (Some "2")) as [_ H2];
    [vm_compute; discriminate | reflexivity |].
  split.
  - apply H0. reflexivity.
  - apply (H2 (lit 2 0)). reflexivity.
Defined.

(** *** Generating again *)

Lemma generate_schedule_with {B : Builtins} (a : App) (today : date)
    (answer : option string) (h : float64) :
  tasks a <> [] ->
  daily_hours a = Some h \/ (daily_hours a = None /\ accepted_capacity answer = Some h) ->
  generate_schedule today answer a = generate_with h today a.
Proof.
  intros Ht Hh. unfold generate_schedule, generate_with, accepted_capacity in *.
  destruct (tasks a) as [|t0 ts0] eqn:Et; [congruence|].
  destruct Hh as [-> | [-> Hh]]; [reflexivity|].
  destruct answer as [s|]; [|discriminate].
  destruct (float_of_str s) as [h'|]; [|discriminate].
  destruct (leb h' zero); [discriminate|]. now injection Hh as ->.
Qed.

Lemma generate_with_again (a : App) (today : date) (h : float64) :
  tasks (fst (generate_with h today a)) = tasks a
  /\ daily_hours (fst (generate_with h today a)) = Some h
  /\ generate_with h today (fst (generate_with h today a))
     = generate_with h today a.
Proof.
  unfold generate_with.
  destruct a as [ts dh sc ft tr pt nv hv dv lb st pl tl].
  cbn [tasks set_daily_hours].
  destruct (generate ts h today) as [entries ended] eqn:Eg.
  destruct ended;
    cbn [fst tasks daily_hours schedule set_schedule_text set_schedule
         set_daily_hours];
    rewrite Eg; auto.
Qed.

(** X15.  A schedule is replaced, never merged: once a capacity is
    set, generating again on the same day gives the application state
    and the outcome of the first generation, with each entry once. *)
Theorem generating_again_changes_nothing {B : Builtins} (a : App) (today : date)
    (answer answer' : option string) :
  daily_hours (fst (generate_schedule today answer a)) <> None ->
  generate_schedule today answer' (fst (generate_schedule today answer a))
  = generate_schedule today answer a.
Proof.
  destruct (tasks a) as [|t0 ts0] eqn:Et.
  - intros _. unfold generate_schedule at 2 3. rewrite Et. cbn [fst].
    unfold generate_schedule. now rewrite Et.
  - assert (Ht : tasks a <> []) by congruence.
    assert (Hgo : forall h,
              generate_schedule today answer a = generate_with h today a ->
              generate_schedule today answer' (fst (generate_schedule today answer a))
              = generate_schedule today answer a).
    { intros h E. rewrite E.
      destruct (generate_with_again a today h) as (Et' & Eh' & Eagain).
      rewrite (generate_schedule_with _ today answer' h);
        [exact Eagain | congruence | now left]. }
    destruct (daily_hours a) as [h|] eqn:Eh.
    + intros _. apply (Hgo h). apply generate_schedule_with; auto.
    + destruct (accepted_capacity answer) as [h|] eqn:Ea.
      * intros _. apply (Hgo h). apply generate_schedule_with; auto.
      * intros H. exfalso. apply H.
        destruct (generate_schedule_daily_hours today answer a)
          as [-> | (_ & c & Hc & _)]; congruence.
Qed.

Lemma generating_again_changes_nothing_witness :
  let a := fst (add_task (B := Reference.builtins)
                  (set_entry_vars "Essay" "6" "2024-01-04" App_init)) in
  let a1 := fst (generate_schedule (B := Reference.builtins) (jan 1) (Some "2") a) in
  List.length (schedule a1) = 4%nat
  /\ fst (generate_schedule (B := Reference.builtins) (jan 1) None a1) = a1.
Proof.
  cbv zeta. split; [vm_compute; reflexivity|].
  rewrite (generating_again_changes_nothing (B := Reference.builtins));
    [reflexivity | vm_compute; discriminate].
Defined.

(** *** Not a number *)

Lemma py_min_nan_capacity (x c : float64) : is_nan c = true -> py_min x c = x.
Proof. destruct c; try discriminate. intros _. unfold py_min. now destruct x. Qed.

Lemma py_min_nan_hours (x c : float64) : is_nan x = true -> py_min x c = x.
Proof. destruct x; try discriminate. intros _. unfold py_min. now destruct c. Qed.

(** X16.  NaN passes the checks.  A capacity that parses to NaN is
    accepted, since it is not [<= 0], and then caps nothing: every
    entry carries the full daily allocation of its task.  Hours that
    are NaN give entries of NaN hours under any capacity. *)
Theorem nan_is_accepted_and_never_capped {B : Builtins} (a : App) (today : date)
    (answer : string) (c : float64) :
  tasks a <> [] ->
  daily_hours a = None ->
  float_of_str answer = Some c ->
  is_nan c = true ->
  daily_hours (fst (generate_schedule today (Some answer) a)) = Some c
  /\ (forall e, In e (fst (generate (tasks a) c today)) ->
        exists t, In t (tasks a) /\ task_name e = name t
          /\ allocated_hours e = daily_allocation today t)
  /\ (forall c' e t, In e (task_block today c' t) ->
        is_nan (remaining_hours t) = true -> is_nan (allocated_hours e) = true).
Proof.
  intros Ht Hd Hf Hc. split; [|split].
  - unfold generate_schedule.
    destruct (tasks a) as [|t0 ts0] eqn:Et; [congruence|].
    rewrite Hd, Hf. destruct c; try discriminate. cbn [leb SFleb SFcompare].
    destruct (generate _ _ _) as [entries [| |]]; reflexivity.
  - intros e He. apply generate_window in He as (t & Hin & Hn & Hh & _).
    exists t. rewrite Hh. split; [exact Hin|]. split; [exact Hn|].
    now apply py_min_nan_capacity.
  - intros c' e t He Hnan. apply in_task_block in He as [-> _].
    cbn [allocated_hours]. unfold daily_allocation.
    destruct (remaining_hours t); try discriminate.
    unfold py_min. cbn [div SFdiv]. now destruct c'.
Qed.

Lemma nan_is_accepted_and_never_capped_witness :
  let a := fst (add_task (B := Reference.builtins)
                  (set_entry_vars "Essay" "6" "2024-01-04" App_init)) in
  daily_hours (fst (generate_schedule (B := Reference.builtins) (jan 1)
                      (Some "nan") a)) = Some S754_nan.
Proof.
  apply (nan_is_accepted_and_never_capped (B := Reference.builtins)
           (fst (add_task (B := Reference.builtins)
                   (set_entry_vars "Essay" "6" "2024-01-04" App_init)))
           (jan 1) "nan" S754_nan); try reflexivity.
  vm_compute. discriminate.
Defined.

(** *** The dialog for the duration *)

(** X17.  The dialog for the duration of a session, opened when no
    session runs.  An answer that is no integer, or an integer that is
    zero or negative, is refused with one error box, and a dialog that
    is closed with none: either way nothing changes and no thread is
    created.  An accepted answer starts one thread for sixty times as
    many seconds, sets the flag and shows no dialog. *)
Theorem duration_dialog {B : Builtins} (w : World) (answer : option string) :
  timer_running (app w) = false ->
  (accepted_minutes answer = None ->
   fst (start_focus_session answer w) = w
   /\ snd (start_focus_session answer w)
      = returned (match answer with
                  | None => []
                  | Some _ => [showerror "输入错误" "请输入有效的分钟数。"]
                  end))
  /\ (forall minutes,
        accepted_minutes answer = Some minutes ->
        threads (fst (start_focus_session answer w))
        = (threads w ++ [AtStart (minutes * 60)])%list
        /\ timer_running (app (fst (start_focus_session answer w))) = true
        /\ focus_thread (app (fst (start_focus_session answer w)))
           = Some (List.length (threads w))
        /\ snd (start_focus_session answer w) = returned []).
Proof.
  intros Hf. unfold start_focus_session, accepted_minutes. rewrite Hf.
  destruct answer as [s|]; [|split; [auto | discriminate]].
  destruct (int_of_str s) as [minutes|]; [|split; [auto | discriminate]].
  destruct (minutes <=? 0); [split; [auto | discriminate]|].
  split; [discriminate|]. intros m [= <-]. cbn. auto.
Qed.

Lemma duration_dialog_witness :
  fst (start_focus_session (B := Reference.builtins) (Some "0") World_init) = World_init
  /\ fst (start_focus_session (B := Reference.builtins) (Some "2.5") World_init)
     = World_init
  /\ threads (fst (start_focus_session (B := Reference.builtins) (Some "25") World_init))
     = [AtStart 1500].
Proof.
  destruct (duration_dialog (B := Reference.builtins) World_init (Some "0"))
    as [H0 _]; [reflexivity|].
  destruct (duration_dialog (B := Reference.builtins) World_init (Some "2.5"))
    as [H1 _]; [reflexivity|].
  destruct (duration_dialog (B := Reference.builtins) World_init (Some "25"))
    as [_ H2]; [reflexivity|].
  split; [apply H0; reflexivity|].
  split; [apply H1; reflexivity|].
  apply (H2 25). reflexivity.
Defined.

(* ================================================================== *)
(** * Further properties of the focus timer                             *)
(* ================================================================== *)

Lemma all_done_not_last (dones : list pc) (p : pc) :
  p <> Done -> ~ all_done (dones ++ [p]).
Proof.
  intros Hp H. unfold all_done in H. apply Forall_app in H as [_ H].
  inversion H; subst. contradiction.
Qed.

Lemma all_done_removelast (l : list pc) : all_done l -> all_done (removelast l).
Proof.
  unfold all_done. rewrite !Forall_forall. intros H x Hx. apply H.
  destruct l as [|y l]; [destruct Hx|].
  rewrite (app_removelast_last Done (l := y :: l)) by discriminate.
  apply in_app_iff. now left.
Qed.

(** X18.  At most one countdown thread is alive at any time: in every
    state the application reaches, every thread but the one started
    last has returned, and the flag is cleared exactly when that one
    has returned too (or none was ever started). *)
Theorem one_session_at_a_time {B : Builtins} (w : World) :
  reachable w ->
  all_done (removelast (threads w))
  /\ (timer_running (app w) = false <-> all_done (threads w)).
Proof.
  intros Hr. apply reachable_consistent in Hr.
  inversion Hr as [a dones Hd Hf Hpt | a dones q Hd Hf Hnd Hpt Hl]; subst;
    cbn [app threads].
  - split; [now apply all_done_removelast | tauto].
  - rewrite removelast_last. split; [exact Hd|].
    split; [congruence|]. intros H. now apply all_done_not_last in H.
Qed.

Lemma one_session_at_a_time_witness :
  let w := run (B := Reference.builtins) World_init
             [ClickFocus (Some "25"); ClickFocus (Some "10");
              ThreadStep 0 (lit 1000 0); ClickFocus (Some "5")] in
  threads w = [AtLoopTest (lit 2500 0)]
  /\ all_done (removelast (threads w))
  /\ (timer_running (app w) = false <-> all_done (threads w)).
Proof.
  split; [vm_compute; reflexivity|].
  apply (one_session_at_a_time (B := Reference.builtins)).
  apply (reachable_run (B := Reference.builtins)).
Defined.

(** *** What the labels show *)

Lemma latest_last (dones : list pc) (p : pc) : latest (dones ++ [p]) = Some p.
Proof. unfold latest. rewrite map_app. cbn [map]. apply last_last. Qed.

Lemma latest_all_done (dones : list pc) :
  all_done dones -> latest dones = None \/ latest dones = Some Done.
Proof.
  intros H. destruct dones as [|p l] using rev_ind; [now left|].
  right. rewrite latest_last. f_equal.
  unfold all_done in H. apply Forall_app in H as [_ H]. now inversion H.
Qed.

Section LabelFacts.
Context {B : Builtins}.

(** Events of the user leave the points and the labels alone. *)
Lemma user_event_labels (w : World) (e : event) :
  is_thread_step e = false ->
  points (app (step w e)) = points (app w)
  /\ points_label (app (step w e)) = points_label (app w)
  /\ timer_label (app (step w e)) = timer_label (app w).
Proof.
  intros He. destruct e as [n h d | | today answer | answer | i now];
    try discriminate.
  - cbn. auto.
  - cbn [step app].
    destruct (add_task_cases (app w)) as [[-> _] | (n & h & d & -> & _)];
      cbn; auto.
  - cbn [step app].
    destruct (generate_schedule_keeps today answer (app w))
      as (_ & _ & _ & _ & _ & _ & _ & -> & -> & ->). auto.
  - cbn [step].
    destruct (start_focus_session_keeps answer w)
      as (_ & _ & _ & _ & _ & -> & -> & ->). auto.
Qed.

Lemma user_event_threads (w : World) (e : event) :
  is_thread_step e = false ->
  threads (step w e) = threads w
  \/ (timer_running (app w) = false
      /\ exists seconds, threads (step w e) = (threads w ++ [AtStart seconds])%list).
Proof.
  intros He. destruct e as [n h d | | today answer | answer | i now];
    try discriminate; try (left; reflexivity).
  cbn [step]. unfold start_focus_session.
  destruct (timer_running (app w)); [left; reflexivity|].
  destruct answer as [answer|]; [|left; reflexivity].
  destruct (int_of_str answer) as [minutes|]; [|left; reflexivity].
  destruct (minutes <=? 0); [left; reflexivity|].
  right. split; [reflexivity|]. eexists. reflexivity.
Qed.

Lemma labels_agree_frame (w w' : World) :
  threads w' = threads w ->
  points (app w') = points (app w) ->
  points_label (app w') = points_label (app w) ->
  timer_label (app w') = timer_label (app w) ->
  labels_agree w -> labels_agree w'.
Proof.
  unfold labels_agree, score_shown. intros -> -> -> ->. auto.
Qed.

Lemma labels_agree_thread_step (a : App) (dones : list pc) (p : pc) (now : float64) :
  timer_running a = true ->
  labels_agree (mkWorld a (dones ++ [p])) ->
  labels_agree (mkWorld (fst (countdown_step now a p))
                  (dones ++ [snd (countdown_step now a p)])).
Proof.
  unfold labels_agree, score_shown. cbn [threads app]. rewrite !latest_last.
  intros Hf [Hs Ht].
  destruct p; cbn [countdown_step].
  - destruct (of_int seconds); cbn [fst snd]; split; auto; intros _; apply Hs; discriminate.
  - rewrite Hf. cbn [andb]. destruct (ltb now end_time); cbn [fst snd];
      split; auto; intros _; apply Hs; discriminate.
  - destruct (to_int _); cbn [fst snd]; split; auto; intros _;
      cbn; apply Hs; discriminate.
  - rewrite Hf. cbn [fst snd]. split; auto. intros _. apply Hs. discriminate.
  - cbn. split; auto. intros _. apply Hs. discriminate.
  - cbn [fst snd]. split; auto. intros _. apply Hs. discriminate.
  - cbn. split; auto. congruence.
  - cbn. split; auto.
  - cbn. split; auto. intros _. apply Hs. discriminate.
  - cbn [fst snd]. split; auto.
  - cbn [fst snd]. split; auto.
Qed.

Lemma reachable_labels_agree (w : World) : reachable w -> labels_agree w.
Proof.
  induction 1 as [|w e Hr IH].
  - unfold labels_agree, score_shown. cbn. auto.
  - pose proof (reachable_consistent w Hr) as Hc.
    destruct (is_thread_step e) eqn:He.
    + destruct e as [| | | |i now]; try discriminate.
      destruct (nth_error (threads w) i) as [p|] eqn:E;
        [|now rewrite (step_no_thread w i now E)].
      inversion Hc as [a dones Hd Hf Hpt | a dones q Hd Hf Hnd Hpt Hl]; subst;
        cbn [threads] in E.
      * rewrite step_Done; [exact IH|]. cbn [threads].
        rewrite E. f_equal. eapply all_done_nth; eauto.
      * destruct (nth_error_running _ _ _ _ Hd E) as [[-> _] | [-> ->]].
        -- rewrite step_Done; [exact IH | exact E].
        -- rewrite step_running. now apply labels_agree_thread_step.
    + destruct (user_event_labels w e He) as (Ep & El & Et).
      destruct (user_event_threads w e He) as [Eth | (Hf & seconds & Eth)].
      * now apply (labels_agree_frame w).
      * inversion Hc as [a dones Hd Hf' Hpt | a dones q Hd Hf' Hnd Hpt Hl];
          subst; cbn [app threads] in *; [|congruence].
        unfold labels_agree, score_shown in *. cbn [threads] in IH.
        rewrite Eth, latest_last, Ep, El.
        split; [|exact I]. intros _.
        destruct (latest_all_done dones Hd) as [E|E]; rewrite E in IH;
          [apply IH | apply IH; discriminate].
Qed.

End LabelFacts.

(** X19.  Between sessions the window tells the truth: in every state
    the application reaches with no session running, the points are
    ten times the number of sessions started so far, the label of the
    points shows exactly them, and the label of the timer is empty if
    no session was started and shows the completion message
    otherwise. *)
Theorem idle_labels_show_the_score {B : Builtins} (w : World) :
  reachable w ->
  timer_running (app w) = false ->
  points (app w) = 10 * Z.of_nat (List.length (threads w))
  /\ points_label (app w) = "积分: " ++ format_d (points (app w))
  /\ timer_label (app w)
     = match threads w with [] => "" | _ => "专注完成！" end.
Proof.
  intros Hr Hf.
  pose proof (reachable_labels_agree w Hr) as Hl.
  apply reachable_consistent in Hr.
  inversion Hr as [a dones Hd Hf' Hpt | a dones q Hd Hf' Hnd Hpt Hq]; subst;
    cbn [app threads] in *; [|congruence].
  split; [exact Hpt|].
  unfold labels_agree, score_shown in Hl. cbn [app threads] in Hl.
  destruct dones as [|p l] using rev_ind.
  - cbn in Hl. exact Hl.
  - rewrite latest_last in Hl.
    assert (p = Done).
    { unfold all_done in Hd. apply Forall_app in Hd as [_ Hd]. now inversion Hd. }
    subst p. destruct Hl as [Hs Ht]. split; [apply Hs; discriminate|].
    rewrite Ht. now destruct l.
Qed.

Lemma idle_labels_show_the_score_witness :
  let w := run (B := Reference.builtins) World_init
             ([ClickFocus (Some "1"); ThreadStep 0 (lit 1000 0);
               ThreadStep 0 (lit 1060 0)]
              ++ repeat (ThreadStep 0 (lit 1060 0)) 6) in
  points (app w) = 10
  /\ points_label (app w) = "积分: 10"
  /\ timer_label (app w) = "专注完成！".
Proof.
  cbv zeta.
  destruct (idle_labels_show_the_score (B := Reference.builtins)
              (run (B := Reference.builtins) World_init
                 ([ClickFocus (Some "1"); ThreadStep 0 (lit 1000 0);
                   ThreadStep 0 (lit 1060 0)]
                  ++ repeat (ThreadStep 0 (lit 1060 0)) 6)))
    as (Hp & Hl & Ht).
  - apply (reachable_run (B := Reference.builtins)).
  - vm_compute. reflexivity.
  - split; [rewrite Hp; vm_compute; reflexivity|].
    split; [rewrite Hl; vm_compute; reflexivity|].
    rewrite Ht. vm_compute. reflexivity.
Defined.

(** *** Before the end time *)

Lemma countdown_run_before_end (end_time : float64) (nows : list float64) :
  forall (a : App) (p : pc),
  Forall (fun now => ltb now end_time = true) nows ->
  in_loop end_time p \/ p = AtFinalTest \/ p = AtReset \/ p = Done ->
  (timer_running a = true -> in_loop end_time p) ->
  points (fst (countdown_run nows a p)) = points a
  /\ points_label (fst (countdown_run nows a p)) = points_label a
  /\ (timer_running a = true ->
      timer_running (fst (countdown_run nows a p)) = true
      /\ in_loop end_time (snd (countdown_run nows a p))).
Proof.
  induction nows as [|now nows IH]; intros a p Hall Hp Hrun;
    [cbn; auto|].
  inversion Hall as [|? ? Hnow Hall']; subst.
  cbn [countdown_run].
  assert (Hstep : points (fst (countdown_step now a p)) = points a
            /\ points_label (fst (countdown_step now a p)) = points_label a
            /\ (in_loop end_time (snd (countdown_step now a p))
                \/ snd (countdown_step now a p) = AtFinalTest
                \/ snd (countdown_step now a p) = AtReset
                \/ snd (countdown_step now a p) = Done)
            /\ (timer_running (fst (countdown_step now a p)) = true ->
                timer_running a = true
                /\ in_loop end_time (snd (countdown_step now a p)))
            /\ (timer_running a = true ->
                timer_running (fst (countdown_step now a p)) = true)).
  { unfold in_loop in *.
    destruct (timer_running a) eqn:Hf.
    - destruct (Hrun eq_refl) as [-> | [-> | (e & ->)]]; cbn [countdown_step];
        rewrite ?Hf, ?Hnow; try (destruct (to_int _));
        cbn; rewrite ?Hf; repeat split; intros; eauto 6; try discriminate.
    - destruct Hp as [[-> | [-> | (e & ->)]] | [-> | [-> | ->]]];
        cbn [countdown_step]; rewrite ?Hf;
        try (destruct (to_int _)); cbn; rewrite ?Hf;
        repeat split; intros; eauto 6; try discriminate. }
  destruct (countdown_step now a p) as [a' p']. cbn [fst snd] in Hstep.
  destruct Hstep as (Ep & El & Hp' & Hrun' & Hkeep).
  destruct (IH a' p' Hall' Hp') as (Ep' & El' & Hrun'');
    [intros H; now apply Hrun'|].
  rewrite Ep', El'. repeat split; try assumption.
  - apply Hrun''. now apply Hkeep.
  - apply Hrun''. now apply Hkeep.
Qed.

(** X20.  No points before the time is up: as long as every reading
    of the clock is before the end time, a countdown awards nothing and
    leaves the label of the points alone, and with the flag set it
    does not end: it is still in its loop (or has died on a reading it
    could not turn into seconds), and the flag is still set. *)
Theorem no_award_before_the_end (nows : list float64) (a : App) (seconds : Z)
    (s start : float64) :
  of_int seconds = Some s ->
  Forall (fun now => ltb now (add start s) = true) nows ->
  points (fst (countdown_run (start :: nows) a (AtStart seconds))) = points a
  /\ points_label (fst (countdown_run (start :: nows) a (AtStart seconds)))
     = points_label a
  /\ (timer_running a = true ->
      timer_running (fst (countdown_run (start :: nows) a (AtStart seconds))) = true
      /\ in_loop (add start s) (snd (countdown_run (start :: nows) a (AtStart seconds)))).
Proof.
  intros Hs Hall. cbn [countdown_run countdown_step]. rewrite Hs.
  apply countdown_run_before_end; unfold in_loop; auto.
Qed.

Lemma no_award_before_the_end_witness :
  let a := set_timer_running true App_init in
  let r := countdown_run [lit 1000 0; lit 1001 0; lit 1001 0; lit 1002 0; lit 1004 0]
             a (AtStart 5) in
  points (fst r) = 0 /\ timer_running (fst r) = true.
Proof.
  cbv zeta.
  destruct (no_award_before_the_end [lit 1001 0; lit 1001 0; lit 1002 0; lit 1004 0]
              (set_timer_running true App_init) 5 (lit 5 0) (lit 1000 0))
    as (Hp & _ & Hr).
  - reflexivity.
  - repeat constructor.
  - split; [exact Hp | now apply Hr].
Defined.

(** *** Planning and timing apart *)

Section Apart.
Context {B : Builtins}.

Lemma thread_step_plan (w : World) (e : event) :
  is_thread_step e = true -> plan (app (step w e)) = plan (app w).
Proof.
  destruct e as [| | | |i now]; try discriminate. intros _.
  destruct (thread_step_keeps w i now)
    as (E1 & E2 & E3 & E4 & E5 & E6 & E7 & E8 & _).
  unfold plan. now rewrite E1, E2, E3, E4, E5, E6, E7, E8.
Qed.

Lemma planning_step_timer (w : World) (e : event) :
  is_planning e = true ->
  timer_face (app (step w e)) = timer_face (app w)
  /\ threads (step w e) = threads w.
Proof.
  destruct e as [n h d | | today answer | answer | i now]; try discriminate;
    intros _; (split; [|reflexivity]).
  - reflexivity.
  - cbn [step app].
    destruct (add_task_cases (app w)) as [[-> _] | (n & h & d & -> & _)];
      reflexivity.
  - cbn [step app].
    destruct (generate_schedule_keeps today answer (app w))
      as (_ & _ & _ & _ & _ & _ & E1 & E2 & E3 & E4).
    unfold timer_face. now rewrite E1, E2, E3, E4.
Qed.

End Apart.

(** X21.  Planning and timing do not interfere.  However many steps
    the countdown threads take, the tasks, their list box, the
    capacity, the schedule, the text on display and the entry fields
    stay as they are; and whatever the user types, adds and generates,
    the flag, the points, the two labels of the timer and the threads
    stay as they are. *)
Theorem planning_and_timing_apart {B : Builtins} (es : list event) (w : World) :
  (forallb is_thread_step es = true -> plan (app (run w es)) = plan (app w))
  /\ (forallb is_planning es = true ->
      timer_face (app (run w es)) = timer_face (app w)
      /\ threads (run w es) = threads w).
Proof.
  revert w. induction es as [|e es IH]; intros w; [cbn; auto|].
  change (run w (e :: es)) with (run (step w e) es).
  destruct (IH (step w e)) as [IH1 IH2]. cbn [forallb]. split; intros H;
    apply andb_true_iff in H as [He Hes].
  - rewrite (IH1 Hes). now apply thread_step_plan.
  - destruct (IH2 Hes) as [-> ->]. now apply planning_step_timer.
Qed.

(** *** What [add_task] takes *)

(** X22.  [add_task] adds a task exactly when the three fields,
    stripped, are not empty, the hours parse as a float and the date
    parses: then it shows no dialog, appends the task with these
    values and its line, and empties the fields.  In every other case
    it shows one warning and changes nothing, the typed text
    included. *)
Theorem add_task_adds_or_warns {B : Builtins} (a : App) :
  (exists h d,
     str_strip (task_name_var a) <> ""
     /\ str_strip (task_hours_var a) <> ""
     /\ str_strip (task_due_var a) <> ""
     /\ float_of_str (str_strip (task_hours_var a)) = Some h
     /\ strptime_ymd (str_strip (task_due_var a)) = Some d
     /\ tasks (fst (add_task a))
        = (tasks a ++ [Task_init (str_strip (task_name_var a)) h d])%list
     /\ task_listbox (fst (add_task a))
        = (task_listbox a
           ++ [listbox_line (Task_init (str_strip (task_name_var a)) h d)])%list
     /\ (task_name_var (fst (add_task a)), task_hours_var (fst (add_task a)),
         task_due_var (fst (add_task a))) = ("", "", "")
     /\ snd (add_task a) = returned [])
  \/ ((str_strip (task_name_var a) = ""
       \/ str_strip (task_hours_var a) = ""
       \/ str_strip (task_due_var a) = ""
       \/ float_of_str (str_strip (task_hours_var a)) = None
       \/ strptime_ymd (str_strip (task_due_var a)) = None)
      /\ fst (add_task a) = a
      /\ exists title message,
           snd (add_task a) = returned [showwarning title message]).
Proof.
  unfold add_task.
  destruct (String.eqb_spec (str_strip (task_name_var a)) "") as [E1|N1];
    [right; cbn; eauto 10|].
  destruct (String.eqb_spec (str_strip (task_hours_var a)) "") as [E2|N2];
    [right; cbn; eauto 10|].
  destruct (String.eqb_spec (str_strip (task_due_var a)) "") as [E3|N3];
    [right; cbn; eauto 10|].
  cbn [orb].
  destruct (float_of_str _) as [h|] eqn:Eh; [|right; cbn; eauto 10].
  destruct (strptime_ymd _) as [d|] eqn:Ed; [|right; cbn; eauto 10].
  left. exists h, d. cbn. auto 10.
Qed.

(** *** A session that dies *)

Section DeadSession.
Context {B : Builtins}.

Lemma stuck_step_points (w : World) (e : event) :
  stuck w -> points (app (step w e)) = points (app w).
Proof.
  intros (dones & x & Ht & Hd & Hf).
  destruct (is_thread_step e) eqn:He;
    [|now destruct (user_event_labels w e He) as (-> & _)].
  destruct e as [| | | |i now]; try discriminate.
  cbn [step].
  destruct (nth_error (threads w) i) as [p|] eqn:E; [|reflexivity].
  rewrite Ht in E.
  destruct (nth_error_running _ _ _ _ Hd E) as [[-> _] | [-> _]]; reflexivity.
Qed.

Lemma stuck_run_points (es : list event) : forall w,
  stuck w -> points (app (run w es)) = points (app w).
Proof.
  induction es as [|e es IH]; intros w H; [reflexivity|].
  change (run w (e :: es)) with (run (step w e) es).
  rewrite IH by now apply stuck_step. now apply stuck_step_points.
Qed.

End DeadSession.

(** X23.  A session can die and block the timer for good.  Minutes
    that [int] accepts but that are too many for a float make
    [start_time + seconds] raise [OverflowError] in the thread, which
    then never reaches the reset of line 233: whatever happens next,
    the flag stays set, every start is refused as if a session were
    running, and no point is ever added. *)
Theorem dead_session_blocks_the_timer {B : Builtins} (w : World) (answer : string)
    (minutes : Z) (now : float64) (es : list event) :
  reachable w ->
  timer_running (app w) = false ->
  int_of_str answer = Some minutes ->
  0 < minutes ->
  of_int (minutes * 60) = None ->
  let w' := run w (ClickFocus (Some answer)
                   :: ThreadStep (List.length (threads w)) now :: es) in
  timer_running (app w') = true
  /\ (forall answer',
        start_focus_session answer' w'
        = (w', returned [showinfo "提示" "已经在专注学习中。"]))
  /\ points (app w') = points (app w).
Proof.
  intros Hr Hf Hm Hpos Hov w'.
  destruct (overflowing_session_blocks_timer w answer minutes now es
              Hr Hf Hm Hpos Hov) as [Hflag _].
  fold w' in Hflag.
  split; [exact Hflag|]. split.
  - intros answer'. unfold start_focus_session. now rewrite Hflag.
  - subst w'.
    change (run w (ClickFocus (Some answer)
                   :: ThreadStep (List.length (threads w)) now :: es))
      with (run (step (step w (ClickFocus (Some answer)))
                      (ThreadStep (List.length (threads w)) now)) es).
    assert (Hs : stuck (step (step w (ClickFocus (Some answer)))
                          (ThreadStep (List.length (threads w)) now))
                 /\ points (app (step (step w (ClickFocus (Some answer)))
                                  (ThreadStep (List.length (threads w)) now)))
                    = points (app w)).
    { apply reachable_consistent in Hr.
      inversion Hr as [a dones Hd Hf' Hpt | a dones q Hd Hf' Hnd Hpt Hl];
        subst; cbn [app threads] in *; [|congruence].
      assert (E1 : step (mkWorld a dones) (ClickFocus (Some answer))
                   = mkWorld (set_focus_thread (Some (List.length dones))
                                (set_timer_running true a))
                             (dones ++ [AtStart (minutes * 60)])).
      { cbn [step]. unfold start_focus_session. cbn [app threads].
        rewrite Hf, Hm.
        replace (minutes <=? 0) with false by (symmetry; apply Z.leb_gt; lia).
        reflexivity. }
      rewrite E1, step_running. cbn [countdown_step]. rewrite Hov.
      cbn [fst snd]. split; [exists dones, OverflowError; auto | reflexivity]. }
    destruct Hs as [Hs Hp].
    now rewrite (stuck_run_points es _ Hs).
Qed.

Lemma dead_session_blocks_the_timer_witness :
  let w' := run (B := Reference.builtins) World_init
              [ClickFocus (Some ("1" ++ Reference.zeros 400));
               ThreadStep 0 (lit 1000 0); ClickFocus (Some "25");
               ThreadStep 0 (lit 1001 0)] in
  timer_running (app w') = true /\ points (app w') = 0.
Proof.
  destruct (dead_session_blocks_the_timer (B := Reference.builtins) World_init
              ("1" ++ Reference.zeros 400) (10 ^ 400) (lit 1000 0)
              [ClickFocus (Some "25"); ThreadStep 0 (lit 1001 0)])
    as (Hf & _ & Hp).
  - apply (reachable_init (B := Reference.builtins)).
  - reflexivity.
  - vm_compute. reflexivity.
  - reflexivity.
  - vm_compute. reflexivity.
  - split; [exact Hf | exact Hp].
Defined.
